(** * Shared validation layer of the medication-management platform

    A shallow embedding of [packages/shared/src]: the vocabulary tables of
    [constants.js], the format checkers and record validators of
    [validators/userValidator.js], [validators/insuranceValidator.js] and
    [validators/prescriptionValidator.js], and the helpers of
    [utils/common.js] for identifiers, dates and input, together with the
    part of the JavaScript runtime these functions rely on (property reads,
    truthiness, [typeof], string coercion, relational comparison, regular
    expressions, [Date], [Math.random]).

    The validators receive loosely shaped objects, so the embedding works on a
    type [value] of JavaScript data values and on a [result] type that records
    whether an evaluation returns or throws. *)

From Stdlib Require Import String Ascii List ZArith Bool Lia DecimalString.
Import ListNotations.
Open Scope string_scope.
Open Scope Z_scope.

Set Default Proof Using "Type".

(** ** Outcomes of an evaluation *)

(** The only exception the modelled code can raise is a [TypeError]
    (a property read on [undefined]/[null], a call of something that is not a
    function, an object that cannot be converted to a primitive). *)
Inductive exn : Type := TypeError.

Inductive result (A : Type) : Type :=
| Ok (a : A)
| Throw (e : exn).

Arguments Ok {A} a.
Arguments Throw {A} e.

Definition bind {A B : Type} (m : result A) (k : A -> result B) : result B :=
  match m with
  | Ok a => k a
  | Throw e => Throw e
  end.

Declare Scope js_scope.
Delimit Scope js_scope with js.
Notation "x <- m ;; k" := (bind m (fun x => k))
  (at level 61, m at next level, right associativity) : js_scope.
Open Scope js_scope.

Definition returns {A : Type} (m : result A) : bool :=
  match m with Ok _ => true | Throw _ => false end.

(** ** Numbers

    A JavaScript number is [NaN], an infinity, or a finite double.  A finite
    number is held as the decimal [m * 10^e] that the runtime prints for it
    (its shortest round-trip form); every double has one, integers are
    [Fin z 0], and [-0] is identified with [0], which no function below
    distinguishes.  Two doubles are in the order of the decimals printed for
    them, so the comparison of two numbers is the comparison of these
    decimals; a numeric string is brought to this form by
    [double_of_decimal] below. *)
Inductive number : Type :=
| NaN
| Inf (negative : bool)
| Fin (m e : Z).

Definition fin_compare (m1 e1 m2 e2 : Z) : comparison :=
  let e := Z.min e1 e2 in
  Z.compare (m1 * 10 ^ (e1 - e)) (m2 * 10 ^ (e2 - e)).

(** [x < y] on numbers; [false] as soon as one side is [NaN]. *)
Definition num_lt (x y : number) : bool :=
  match x, y with
  | NaN, _ | _, NaN => false
  | Inf true, Inf true => false
  | Inf true, _ => true
  | _, Inf true => false
  | Inf false, _ => false
  | _, Inf false => true
  | Fin m1 e1, Fin m2 e2 =>
      match fin_compare m1 e1 m2 e2 with Lt => true | _ => false end
  end.

Definition num_eq (x y : number) : bool :=
  match x, y with
  | Inf a, Inf b => Bool.eqb a b
  | Fin m1 e1, Fin m2 e2 =>
      match fin_compare m1 e1 m2 e2 with Eq => true | _ => false end
  | _, _ => false
  end.

Definition num_is_nan (x : number) : bool :=
  match x with NaN => true | _ => false end.

(** ** Values

    The data values a record can carry: what JSON carries, and [undefined].
    An object is the list of its own properties, each key at most once, and
    inherits from [Object.prototype]; an array is the list of its elements.
    Functions, symbols and other exotic objects are outside the model. *)
#[local] Unset Elimination Schemes.
Inductive value : Type :=
| VUndefined
| VNull
| VBool (b : bool)
| VNum (n : number)
| VStr (s : string)
| VArr (elems : list value)
| VObj (props : list (string * value)).
#[local] Set Elimination Schemes.

Definition int (z : Z) : value := VNum (Fin z 0).

Fixpoint own_property (props : list (string * value)) (k : string) : option value :=
  match props with
  | [] => None
  | (k', v) :: rest => if String.eqb k' k then Some v else own_property rest k
  end.

(** [o.k] for the property names the validators read.  None of these names
    is a member of a built-in prototype, an index or ["length"], so the read
    gives the own property of an object and [undefined] on everything else,
    except that [undefined] and [null] have no properties at all. *)
Definition get (o : value) (k : string) : result value :=
  match o with
  | VUndefined | VNull => Throw TypeError
  | VObj props =>
      match own_property props k with
      | Some v => Ok v
      | None => Ok VUndefined
      end
  | _ => Ok VUndefined
  end.

(** [typeof v]. *)
Definition typeof (v : value) : string :=
  match v with
  | VUndefined => "undefined"
  | VNull => "object"
  | VBool _ => "boolean"
  | VNum _ => "number"
  | VStr _ => "string"
  | VArr _ | VObj _ => "object"
  end.

(** ToBoolean: what [!v], [if (v)] and [a && b] test. *)
Definition truthy (v : value) : bool :=
  match v with
  | VUndefined | VNull => false
  | VBool b => b
  | VNum NaN => false
  | VNum (Inf _) => true
  | VNum (Fin m _) => negb (m =? 0)
  | VStr s => negb (String.eqb s "")
  | VArr _ | VObj _ => true
  end.

(** [v === undefined], [v === null], [v === false]. *)
Definition is_undefined (v : value) : bool :=
  match v with VUndefined => true | _ => false end.

Definition is_null (v : value) : bool :=
  match v with VNull => true | _ => false end.

Definition is_false (v : value) : bool :=
  match v with VBool false => true | _ => false end.

(** ** Strings

    A string is a sequence of code units; the model carries the code units
    0..255 (ASCII and Latin-1), one per [ascii]. *)

Definition chars (s : string) : list ascii := list_ascii_of_string s.

(** White space and line terminators among the code units 0..255:
    TAB, LF, VT, FF, CR, SP and NBSP.  This is both what [\s] matches and
    what [trim] removes. *)
Definition is_space (c : ascii) : bool :=
  let n := N_of_ascii c in
  ((9 <=? n) && (n <=? 13) || (n =? 32) || (n =? 160))%N.

Definition is_digit (c : ascii) : bool :=
  let n := N_of_ascii c in ((48 <=? n) && (n <=? 57))%N.

Fixpoint trim_start (s : string) : string :=
  match s with
  | String c rest => if is_space c then trim_start rest else s
  | EmptyString => EmptyString
  end.

Fixpoint trim_end (s : string) : string :=
  match s with
  | String c rest =>
      match trim_end rest with
      | EmptyString => if is_space c then EmptyString else String c EmptyString
      | rest' => String c rest'
      end
  | EmptyString => EmptyString
  end.

(** [String.prototype.trim]. *)
Definition trim (s : string) : string := trim_end (trim_start s).

(** Upper-case form of one code unit: [a]..[z] and the Latin-1 lower-case
    letters move down by 32, sharp s becomes ["SS"].  The micro sign and
    y-diaeresis have upper-case forms above 255; they are left as they are,
    which keeps them different from every ASCII letter.  Above 255 the
    runtime knows further characters whose upper-case form is made of ASCII
    letters (long s, dotless i, the ligatures); strings that hold them are
    outside the model, and no statement below concludes from the upper-case
    form of a string to its spelling. *)
Definition upper_char (c : ascii) : string :=
  let n := N_of_ascii c in
  if ((97 <=? n) && (n <=? 122))%N then String (ascii_of_N (n - 32)) ""
  else if (n =? 223)%N then "SS"
  else if ((224 <=? n) && (n <=? 254) && negb (n =? 247))%N
       then String (ascii_of_N (n - 32)) ""
  else String c "".

(** [String.prototype.toUpperCase]. *)
Fixpoint toUpperCase (s : string) : string :=
  match s with
  | EmptyString => EmptyString
  | String c rest => upper_char c ++ toUpperCase rest
  end.

(** ** Conversions between strings and numbers *)

Definition digit_string (n : Z) : string :=
  NilZero.string_of_uint (N.to_uint (Z.to_N n)).

Fixpoint strip_zeros_end (s : string) : string :=
  match s with
  | String c rest =>
      match strip_zeros_end rest with
      | EmptyString => if Ascii.eqb c "0" then EmptyString else String c EmptyString
      | rest' => String c rest'
      end
  | EmptyString => EmptyString
  end.

Fixpoint zeros (n : nat) : string :=
  match n with O => "" | S k => String "0" (zeros k) end.

Fixpoint take (n : nat) (s : string) : string :=
  match n, s with
  | S k, String c rest => String c (take k rest)
  | _, _ => ""
  end.

Fixpoint drop (n : nat) (s : string) : string :=
  match n, s with
  | S k, String _ rest => drop k rest
  | _, _ => s
  end.

(** Number::toString for a finite, non-zero magnitude [m * 10^e], [m > 0]:
    with [k] significant digits and [n] digits before the decimal point, the
    plain, fractional and exponent notations of the language definition. *)
Definition magnitude_string (m e : Z) : string :=
  let all := digit_string m in
  let ds := strip_zeros_end all in
  let k := Z.of_nat (String.length ds) in
  let n := Z.of_nat (String.length all) + e in
  if (k <=? n) && (n <=? 21) then ds ++ zeros (Z.to_nat (n - k))
  else if (0 <? n) && (n <=? 21) then take (Z.to_nat n) ds ++ "." ++ drop (Z.to_nat n) ds
  else if (-6 <? n) && (n <=? 0) then "0." ++ zeros (Z.to_nat (- n)) ++ ds
  else
    let x := n - 1 in
    let sign := if x <? 0 then "-" else "+" in
    let mant := if (k =? 1) then ds else take 1 ds ++ "." ++ drop 1 ds in
    mant ++ "e" ++ sign ++ digit_string (Z.abs x).

Definition NumberToString (x : number) : string :=
  match x with
  | NaN => "NaN"
  | Inf false => "Infinity"
  | Inf true => "-Infinity"
  | Fin m e =>
      if m =? 0 then "0"
      else if m <? 0 then "-" ++ magnitude_string (- m) e
      else magnitude_string m e
  end.

(** ** Rounding to a double

    The number a numeric string denotes is the double nearest to the decimal
    written, a tie going to the even significand; a value that rounds to
    [2^1024] or more is an infinity, one that rounds to nothing is [0].
    A finite double is [f * 2^q] with [f < 2^53] and [q >= -1074]; rounding
    up can give the pair [(2^53, q)], which is the double [2^52 * 2^(q + 1)]. *)

(** [n / d] rounded to the nearest integer, a tie to the even one; [d > 0]. *)
Definition round_half_even (n d : Z) : Z :=
  let q := n / d in
  match 2 * (n mod d) ?= d with
  | Lt => q
  | Gt => q + 1
  | Eq => if Z.even q then q else q + 1
  end.

(** The double nearest to [n / d], for [n > 0] and [d > 0], as the pair
    [(f, q)] of a significand and a binary exponent, before the test for
    overflow.  With [2^b <= n / d < 2^(b + 1)], the doubles around [n / d]
    are the multiples of [2^q] for [q = b - 52], and of [2^-1074] in the
    subnormal range. *)
Definition nearest_double (n d : Z) : Z * Z :=
  let b0 := Z.log2 n - Z.log2 d in
  let below := if 0 <=? b0 then n <? d * 2 ^ b0 else n * 2 ^ (- b0) <? d in
  let b := if below then b0 - 1 else b0 in
  let q := Z.max (b - 52) (-1074) in
  let f := if 0 <=? q then round_half_even n (d * 2 ^ q)
           else round_half_even (n * 2 ^ (- q)) d in
  (f, q).

Definition decimal_ratio (m e : Z) : Z * Z :=
  if 0 <=? e then (m * 10 ^ e, 1) else (m, 10 ^ (- e)).

(** The double nearest to [m * 10^e], [m > 0]. *)
Definition round_decimal (m e : Z) : Z * Z :=
  let (n, d) := decimal_ratio m e in nearest_double n d.

Definition same_double (x y : Z * Z) : bool :=
  let (f1, q1) := x in
  let (f2, q2) := y in
  f1 * 2 ^ (q1 + 1074) =? f2 * 2 ^ (q2 + 1074).

(** The double [f * 2^q] written out as a decimal. *)
Definition exact_decimal (x : Z * Z) : Z * Z :=
  let (f, q) := x in
  if 0 <=? q then (f * 2 ^ q, 0) else (f * 5 ^ (- q), q).

Definition decimal_length (m : Z) : Z := Z.of_nat (String.length (digit_string m)).

(** The decimal the runtime prints for the double [x], whose exact decimal
    is [M * 10^E] with [len] digits: among the decimals that round to [x],
    one with the fewest significant digits [k], and among these the nearest
    to [x].  A decimal of [k] digits that rounds to [x] is one of the two
    that enclose [x]; 17 digits are always enough. *)
Fixpoint shortest_digits (fuel : nat) (k : Z) (M E len : Z) (x : Z * Z) : Z * Z :=
  match fuel with
  | O => (M, E)
  | S fuel' =>
      let t := len - k in
      if t <=? 0 then (M, E)
      else
        let lo := M / 10 ^ t in
        let hi := lo + 1 in
        let rounds s := same_double (round_decimal s (E + t)) x in
        match rounds lo, rounds hi with
        | true, true =>
            match (M - lo * 10 ^ t) ?= (hi * 10 ^ t - M) with
            | Lt => (lo, E + t)
            | Gt => (hi, E + t)
            | Eq => if Z.even lo then (lo, E + t) else (hi, E + t)
            end
        | true, false => (lo, E + t)
        | false, true => (hi, E + t)
        | false, false => shortest_digits fuel' (k + 1) M E len x
        end
  end.

(** The number that [sign * m * 10^e] denotes, [m >= 0], in the form in
    which numbers are held.  A decimal of more than 310 digits before the
    point is past every double and one that starts more than 330 places
    after the point is below half the smallest; these are settled without
    computing the power of ten. *)
Definition double_of_decimal (sign m e : Z) : number :=
  let len := decimal_length m in
  if m =? 0 then Fin 0 0
  else if 310 <? len + e then Inf (sign <? 0)
  else if len + e <? -330 then Fin 0 0
  else
    let x := round_decimal m e in
    let (f, q) := x in
    if f =? 0 then Fin 0 0
    else if (0 <=? q) && (2 ^ 1024 <=? f * 2 ^ q) then Inf (sign <? 0)
    else
      let (M, E) := exact_decimal x in
      let (s, t) := shortest_digits 17 1 M E (decimal_length M) x in
      Fin (sign * s) t.

Fixpoint span_digits (l : list ascii) : list ascii * list ascii :=
  match l with
  | c :: rest =>
      if is_digit c then let (ds, r) := span_digits rest in (c :: ds, r)
      else ([], l)
  | [] => ([], [])
  end.

Definition digit_value (c : ascii) : Z :=
  let n := Z.of_N (N_of_ascii c) in
  if is_digit c then n - 48
  else if (97 <=? n) && (n <=? 102) then n - 87
  else if (65 <=? n) && (n <=? 70) then n - 55
  else 16.

(** Value of a digit sequence in a radix; [None] on an empty sequence or a
    character that is not a digit of the radix. *)
Fixpoint radix_value (radix : Z) (acc : Z) (l : list ascii) : option Z :=
  match l with
  | [] => Some acc
  | c :: rest =>
      if digit_value c <? radix then radix_value radix (acc * radix + digit_value c) rest
      else None
  end.

Definition radix_literal (radix : Z) (l : list ascii) : number :=
  match l with
  | [] => NaN
  | _ =>
      match radix_value radix 0 l with
      | Some z => double_of_decimal 1 z 0
      | None => NaN
      end
  end.

(** StrUnsignedDecimalLiteral without [Infinity]: digits, an optional
    fraction, an optional exponent; the value is the double nearest to
    [sign * digits * 10^exponent]. *)
Definition decimal_literal (sign : Z) (l : list ascii) : number :=
  let (ip, r1) := span_digits l in
  let '(dot, fp, r2) :=
    match r1 with
    | "."%char :: r => let (fp, r') := span_digits r in (true, fp, r')
    | _ => (false, [], r1)
    end in
  match (ip ++ fp)%list with
  | [] => NaN
  | ds =>
      let mant := match radix_value 10 0 ds with Some z => z | None => 0 end in
      let scale := Z.of_nat (List.length fp) in
      match r2 with
      | [] => double_of_decimal sign mant (- scale)
      | c :: r3 =>
          if Ascii.eqb c "e" || Ascii.eqb c "E" then
            let '(esign, r4) :=
              match r3 with
              | "+"%char :: r => (1, r)
              | "-"%char :: r => (-1, r)
              | _ => (1, r3)
              end in
            match r4 with
            | [] => NaN
            | _ =>
                match radix_value 10 0 r4 with
                | Some x => double_of_decimal sign mant (esign * x - scale)
                | None => NaN
                end
            end
          else NaN
      end
  end.

Definition signed_literal (sign : Z) (l : list ascii) : number :=
  if String.eqb (string_of_list_ascii l) "Infinity" then Inf (sign <? 0)
  else decimal_literal sign l.

(** StringToNumber: the numeric value of a StringNumericLiteral, [NaN] when
    the string is none.  The value written is rounded to a double, so
    ["9007199254740993"] is [9007199254740992], ["1e400"] is [Infinity] and
    ["1e-400"] is [0]. *)
Definition StringToNumber (s : string) : number :=
  match chars (trim s) with
  | [] => Fin 0 0
  | "0"%char :: "x"%char :: r | "0"%char :: "X"%char :: r => radix_literal 16 r
  | "0"%char :: "o"%char :: r | "0"%char :: "O"%char :: r => radix_literal 8 r
  | "0"%char :: "b"%char :: r | "0"%char :: "B"%char :: r => radix_literal 2 r
  | "+"%char :: r => signed_literal 1 r
  | "-"%char :: r => signed_literal (-1) r
  | l => signed_literal 1 l
  end.

(** ** Coercions *)

(** An ordinary object converts through the inherited [toString] unless an
    own property of that name, which in this universe is never callable,
    hides it; the inherited [valueOf] returns the object itself and decides
    nothing.  An array converts through [join]. *)
Definition join_with (elem : value -> result string) (sep : string)
  : list value -> result string :=
  fix join (l : list value) : result string :=
    match l with
    | [] => Ok ""
    | x :: rest =>
        let first :=
          match x with
          | VUndefined | VNull => Ok ""
          | _ => elem x
          end in
        match rest with
        | [] => first
        | _ => a <- first ;; b <- join rest ;; Ok (a ++ sep ++ b)
        end
    end.

Fixpoint ToString (v : value) : result string :=
  match v with
  | VUndefined => Ok "undefined"
  | VNull => Ok "null"
  | VBool true => Ok "true"
  | VBool false => Ok "false"
  | VNum n => Ok (NumberToString n)
  | VStr s => Ok s
  | VArr elems => join_with ToString "," elems
  | VObj props =>
      match own_property props "toString" with
      | Some _ => Throw TypeError
      | None => Ok "[object Object]"
      end
  end.

(** [Array.prototype.join]. *)
Definition Array_join (sep : string) (l : list value) : result string :=
  join_with ToString sep l.

Definition ToPrimitive (v : value) : result value :=
  match v with
  | VArr _ | VObj _ => s <- ToString v ;; Ok (VStr s)
  | _ => Ok v
  end.

Definition ToNumber (v : value) : result number :=
  p <- ToPrimitive v ;;
  Ok match p with
     | VUndefined => NaN
     | VNull => Fin 0 0
     | VBool true => Fin 1 0
     | VBool false => Fin 0 0
     | VNum n => n
     | VStr s => StringToNumber s
     | _ => NaN
     end.

(** IsLessThan(x, y): [Some b] for a decided comparison, [None] for
    [undefined] (a [NaN] operand).  [leftFirst] fixes which operand is
    converted first.  Two strings compare by code units. *)
Definition IsLessThan (leftFirst : bool) (x y : value) : result (option bool) :=
  pq <- (if leftFirst
         then (px <- ToPrimitive x ;; py <- ToPrimitive y ;; Ok (px, py))
         else (py <- ToPrimitive y ;; px <- ToPrimitive x ;; Ok (px, py))) ;;
  match pq with
  | (VStr a, VStr b) => Ok (Some (String.ltb a b))
  | (px, py) =>
      nx <- ToNumber px ;;
      ny <- ToNumber py ;;
      Ok (if num_is_nan nx || num_is_nan ny then None else Some (num_lt nx ny))
  end.

(** [a < b] and [a > b]. *)
Definition js_lt (a b : value) : result bool :=
  r <- IsLessThan true a b ;;
  Ok match r with Some true => true | _ => false end.

Definition js_gt (a b : value) : result bool :=
  r <- IsLessThan false b a ;;
  Ok match r with Some true => true | _ => false end.

(** SameValueZero on primitive values ([NaN] is found, unlike with [===]).
    Objects and arrays are the same value only when they are the same
    reference; the tables searched below hold strings only. *)
Definition SameValueZero (a b : value) : bool :=
  match a, b with
  | VUndefined, VUndefined => true
  | VNull, VNull => true
  | VBool x, VBool y => Bool.eqb x y
  | VNum NaN, VNum NaN => true
  | VNum x, VNum y => num_eq x y
  | VStr x, VStr y => String.eqb x y
  | _, _ => false
  end.

(** [Array.prototype.includes] and [Object.values]. *)
Definition Array_includes (l : list value) (v : value) : bool :=
  existsb (fun x => SameValueZero x v) l.

Definition Object_values (props : list (string * value)) : list value :=
  map snd props.

(** ** Regular expressions

    The patterns of the format checkers use character classes,
    concatenation, an optional group and bounded or unbounded repetition, all
    anchored at both ends, so [RegExp.prototype.test] is membership of the
    whole string in the language of the pattern.  Matching is done with
    derivatives. *)
Module Regex.

Inductive regex : Type :=
| Void
| Eps
| Cls (p : ascii -> bool)
| Seq (r1 r2 : regex)
| Alt (r1 r2 : regex)
| Star (r : regex).

Definition Chr (c : ascii) : regex := Cls (Ascii.eqb c).
Definition Plus (r : regex) : regex := Seq r (Star r).
Definition Opt (r : regex) : regex := Alt r Eps.

Fixpoint Rep (n : nat) (r : regex) : regex :=
  match n with
  | O => Eps
  | S k => Seq r (Rep k r)
  end.

(** [r{lo,hi}] with [lo <= hi]. *)
Definition Range (lo hi : nat) (r : regex) : regex :=
  Seq (Rep lo r) (Rep (hi - lo) (Opt r)).

Fixpoint nullable (r : regex) : bool :=
  match r with
  | Void => false
  | Eps => true
  | Cls _ => false
  | Seq r1 r2 => nullable r1 && nullable r2
  | Alt r1 r2 => nullable r1 || nullable r2
  | Star _ => true
  end.

Fixpoint deriv (c : ascii) (r : regex) : regex :=
  match r with
  | Void | Eps => Void
  | Cls p => if p c then Eps else Void
  | Seq r1 r2 =>
      if nullable r1 then Alt (Seq (deriv c r1) r2) (deriv c r2)
      else Seq (deriv c r1) r2
  | Alt r1 r2 => Alt (deriv c r1) (deriv c r2)
  | Star r1 => Seq (deriv c r1) (Star r1)
  end.

Fixpoint accepts (r : regex) (w : list ascii) : bool :=
  match w with
  | [] => nullable r
  | c :: w' => accepts (deriv c r) w'
  end.

(** The language of a pattern. *)
Inductive lang : regex -> list ascii -> Prop :=
| L_Eps : lang Eps []
| L_Cls p c : p c = true -> lang (Cls p) [c]
| L_Seq r1 r2 u v : lang r1 u -> lang r2 v -> lang (Seq r1 r2) (u ++ v)
| L_AltL r1 r2 u : lang r1 u -> lang (Alt r1 r2) u
| L_AltR r1 r2 u : lang r2 u -> lang (Alt r1 r2) u
| L_Star0 r : lang (Star r) []
| L_StarS r u v : lang r u -> lang (Star r) v -> lang (Star r) (u ++ v).

End Regex.
Import Regex.

(** [re.test(v)]: the argument is converted to a string first. *)
Definition test (re : regex) (v : value) : result bool :=
  s <- ToString v ;;
  Ok (accepts re (chars s)).

Definition digit : regex := Cls is_digit.

(** [[^\s@]]. *)
Definition not_space_at : regex :=
  Cls (fun c => negb (is_space c || Ascii.eqb c "@")).

(** ** Dates

    A [Date] object is modelled by its time value: milliseconds since the
    epoch, or [None] for an invalid date ([NaN]). *)
Definition time_value : Type := option Z.

Definition msPerDay : Z := 86400000.

Definition DayFromYear (y : Z) : Z :=
  365 * (y - 1970) + (y - 1969) / 4 - (y - 1901) / 100 + (y - 1601) / 400.

Definition is_leap (y : Z) : bool :=
  ((y mod 4 =? 0) && negb (y mod 100 =? 0)) || (y mod 400 =? 0).

Definition DaysInMonth (y m : Z) : Z :=
  if m =? 2 then (if is_leap y then 29 else 28)
  else if (m =? 4) || (m =? 6) || (m =? 9) || (m =? 11) then 30
  else 31.

(** Days between the start of the year and the start of month [m] (1..12). *)
Definition DaysBeforeMonth (y m : Z) : Z :=
  let leap := if is_leap y then 1 else 0 in
  if m <=? 1 then 0
  else if m =? 2 then 31
  else if m =? 3 then 59 + leap
  else if m =? 4 then 90 + leap
  else if m =? 5 then 120 + leap
  else if m =? 6 then 151 + leap
  else if m =? 7 then 181 + leap
  else if m =? 8 then 212 + leap
  else if m =? 9 then 243 + leap
  else if m =? 10 then 273 + leap
  else if m =? 11 then 304 + leap
  else 334 + leap.

(** MakeDay for a month in 1..12: a day number past the end of the month
    runs on into the following month. *)
Definition MakeDay (y m d : Z) : Z :=
  DayFromYear y + DaysBeforeMonth y m + d - 1.

Definition number_of (l : list ascii) : Z :=
  match radix_value 10 0 l with Some z => z | None => 0 end.

(** The fields of a string of the form [dddd-dd-dd]. *)
Definition date_fields (s : string) : option (Z * Z * Z) :=
  match chars s with
  | [y1; y2; y3; y4; h1; m1; m2; h2; d1; d2] =>
      if Ascii.eqb h1 "-" && Ascii.eqb h2 "-"
         && forallb is_digit [y1; y2; y3; y4; m1; m2; d1; d2]
      then Some (number_of [y1; y2; y3; y4], number_of [m1; m2], number_of [d1; d2])
      else None
  | _ => None
  end.

Section Runtime.

(** What the engine makes of a date string that its parser for the
    date-time format of the language does not accept; this depends on the
    engine, its locale and its time zone. *)
Variable legacyParse : string -> time_value.

(** [Date.parse] as Node.js (V8) implements it, for what the validators
    can pass: a date-only string [YYYY-MM-DD] whose month is in 1..12 and
    whose day is in 1..31 is read as midnight UTC, and so is accepted even
    when the month has fewer days; every other string goes to
    [legacyParse]. *)
Definition Date_parse (s : string) : time_value :=
  match date_fields s with
  | Some (y, m, d) =>
      if (1 <=? m) && (m <=? 12) && (1 <=? d) && (d <=? 31)
      then Some (MakeDay y m d * msPerDay)
      else legacyParse s
  | None => legacyParse s
  end.

(** TimeClip(ToIntegerOrInfinity(n)). *)
Definition TimeClip (n : number) : time_value :=
  match n with
  | Fin m e =>
      let t := if 0 <=? e then m * 10 ^ e else Z.quot m (10 ^ (- e)) in
      if Z.abs t <=? 8640000000000000 then Some t else None
  | _ => None
  end.

(** [new Date(v)]. *)
Definition new_Date (v : value) : result time_value :=
  p <- ToPrimitive v ;;
  match p with
  | VStr s => Ok (Date_parse s)
  | _ => n <- ToNumber p ;; Ok (TimeClip n)
  end.

(** [a < b], [a > b] and [a <= b] on two [Date] objects: comparison of
    the time values, [false] when one of them is [NaN]. *)
Definition date_lt (a b : time_value) : bool :=
  match a, b with Some x, Some y => x <? y | _, _ => false end.

Definition date_gt (a b : time_value) : bool := date_lt b a.

Definition date_le (a b : time_value) : bool :=
  match a, b with Some x, Some y => x <=? y | _, _ => false end.

(** [!isNaN(dateObj)]. *)
Definition date_is_valid (d : time_value) : bool :=
  match d with Some _ => true | None => false end.

(** ** constants.js *)

Definition InsurancePlanType : list (string * value) :=
  [ ("HMO", VStr "HMO"); ("PPO", VStr "PPO"); ("EPO", VStr "EPO");
    ("POS", VStr "POS"); ("HDHP", VStr "HDHP") ].

Definition PrescriptionStatus : list (string * value) :=
  [ ("PENDING", VStr "PENDING"); ("SUBMITTED", VStr "SUBMITTED");
    ("APPROVED", VStr "APPROVED"); ("DENIED", VStr "DENIED");
    ("PRIOR_AUTH_REQUIRED", VStr "PRIOR_AUTH_REQUIRED");
    ("FILLED", VStr "FILLED"); ("PICKED_UP", VStr "PICKED_UP");
    ("CANCELLED", VStr "CANCELLED") ].

Definition MedicationForm : list (string * value) :=
  [ ("TABLET", VStr "TABLET"); ("CAPSULE", VStr "CAPSULE");
    ("LIQUID", VStr "LIQUID"); ("INJECTION", VStr "INJECTION");
    ("CREAM", VStr "CREAM"); ("INHALER", VStr "INHALER");
    ("PATCH", VStr "PATCH"); ("OTHER", VStr "OTHER") ].

(** ** Validation results and the [errors] array

    Every validator starts from [const errors = []], only ever calls
    [errors.push], and reads the array once, in its return statement.  A
    statement of a validator is therefore modelled by the messages it
    pushes, or by the exception it raises, and a sequence of statements
    by the concatenation of what they push, up to the first exception. *)
Record ValidationResult : Type := mkResult {
  isValid : bool;
  errors : list string
}.

Definition stmt : Type := result (list string).

Definition push (message : string) : stmt := Ok [message].

Definition skip : stmt := Ok [].

Fixpoint block (body : list stmt) : stmt :=
  match body with
  | [] => Ok []
  | s :: rest => a <- s ;; b <- block rest ;; Ok (a ++ b)%list
  end.

(** [return { isValid: errors.length === 0, errors }]. *)
Definition finish (body : stmt) : result ValidationResult :=
  errs <- body ;;
  Ok {| isValid := (List.length errs =? 0)%nat; errors := errs |}.

(** [v.trim()]: only a string has the method. *)
Definition call_trim (v : value) : result string :=
  match v with
  | VStr s => Ok (trim s)
  | _ => Throw TypeError
  end.

(** [!v || v.trim().length === 0]. *)
Definition blank (v : value) : result bool :=
  if negb (truthy v) then Ok true
  else t <- call_trim v ;; Ok (String.length t =? 0)%nat.

(** [v.length]. *)
Definition length_of (v : value) : result value :=
  match v with
  | VUndefined | VNull => Throw TypeError
  | VStr s => Ok (int (Z.of_nat (String.length s)))
  | VArr l => Ok (int (Z.of_nat (List.length l)))
  | VObj _ => get v "length"
  | _ => Ok VUndefined
  end.

(** [typeof v !== 'number' || v < bound]. *)
Definition not_number_or_below (v : value) (bound : Z) : result bool :=
  if negb (String.eqb (typeof v) "number") then Ok true
  else js_lt v (int bound).

(** ** validators/userValidator.js *)

(** [/^[^\s@]+@[^\s@]+\.[^\s@]+$/] *)
Definition emailRegex : regex :=
  Seq (Plus not_space_at)
    (Seq (Chr "@")
       (Seq (Plus not_space_at) (Seq (Chr ".") (Plus not_space_at)))).

Definition isValidEmail (email : value) : result bool :=
  test emailRegex email.

(** [/^\+?1?\d{10,14}$/] *)
Definition phoneRegex : regex :=
  Seq (Opt (Chr "+")) (Seq (Opt (Chr "1")) (Range 10 14 digit)).

Definition isValidPhoneNumber (phoneNumber : value) : result bool :=
  test phoneRegex phoneNumber.

(** [/^\d{4}-\d{2}-\d{2}$/] *)
Definition dateRegex : regex :=
  Seq (Rep 4 digit) (Seq (Chr "-") (Seq (Rep 2 digit) (Seq (Chr "-") (Rep 2 digit)))).

(** The value [new Date(date)] builds is always a [Date], so
    [dateObj instanceof Date] holds and the result is [!isNaN(dateObj)]. *)
Definition isValidDate (date : value) : result bool :=
  matched <- test dateRegex date ;;
  if negb matched then Ok false
  else
    dateObj <- new_Date date ;;
    Ok (date_is_valid dateObj).

(** [/^\d{5}(-\d{4})?$/] *)
Definition zipRegex : regex :=
  Seq (Rep 5 digit) (Opt (Seq (Chr "-") (Rep 4 digit))).

Definition isValidZipCode (zipCode : value) : result bool :=
  test zipRegex zipCode.

Definition validStates : list value :=
  map VStr
    [ "AL"; "AK"; "AZ"; "AR"; "CA"; "CO"; "CT"; "DE"; "FL"; "GA";
      "HI"; "ID"; "IL"; "IN"; "IA"; "KS"; "KY"; "LA"; "ME"; "MD";
      "MA"; "MI"; "MN"; "MS"; "MO"; "MT"; "NE"; "NV"; "NH"; "NJ";
      "NM"; "NY"; "NC"; "ND"; "OH"; "OK"; "OR"; "PA"; "RI"; "SC";
      "SD"; "TN"; "TX"; "UT"; "VT"; "VA"; "WA"; "WV"; "WI"; "WY";
      "DC"; "PR"; "VI"; "GU"; "AS"; "MP" ].

(** [state?.toUpperCase()]: [undefined] on [undefined] and [null]; the
    method call on a string; on any other value the property is missing or
    not callable and the call throws. *)
Definition optional_toUpperCase (state : value) : result value :=
  match state with
  | VUndefined | VNull => Ok VUndefined
  | VStr s => Ok (VStr (toUpperCase s))
  | _ => Throw TypeError
  end.

Definition isValidStateCode (state : value) : result bool :=
  upper <- optional_toUpperCase state ;;
  Ok (Array_includes validStates upper).

(** The statements of [validateUser], in source order.  A property is
    read again each time the source names it; reads have no effect, so one
    read per statement is kept. *)

(** [if (!user.email) ... else if (!isValidEmail(user.email)) ...] *)
Definition user_email (user : value) : stmt :=
  email <- get user "email" ;;
  if negb (truthy email) then push "Email is required"
  else
    ok <- isValidEmail email ;;
    if negb ok then push "Invalid email format" else skip.

(** [if (!user.firstName || user.firstName.trim().length === 0) ...
     else if (user.firstName.length > 100) ...] *)
Definition user_firstName (user : value) : stmt :=
  firstName <- get user "firstName" ;;
  missing <- blank firstName ;;
  if missing then push "First name is required"
  else
    len <- length_of firstName ;;
    long <- js_gt len (int 100) ;;
    if long then push "First name must be 100 characters or less" else skip.

Definition user_lastName (user : value) : stmt :=
  lastName <- get user "lastName" ;;
  missing <- blank lastName ;;
  if missing then push "Last name is required"
  else
    len <- length_of lastName ;;
    long <- js_gt len (int 100) ;;
    if long then push "Last name must be 100 characters or less" else skip.

Definition user_dateOfBirth (user : value) : stmt :=
  dateOfBirth <- get user "dateOfBirth" ;;
  if negb (truthy dateOfBirth) then push "Date of birth is required"
  else
    ok <- isValidDate dateOfBirth ;;
    if negb ok then push "Date of birth must be in YYYY-MM-DD format" else skip.

Definition user_phoneNumber (user : value) : stmt :=
  phoneNumber <- get user "phoneNumber" ;;
  if negb (truthy phoneNumber) then push "Phone number is required"
  else
    ok <- isValidPhoneNumber phoneNumber ;;
    if negb ok then push "Invalid phone number format" else skip.

Definition address_street (address : value) : stmt :=
  street <- get address "street" ;;
  missing <- blank street ;;
  if missing then push "Street address is required" else skip.

Definition address_city (address : value) : stmt :=
  city <- get address "city" ;;
  missing <- blank city ;;
  if missing then push "City is required" else skip.

Definition address_state (address : value) : stmt :=
  state <- get address "state" ;;
  if negb (truthy state) then push "State is required"
  else
    ok <- isValidStateCode state ;;
    if negb ok then push "Invalid state code (must be 2-letter code like CA, NY)"
    else skip.

Definition address_zipCode (address : value) : stmt :=
  zipCode <- get address "zipCode" ;;
  if negb (truthy zipCode) then push "ZIP code is required"
  else
    ok <- isValidZipCode zipCode ;;
    if negb ok then push "Invalid ZIP code format" else skip.

(** [if (!user.address) ... else { street; city; state; zipCode }] *)
Definition user_address (user : value) : stmt :=
  address <- get user "address" ;;
  if negb (truthy address) then push "Address is required"
  else
    block [ address_street address; address_city address;
            address_state address; address_zipCode address ].

Definition validateUser (user : value) : result ValidationResult :=
  finish (block [ user_email user; user_firstName user; user_lastName user;
                  user_dateOfBirth user; user_phoneNumber user;
                  user_address user ]).

(** ** validators/insuranceValidator.js *)

(** [/^\d{6}$/] *)
Definition rxBINRegex : regex := Rep 6 digit.

Definition isValidRxBIN (rxBIN : value) : result bool :=
  test rxBINRegex rxBIN.

Definition isValidPlanType (planType : value) : bool :=
  Array_includes (Object_values InsurancePlanType) planType.

(** [isInsuranceActive], with the instant [new Date()] reads from the
    clock as the argument [now]. *)
Definition isInsuranceActive (now : Z) (insurance : value) : result bool :=
  e <- get insurance "effectiveDate" ;;
  effectiveDate <- new_Date e ;;
  if date_gt effectiveDate (Some now) then Ok false
  else
    t <- get insurance "terminationDate" ;;
    terminated <-
      (if truthy t
       then terminationDate <- new_Date t ;; Ok (date_lt terminationDate (Some now))
       else Ok false) ;;
    if terminated then Ok false
    else
      flag <- get insurance "isActive" ;;
      Ok (negb (is_false flag)).

Definition ins_userId (insurance : value) : stmt :=
  userId <- get insurance "userId" ;;
  if negb (truthy userId) then push "User ID is required" else skip.

Definition ins_insuranceCompany (insurance : value) : stmt :=
  insuranceCompany <- get insurance "insuranceCompany" ;;
  missing <- blank insuranceCompany ;;
  if missing then push "Insurance company name is required" else skip.

Definition ins_policyNumber (insurance : value) : stmt :=
  policyNumber <- get insurance "policyNumber" ;;
  missing <- blank policyNumber ;;
  if missing then push "Policy number is required" else skip.

Definition ins_planType (insurance : value) : stmt :=
  planType <- get insurance "planType" ;;
  if negb (truthy planType) then push "Plan type is required"
  else if negb (isValidPlanType planType) then
    list <- Array_join ", " (Object_values InsurancePlanType) ;;
    push ("Invalid plan type. Must be one of: " ++ list)
  else skip.

Definition ins_planName (insurance : value) : stmt :=
  planName <- get insurance "planName" ;;
  missing <- blank planName ;;
  if missing then push "Plan name is required" else skip.

Definition ins_rxBIN (insurance : value) : stmt :=
  rxBIN <- get insurance "rxBIN" ;;
  if negb (truthy rxBIN) then push "RxBIN is required"
  else
    ok <- isValidRxBIN rxBIN ;;
    if negb ok then push "RxBIN must be exactly 6 digits" else skip.

(** [if (insurance.f !== undefined) { if (typeof insurance.f !== 'number'
     || insurance.f < 0) errors.push(message) }], the shape of the four
    financial validations. *)
Definition ins_amount (insurance : value) (field message : string) : stmt :=
  amount <- get insurance field ;;
  if negb (is_undefined amount) then
    bad <- not_number_or_below amount 0 ;;
    if bad then push message else skip
  else skip.

Definition ins_effectiveDate (insurance : value) : stmt :=
  effectiveDate <- get insurance "effectiveDate" ;;
  if negb (truthy effectiveDate) then push "Effective date is required"
  else
    ok <- isValidDate effectiveDate ;;
    if negb ok then push "Effective date must be in YYYY-MM-DD format" else skip.

(** [if (insurance.terminationDate && !isValidDate(insurance.terminationDate))] *)
Definition ins_terminationDate (insurance : value) : stmt :=
  terminationDate <- get insurance "terminationDate" ;;
  if truthy terminationDate then
    ok <- isValidDate terminationDate ;;
    if negb ok then push "Termination date must be in YYYY-MM-DD format" else skip
  else skip.

Definition ins_dateOrder (insurance : value) : stmt :=
  effectiveDate <- get insurance "effectiveDate" ;;
  terminationDate <- get insurance "terminationDate" ;;
  if truthy effectiveDate && truthy terminationDate then
    effective <- new_Date effectiveDate ;;
    termination <- new_Date terminationDate ;;
    if date_le termination effective
    then push "Termination date must be after effective date"
    else skip
  else skip.

(** [if (insurance.deductibleMet > insurance.deductible)] *)
Definition ins_deductibleCeiling (insurance : value) : stmt :=
  deductibleMet <- get insurance "deductibleMet" ;;
  deductible <- get insurance "deductible" ;;
  over <- js_gt deductibleMet deductible ;;
  if over then push "Deductible met cannot exceed total deductible" else skip.

Definition ins_outOfPocketCeiling (insurance : value) : stmt :=
  outOfPocketMet <- get insurance "outOfPocketMet" ;;
  outOfPocketMax <- get insurance "outOfPocketMax" ;;
  over <- js_gt outOfPocketMet outOfPocketMax ;;
  if over then push "Out of pocket met cannot exceed out of pocket max" else skip.

Definition validateInsurance (insurance : value) : result ValidationResult :=
  finish (block
    [ ins_userId insurance;
      ins_insuranceCompany insurance;
      ins_policyNumber insurance;
      ins_planType insurance;
      ins_planName insurance;
      ins_rxBIN insurance;
      ins_amount insurance "deductible"
        "Deductible must be a non-negative number (in cents)";
      ins_amount insurance "deductibleMet"
        "Deductible met must be a non-negative number (in cents)";
      ins_amount insurance "outOfPocketMax"
        "Out of pocket max must be a non-negative number (in cents)";
      ins_amount insurance "outOfPocketMet"
        "Out of pocket met must be a non-negative number (in cents)";
      ins_effectiveDate insurance;
      ins_terminationDate insurance;
      ins_dateOrder insurance;
      ins_deductibleCeiling insurance;
      ins_outOfPocketCeiling insurance ]).

(** ** validators/prescriptionValidator.js *)

(** [/^\d{5}-\d{4}-\d{2}$/] *)
Definition ndcRegex : regex :=
  Seq (Rep 5 digit) (Seq (Chr "-") (Seq (Rep 4 digit) (Seq (Chr "-") (Rep 2 digit)))).

Definition isValidNDC (ndc : value) : result bool := test ndcRegex ndc.

(** [/^\d{10}$/] *)
Definition npiRegex : regex := Rep 10 digit.

Definition isValidNPI (npi : value) : result bool := test npiRegex npi.

Definition isValidPrescriptionStatus (status : value) : bool :=
  Array_includes (Object_values PrescriptionStatus) status.

Definition isValidMedicationForm (form : value) : bool :=
  Array_includes (Object_values MedicationForm) form.

Definition rx_userId (prescription : value) : stmt :=
  userId <- get prescription "userId" ;;
  if negb (truthy userId) then push "User ID is required" else skip.

Definition rx_medicationName (prescription : value) : stmt :=
  medicationName <- get prescription "medicationName" ;;
  missing <- blank medicationName ;;
  if missing then push "Medication name is required" else skip.

Definition rx_medicationForm (prescription : value) : stmt :=
  medicationForm <- get prescription "medicationForm" ;;
  if negb (truthy medicationForm) then push "Medication form is required"
  else if negb (isValidMedicationForm medicationForm) then
    list <- Array_join ", " (Object_values MedicationForm) ;;
    push ("Invalid medication form. Must be one of: " ++ list)
  else skip.

(** The message [Medication strength is required (e.g., "500mg",
    "10mg/ml")], whose double quotes are written by their character code. *)
Definition strengthRequired : string :=
  let q := String (ascii_of_nat 34) "" in
  "Medication strength is required (e.g., " ++ q ++ "500mg" ++ q ++ ", "
    ++ q ++ "10mg/ml" ++ q ++ ")".

Definition rx_strength (prescription : value) : stmt :=
  strength <- get prescription "strength" ;;
  missing <- blank strength ;;
  if missing then push strengthRequired else skip.

(** [if (prescription.ndc && !isValidNDC(prescription.ndc))] *)
Definition rx_ndc (prescription : value) : stmt :=
  ndc <- get prescription "ndc" ;;
  if truthy ndc then
    ok <- isValidNDC ndc ;;
    if negb ok then push "NDC must be in format: 12345-1234-12" else skip
  else skip.

Definition rx_dosageInstructions (prescription : value) : stmt :=
  dosageInstructions <- get prescription "dosageInstructions" ;;
  missing <- blank dosageInstructions ;;
  if missing then push "Dosage instructions are required" else skip.

(** [if (prescription.f === undefined || prescription.f === null) required
     else if (typeof prescription.f !== 'number' || prescription.f < floor)
     range], the shape of the quantity, days supply and refills allowed
    checks. *)
Definition rx_count (prescription : value) (field : string) (floor : Z)
    (required range : string) : stmt :=
  count <- get prescription field ;;
  if is_undefined count || is_null count then push required
  else
    bad <- not_number_or_below count floor ;;
    if bad then push range else skip.

(** [if (prescription.refillsRemaining !== undefined) { range check;
     ceiling check }] *)
Definition rx_refillsRemaining (prescription : value) : stmt :=
  refillsRemaining <- get prescription "refillsRemaining" ;;
  if negb (is_undefined refillsRemaining) then
    block
      [ (bad <- not_number_or_below refillsRemaining 0 ;;
         if bad then push "Refills remaining must be a non-negative number" else skip);
        (refillsAllowed <- get prescription "refillsAllowed" ;;
         over <- js_gt refillsRemaining refillsAllowed ;;
         if over then push "Refills remaining cannot exceed refills allowed" else skip) ]
  else skip.

Definition rx_prescriberName (prescription : value) : stmt :=
  prescriberName <- get prescription "prescriberName" ;;
  missing <- blank prescriberName ;;
  if missing then push "Prescriber name is required" else skip.

Definition rx_prescriberNPI (prescription : value) : stmt :=
  prescriberNPI <- get prescription "prescriberNPI" ;;
  if negb (truthy prescriberNPI) then push "Prescriber NPI is required"
  else
    ok <- isValidNPI prescriberNPI ;;
    if negb ok then push "Prescriber NPI must be exactly 10 digits" else skip.

Definition rx_prescribedDate (prescription : value) : stmt :=
  prescribedDate <- get prescription "prescribedDate" ;;
  if negb (truthy prescribedDate) then push "Prescribed date is required"
  else
    ok <- isValidDate prescribedDate ;;
    if negb ok then push "Prescribed date must be in YYYY-MM-DD format" else skip.

Definition rx_status (prescription : value) : stmt :=
  status <- get prescription "status" ;;
  if truthy status && negb (isValidPrescriptionStatus status) then
    list <- Array_join ", " (Object_values PrescriptionStatus) ;;
    push ("Invalid prescription status. Must be one of: " ++ list)
  else skip.

Definition rx_pharmacyNPI (prescription : value) : stmt :=
  pharmacyNPI <- get prescription "pharmacyNPI" ;;
  if truthy pharmacyNPI then
    ok <- isValidNPI pharmacyNPI ;;
    if negb ok then push "Pharmacy NPI must be exactly 10 digits" else skip
  else skip.

Definition validatePrescription (prescription : value) : result ValidationResult :=
  finish (block
    [ rx_userId prescription;
      rx_medicationName prescription;
      rx_medicationForm prescription;
      rx_strength prescription;
      rx_ndc prescription;
      rx_dosageInstructions prescription;
      rx_count prescription "quantity" 1
        "Quantity is required" "Quantity must be a positive number";
      rx_count prescription "daysSupply" 1
        "Days supply is required" "Days supply must be a positive number";
      rx_count prescription "refillsAllowed" 0
        "Refills allowed is required" "Refills allowed must be a non-negative number";
      rx_refillsRemaining prescription;
      rx_prescriberName prescription;
      rx_prescriberNPI prescription;
      rx_prescribedDate prescription;
      rx_status prescription;
      rx_pharmacyNPI prescription ]).

End Runtime.

(** * Shapes of input records

    A validator calls [trim] and [toUpperCase] on what it reads, converts
    what it reads to a string or a primitive, and reads the properties of
    [user.address].  The shapes below say, field by field, which inputs
    that leaves without an exception. *)

(** No property can be read from [undefined] or [null]. *)
Definition has_properties (o : value) : bool :=
  negb (is_undefined o || is_null o).

(** The value a validator reads for [o.k] ([undefined] where there is
    nothing to read). *)
Definition field (o : value) (k : string) : value :=
  match get o k with
  | Ok v => v
  | Throw _ => VUndefined
  end.

(** A string, or a falsy value, which the validators treat as missing. *)
Definition textual (v : value) : bool :=
  negb (truthy v) || match v with VStr _ => true | _ => false end.

(** A value with a string conversion: every primitive, and every array or
    object that hides no [toString]. *)
Definition coercible (v : value) : bool := returns (ToString v).

Definition user_shape (user : value) : bool :=
  has_properties user
  && coercible (field user "email")
  && textual (field user "firstName")
  && textual (field user "lastName")
  && coercible (field user "dateOfBirth")
  && coercible (field user "phoneNumber")
  && textual (field (field user "address") "street")
  && textual (field (field user "address") "city")
  && textual (field (field user "address") "state")
  && coercible (field (field user "address") "zipCode").

Definition insurance_shape (insurance : value) : bool :=
  has_properties insurance
  && textual (field insurance "insuranceCompany")
  && textual (field insurance "policyNumber")
  && textual (field insurance "planName")
  && coercible (field insurance "rxBIN")
  && coercible (field insurance "deductible")
  && coercible (field insurance "deductibleMet")
  && coercible (field insurance "outOfPocketMax")
  && coercible (field insurance "outOfPocketMet")
  && coercible (field insurance "effectiveDate")
  && coercible (field insurance "terminationDate").

Definition prescription_shape (prescription : value) : bool :=
  has_properties prescription
  && textual (field prescription "medicationName")
  && textual (field prescription "strength")
  && coercible (field prescription "ndc")
  && textual (field prescription "dosageInstructions")
  && coercible (field prescription "refillsAllowed")
  && coercible (field prescription "refillsRemaining")
  && textual (field prescription "prescriberName")
  && coercible (field prescription "prescriberNPI")
  && coercible (field prescription "prescribedDate")
  && coercible (field prescription "pharmacyNPI").

(** A statement returns and pushes nothing but messages of [msgs]. *)
Definition emits (s : stmt) (msgs : list string) : Prop :=
  exists l, s = Ok l /\ incl l msgs.

(** ** The three validators, by record type *)

Inductive entity : Type := User | Insurance | Prescription.

Definition validate (legacyParse : string -> time_value) (e : entity)
  : value -> result ValidationResult :=
  match e with
  | User => validateUser legacyParse
  | Insurance => validateInsurance legacyParse
  | Prescription => validatePrescription legacyParse
  end.

Definition shape (e : entity) : value -> bool :=
  match e with
  | User => user_shape
  | Insurance => insurance_shape
  | Prescription => prescription_shape
  end.

(** An engine whose [Date.parse] accepts nothing beyond the date-time
    format of the language; the concrete records below carry date-only
    strings or none, for which every engine modelled here agrees. *)
Definition noLegacyFormats : string -> time_value := fun _ => None.

(** The record of scenario 1. *)
Definition scenario1 : value :=
  VObj [ ("email", VStr "a@b.com"); ("firstName", VStr "Jo");
         ("lastName", VStr "Lee"); ("dateOfBirth", VStr "1990-05-01");
         ("phoneNumber", VStr "12025551234");
         ("address",
          VObj [ ("street", VStr "1 Main St"); ("city", VStr "Springfield");
                 ("state", VStr "IL"); ("zipCode", VStr "62701") ]) ].

(** ** Vocabularies *)

(** The declared codes of the three vocabularies the validators consult. *)
Definition planTypes : list string := [ "HMO"; "PPO"; "EPO"; "POS"; "HDHP" ].

Definition medicationForms : list string :=
  [ "TABLET"; "CAPSULE"; "LIQUID"; "INJECTION"; "CREAM"; "INHALER"; "PATCH";
    "OTHER" ].

Definition prescriptionStatuses : list string :=
  [ "PENDING"; "SUBMITTED"; "APPROVED"; "DENIED"; "PRIOR_AUTH_REQUIRED";
    "FILLED"; "PICKED_UP"; "CANCELLED" ].

(** ** Cross-field checks *)

(** The checks of a met or remaining amount against its ceiling. *)
Inductive ceiling_check : Type :=
| DeductibleCeiling
| OutOfPocketCeiling
| RefillsCeiling.

Definition ceiling_entity (c : ceiling_check) : entity :=
  match c with
  | DeductibleCeiling | OutOfPocketCeiling => Insurance
  | RefillsCeiling => Prescription
  end.

Definition ceiling_field (c : ceiling_check) : string :=
  match c with
  | DeductibleCeiling => "deductible"
  | OutOfPocketCeiling => "outOfPocketMax"
  | RefillsCeiling => "refillsAllowed"
  end.

Definition amount_field (c : ceiling_check) : string :=
  match c with
  | DeductibleCeiling => "deductibleMet"
  | OutOfPocketCeiling => "outOfPocketMet"
  | RefillsCeiling => "refillsRemaining"
  end.

Definition ceiling_message (c : ceiling_check) : string :=
  match c with
  | DeductibleCeiling => "Deductible met cannot exceed total deductible"
  | OutOfPocketCeiling => "Out of pocket met cannot exceed out of pocket max"
  | RefillsCeiling => "Refills remaining cannot exceed refills allowed"
  end.

(** The cross-field checks: the order of the two dates, and the three
    ceilings. *)
Inductive cross_check : Type :=
| DateOrder
| Ceiling (c : ceiling_check).

Definition cross_entity (c : cross_check) : entity :=
  match c with
  | DateOrder => Insurance
  | Ceiling c => ceiling_entity c
  end.

Definition cross_message (c : cross_check) : string :=
  match c with
  | DateOrder => "Termination date must be after effective date"
  | Ceiling c => ceiling_message c
  end.

(** The comparison of a cross-field check, as the validator evaluates it
    on the record: [met > max] for a ceiling; for the dates, both present
    and [new Date(terminationDate) <= new Date(effectiveDate)]. *)
Definition violated (legacyParse : string -> time_value) (c : cross_check)
    (o : value) : bool :=
  match c with
  | Ceiling c =>
      match js_gt (field o (amount_field c)) (field o (ceiling_field c)) with
      | Ok over => over
      | Throw _ => false
      end
  | DateOrder =>
      truthy (field o "effectiveDate") && truthy (field o "terminationDate")
      && match new_Date legacyParse (field o "effectiveDate"),
               new_Date legacyParse (field o "terminationDate") with
         | Ok effective, Ok termination => date_le termination effective
         | _, _ => false
         end
  end.

(** The per-field messages of [validateInsurance]; its three cross-field
    checks are its last three statements. *)
Definition insurance_field_messages : list string :=
  [ "User ID is required"; "Insurance company name is required";
    "Policy number is required"; "Plan type is required";
    "Invalid plan type. Must be one of: HMO, PPO, EPO, POS, HDHP";
    "Plan name is required"; "RxBIN is required";
    "RxBIN must be exactly 6 digits";
    "Deductible must be a non-negative number (in cents)";
    "Deductible met must be a non-negative number (in cents)";
    "Out of pocket max must be a non-negative number (in cents)";
    "Out of pocket met must be a non-negative number (in cents)";
    "Effective date is required"; "Effective date must be in YYYY-MM-DD format";
    "Termination date must be in YYYY-MM-DD format" ].

(** The messages a validator can push before and after the message of a
    cross-field check, in source order.  In [validateInsurance] the three
    cross-field checks are the last three statements: every per-field
    message comes before them.  In [validatePrescription] the refills
    ceiling is checked right after the range of [refillsRemaining], inside
    the same [if]: the checks of the fields up to there stand before it,
    those of the prescriber, the prescribed date, the status and the
    pharmacy after it. *)
Definition pushed_before (c : cross_check) : list string :=
  match c with
  | DateOrder => insurance_field_messages
  | Ceiling DeductibleCeiling =>
      insurance_field_messages ++ [ cross_message DateOrder ]
  | Ceiling OutOfPocketCeiling =>
      insurance_field_messages
      ++ [ cross_message DateOrder; ceiling_message DeductibleCeiling ]
  | Ceiling RefillsCeiling =>
      [ "User ID is required"; "Medication name is required";
        "Medication form is required";
        "Invalid medication form. Must be one of: TABLET, CAPSULE, LIQUID, INJECTION, CREAM, INHALER, PATCH, OTHER";
        strengthRequired; "NDC must be in format: 12345-1234-12";
        "Dosage instructions are required";
        "Quantity is required"; "Quantity must be a positive number";
        "Days supply is required"; "Days supply must be a positive number";
        "Refills allowed is required";
        "Refills allowed must be a non-negative number";
        "Refills remaining must be a non-negative number" ]
  end.

Definition pushed_after (c : cross_check) : list string :=
  match c with
  | DateOrder =>
      [ ceiling_message DeductibleCeiling; ceiling_message OutOfPocketCeiling ]
  | Ceiling DeductibleCeiling => [ ceiling_message OutOfPocketCeiling ]
  | Ceiling OutOfPocketCeiling => []
  | Ceiling RefillsCeiling =>
      [ "Prescriber name is required";
        "Prescriber NPI is required"; "Prescriber NPI must be exactly 10 digits";
        "Prescribed date is required";
        "Prescribed date must be in YYYY-MM-DD format";
        "Invalid prescription status. Must be one of: PENDING, SUBMITTED, APPROVED, DENIED, PRIOR_AUTH_REQUIRED, FILLED, PICKED_UP, CANCELLED";
        "Pharmacy NPI must be exactly 10 digits" ]
  end.

(** ** Required fields *)

Inductive required_field : Type :=
| UserEmail | UserFirstName | UserLastName | UserDateOfBirth
| UserPhoneNumber | UserAddress
| AddressStreet | AddressCity | AddressState | AddressZipCode
| InsUserId | InsCompany | InsPolicyNumber | InsPlanType | InsPlanName
| InsRxBIN | InsEffectiveDate
| RxUserId | RxMedicationName | RxMedicationForm | RxStrength
| RxDosageInstructions | RxQuantity | RxDaysSupply | RxRefillsAllowed
| RxPrescriberName | RxPrescriberNPI | RxPrescribedDate.

Definition field_entity (f : required_field) : entity :=
  match f with
  | UserEmail | UserFirstName | UserLastName | UserDateOfBirth
  | UserPhoneNumber | UserAddress
  | AddressStreet | AddressCity | AddressState | AddressZipCode => User
  | InsUserId | InsCompany | InsPolicyNumber | InsPlanType | InsPlanName
  | InsRxBIN | InsEffectiveDate => Insurance
  | _ => Prescription
  end.

(** Absent, or the empty string. *)
Definition absent_or_empty (v : value) : bool :=
  match v with
  | VUndefined | VNull => true
  | VStr s => String.eqb s ""
  | _ => false
  end.

(** Absent, or a string that is empty after trimming. *)
Definition absent_or_blank (v : value) : bool :=
  match v with
  | VUndefined | VNull => true
  | VStr s => String.eqb (trim s) ""
  | _ => false
  end.

Definition absent (v : value) : bool := is_undefined v || is_null v.

(** When a required field counts as missing: the free-text fields, which
    the validators trim, when absent or blank; the counts when absent; the
    other fields when absent or empty.  The parts of the address are only
    looked at when there is an address. *)
Definition missing (f : required_field) (o : value) : bool :=
  match f with
  | UserEmail => absent_or_empty (field o "email")
  | UserFirstName => absent_or_blank (field o "firstName")
  | UserLastName => absent_or_blank (field o "lastName")
  | UserDateOfBirth => absent_or_empty (field o "dateOfBirth")
  | UserPhoneNumber => absent_or_empty (field o "phoneNumber")
  | UserAddress => absent_or_empty (field o "address")
  | AddressStreet =>
      truthy (field o "address") && absent_or_blank (field (field o "address") "street")
  | AddressCity =>
      truthy (field o "address") && absent_or_blank (field (field o "address") "city")
  | AddressState =>
      truthy (field o "address") && absent_or_empty (field (field o "address") "state")
  | AddressZipCode =>
      truthy (field o "address") && absent_or_empty (field (field o "address") "zipCode")
  | InsUserId => absent_or_empty (field o "userId")
  | InsCompany => absent_or_blank (field o "insuranceCompany")
  | InsPolicyNumber => absent_or_blank (field o "policyNumber")
  | InsPlanType => absent_or_empty (field o "planType")
  | InsPlanName => absent_or_blank (field o "planName")
  | InsRxBIN => absent_or_empty (field o "rxBIN")
  | InsEffectiveDate => absent_or_empty (field o "effectiveDate")
  | RxUserId => absent_or_empty (field o "userId")
  | RxMedicationName => absent_or_blank (field o "medicationName")
  | RxMedicationForm => absent_or_empty (field o "medicationForm")
  | RxStrength => absent_or_blank (field o "strength")
  | RxDosageInstructions => absent_or_blank (field o "dosageInstructions")
  | RxQuantity => absent (field o "quantity")
  | RxDaysSupply => absent (field o "daysSupply")
  | RxRefillsAllowed => absent (field o "refillsAllowed")
  | RxPrescriberName => absent_or_blank (field o "prescriberName")
  | RxPrescriberNPI => absent_or_empty (field o "prescriberNPI")
  | RxPrescribedDate => absent_or_empty (field o "prescribedDate")
  end.

Definition presence_message (f : required_field) : string :=
  match f with
  | UserEmail => "Email is required"
  | UserFirstName => "First name is required"
  | UserLastName => "Last name is required"
  | UserDateOfBirth => "Date of birth is required"
  | UserPhoneNumber => "Phone number is required"
  | UserAddress => "Address is required"
  | AddressStreet => "Street address is required"
  | AddressCity => "City is required"
  | AddressState => "State is required"
  | AddressZipCode => "ZIP code is required"
  | InsUserId => "User ID is required"
  | InsCompany => "Insurance company name is required"
  | InsPolicyNumber => "Policy number is required"
  | InsPlanType => "Plan type is required"
  | InsPlanName => "Plan name is required"
  | InsRxBIN => "RxBIN is required"
  | InsEffectiveDate => "Effective date is required"
  | RxUserId => "User ID is required"
  | RxMedicationName => "Medication name is required"
  | RxMedicationForm => "Medication form is required"
  | RxStrength => strengthRequired
  | RxDosageInstructions => "Dosage instructions are required"
  | RxQuantity => "Quantity is required"
  | RxDaysSupply => "Days supply is required"
  | RxRefillsAllowed => "Refills allowed is required"
  | RxPrescriberName => "Prescriber name is required"
  | RxPrescriberNPI => "Prescriber NPI is required"
  | RxPrescribedDate => "Prescribed date is required"
  end.

(** The format and range messages about the same field. *)
Definition format_messages (f : required_field) : list string :=
  match f with
  | UserEmail => [ "Invalid email format" ]
  | UserFirstName => [ "First name must be 100 characters or less" ]
  | UserLastName => [ "Last name must be 100 characters or less" ]
  | UserDateOfBirth => [ "Date of birth must be in YYYY-MM-DD format" ]
  | UserPhoneNumber => [ "Invalid phone number format" ]
  | UserAddress =>
      [ "Street address is required"; "City is required"; "State is required";
        "Invalid state code (must be 2-letter code like CA, NY)";
        "ZIP code is required"; "Invalid ZIP code format" ]
  | AddressState => [ "Invalid state code (must be 2-letter code like CA, NY)" ]
  | AddressZipCode => [ "Invalid ZIP code format" ]
  | InsPlanType => [ "Invalid plan type. Must be one of: HMO, PPO, EPO, POS, HDHP" ]
  | InsRxBIN => [ "RxBIN must be exactly 6 digits" ]
  | InsEffectiveDate => [ "Effective date must be in YYYY-MM-DD format" ]
  | RxMedicationForm =>
      [ "Invalid medication form. Must be one of: TABLET, CAPSULE, LIQUID, INJECTION, CREAM, INHALER, PATCH, OTHER" ]
  | RxQuantity => [ "Quantity must be a positive number" ]
  | RxDaysSupply => [ "Days supply must be a positive number" ]
  | RxRefillsAllowed => [ "Refills allowed must be a non-negative number" ]
  | RxPrescriberNPI => [ "Prescriber NPI must be exactly 10 digits" ]
  | RxPrescribedDate => [ "Prescribed date must be in YYYY-MM-DD format" ]
  | _ => []
  end.

(** ** Days and state codes *)

(** Day(t) of the language definition: the day number of an instant, in
    UTC. *)
Definition utcDay (t : Z) : Z := t / msPerDay.

(** 2024-06-15T12:00:00.000Z. *)
Definition noon_2024_06_15 : Z := 1718452800000.

(** The state and territory codes of [isValidStateCode]. *)
Definition stateCodes : list string :=
  [ "AL"; "AK"; "AZ"; "AR"; "CA"; "CO"; "CT"; "DE"; "FL"; "GA";
    "HI"; "ID"; "IL"; "IN"; "IA"; "KS"; "KY"; "LA"; "ME"; "MD";
    "MA"; "MI"; "MN"; "MS"; "MO"; "MT"; "NE"; "NV"; "NH"; "NJ";
    "NM"; "NY"; "NC"; "ND"; "OH"; "OK"; "OR"; "PA"; "RI"; "SC";
    "SD"; "TN"; "TX"; "UT"; "VT"; "VA"; "WA"; "WV"; "WI"; "WY";
    "DC"; "PR"; "VI"; "GU"; "AS"; "MP" ].

Definition is_upper (c : ascii) : bool :=
  let n := N_of_ascii c in ((65 <=? n) && (n <=? 90))%N.

(** [a] is the upper-case letter [c] or its lower-case form. *)
Definition same_letter (a c : ascii) : bool :=
  is_upper c
  && (Ascii.eqb a c || Ascii.eqb a (ascii_of_N (N_of_ascii c + 32))).

(** [s] spells the code [code], letter by letter, in any letter case. *)
Fixpoint spells (s code : string) : bool :=
  match s, code with
  | EmptyString, EmptyString => true
  | String a s', String c code' => same_letter a c && spells s' code'
  | _, _ => false
  end.

(** * Well-formed records

    The records of the data model, with their fields typed, and the
    constraints the specification documents for them, each in the words of
    the specification.  [to_value] gives the object a caller hands to the
    validator: an optional field that is [None] is left out. *)

Definition all_digits (n : nat) (w : list ascii) : Prop :=
  List.length w = n /\ forallb is_digit w = true.

(** A non-empty run of characters that are neither white space nor [@]. *)
Definition is_run (w : list ascii) : Prop :=
  w <> [] /\ forallb (fun c => negb (is_space c || Ascii.eqb c "@")) w = true.

(** Email: a run, [@], a run, [.], a run. *)
Definition email_format (s : string) : Prop :=
  exists a b c,
    chars s = (a ++ "@"%char :: b ++ "."%char :: c)%list /\
    is_run a /\ is_run b /\ is_run c.

(** Phone: an optional [+], an optional [1], then 10 to 14 digits. *)
Definition phone_format (s : string) : Prop :=
  exists plus one ds,
    chars s = (plus ++ one ++ ds)%list /\
    (plus = [] \/ plus = ["+"%char]) /\
    (one = [] \/ one = ["1"%char]) /\
    (10 <= List.length ds <= 14)%nat /\ forallb is_digit ds = true.

(** ZIP: [12345] or [12345-6789]. *)
Definition zip_format (s : string) : Prop :=
  all_digits 5 (chars s) \/
  exists a b, chars s = (a ++ "-"%char :: b)%list /\ all_digits 5 a /\ all_digits 4 b.

(** NDC: [NNNNN-NNNN-NN]. *)
Definition ndc_format (s : string) : Prop :=
  exists a b c,
    chars s = (a ++ "-"%char :: b ++ "-"%char :: c)%list /\
    all_digits 5 a /\ all_digits 4 b /\ all_digits 2 c.

(** Exactly [n] digits: 6 for an RxBIN, 10 for an NPI. *)
Definition digits_format (n : nat) (s : string) : Prop := all_digits n (chars s).

(** Date: [YYYY-MM-DD], digit-grouped, and a real calendar date. *)
Definition calendar_date (s : string) : Prop :=
  exists y m d,
    date_fields s = Some (y, m, d) /\
    1 <= m <= 12 /\ 1 <= d <= DaysInMonth y m.

(** The first calendar date is earlier than the second. *)
Definition date_before (s1 s2 : string) : Prop :=
  exists y1 m1 d1 y2 m2 d2,
    date_fields s1 = Some (y1, m1, d1) /\
    date_fields s2 = Some (y2, m2, d2) /\
    (y1 < y2 \/ (y1 = y2 /\ (m1 < m2 \/ (m1 = m2 /\ d1 < d2)))).

(** Not empty after trimming. *)
Definition nonblank (s : string) : Prop := trim s <> "".

(** A whole number in the range in which every whole number is a double
    ([Number.isSafeInteger]); as a value it is [int z]. *)
Definition safe_integer (z : Z) : Prop := - (2 ^ 53) < z < 2 ^ 53.

(** What a cross-field check forbids, said of the record and not of the
    comparison the validator makes: two whole amounts with the met or
    remaining amount above its ceiling; two calendar dates with the
    termination date not after the effective date. *)
Definition breached (c : cross_check) (o : value) : Prop :=
  match c with
  | Ceiling c =>
      exists met max : Z,
        field o (amount_field c) = int met /\
        field o (ceiling_field c) = int max /\
        safe_integer met /\ safe_integer max /\
        max < met
  | DateOrder =>
      exists effective termination : string,
        field o "effectiveDate" = VStr effective /\
        field o "terminationDate" = VStr termination /\
        calendar_date effective /\ calendar_date termination /\
        ~ date_before effective termination
  end.

(** A state or territory code, in any letter case. *)
Definition state_code (s : string) : Prop :=
  exists code, In code stateCodes /\ spells s code = true.

Definition when {A : Type} (x : option A) (P : A -> Prop) : Prop :=
  match x with Some a => P a | None => True end.

Definition when2 {A B : Type} (x : option A) (y : option B) (P : A -> B -> Prop)
  : Prop :=
  match x, y with Some a, Some b => P a b | _, _ => True end.

(** An optional property of an object: left out when there is no value. *)
Definition optional {A : Type} (k : string) (f : A -> value) (x : option A)
  : list (string * value) :=
  match x with Some a => [(k, f a)] | None => [] end.

(** What a read of an optional property gives. *)
Definition optional_value {A : Type} (f : A -> value) (x : option A) : value :=
  match x with Some a => f a | None => VUndefined end.

Module UserRecord.

Record Address : Type := {
  street : string;
  city : string;
  state : string;
  zipCode : string
}.

Record t : Type := {
  email : string;
  firstName : string;
  lastName : string;
  dateOfBirth : string;
  phoneNumber : string;
  address : Address
}.

Definition well_formed (u : t) : Prop :=
  email_format (email u) /\
  nonblank (firstName u) /\ (String.length (firstName u) <= 100)%nat /\
  nonblank (lastName u) /\ (String.length (lastName u) <= 100)%nat /\
  calendar_date (dateOfBirth u) /\
  phone_format (phoneNumber u) /\
  nonblank (street (address u)) /\
  nonblank (city (address u)) /\
  state_code (state (address u)) /\
  zip_format (zipCode (address u)).

Definition address_value (a : Address) : value :=
  VObj [ ("street", VStr (street a)); ("city", VStr (city a));
         ("state", VStr (state a)); ("zipCode", VStr (zipCode a)) ].

Definition to_value (u : t) : value :=
  VObj [ ("email", VStr (email u));
         ("firstName", VStr (firstName u));
         ("lastName", VStr (lastName u));
         ("dateOfBirth", VStr (dateOfBirth u));
         ("phoneNumber", VStr (phoneNumber u));
         ("address", address_value (address u)) ].

End UserRecord.

Module InsuranceRecord.

(** Amounts are whole numbers of minor currency units. *)
Record t : Type := {
  userId : string;
  insuranceCompany : string;
  policyNumber : string;
  planType : string;
  planName : string;
  rxBIN : string;
  deductible : option Z;
  deductibleMet : option Z;
  outOfPocketMax : option Z;
  outOfPocketMet : option Z;
  effectiveDate : string;
  terminationDate : option string;
  isActive : option bool
}.

Definition well_formed (i : t) : Prop :=
  userId i <> "" /\
  nonblank (insuranceCompany i) /\
  nonblank (policyNumber i) /\
  In (planType i) planTypes /\
  nonblank (planName i) /\
  digits_format 6 (rxBIN i) /\
  when (deductible i) (fun a => 0 <= a) /\
  when (deductibleMet i) (fun a => 0 <= a) /\
  when (outOfPocketMax i) (fun a => 0 <= a) /\
  when (outOfPocketMet i) (fun a => 0 <= a) /\
  calendar_date (effectiveDate i) /\
  when (terminationDate i) calendar_date /\
  when (terminationDate i) (date_before (effectiveDate i)) /\
  when2 (deductibleMet i) (deductible i) (fun met max => met <= max) /\
  when2 (outOfPocketMet i) (outOfPocketMax i) (fun met max => met <= max).

Definition to_value (i : t) : value :=
  VObj ([ ("userId", VStr (userId i));
          ("insuranceCompany", VStr (insuranceCompany i));
          ("policyNumber", VStr (policyNumber i));
          ("planType", VStr (planType i));
          ("planName", VStr (planName i));
          ("rxBIN", VStr (rxBIN i)) ]
        ++ optional "deductible" int (deductible i)
        ++ optional "deductibleMet" int (deductibleMet i)
        ++ optional "outOfPocketMax" int (outOfPocketMax i)
        ++ optional "outOfPocketMet" int (outOfPocketMet i)
        ++ [ ("effectiveDate", VStr (effectiveDate i)) ]
        ++ optional "terminationDate" VStr (terminationDate i)
        ++ optional "isActive" VBool (isActive i))%list.

End InsuranceRecord.

Module PrescriptionRecord.

(** Quantities, days and refills are whole numbers. *)
Record t : Type := {
  userId : string;
  insuranceId : option string;
  medicationName : string;
  medicationForm : string;
  strength : string;
  ndc : option string;
  dosageInstructions : string;
  quantity : Z;
  daysSupply : Z;
  refillsAllowed : Z;
  refillsRemaining : option Z;
  prescriberName : string;
  prescriberNPI : string;
  prescribedDate : string;
  status : option string;
  pharmacyNPI : option string
}.

Definition well_formed (p : t) : Prop :=
  userId p <> "" /\
  nonblank (medicationName p) /\
  In (medicationForm p) medicationForms /\
  nonblank (strength p) /\
  when (ndc p) ndc_format /\
  nonblank (dosageInstructions p) /\
  1 <= quantity p /\
  1 <= daysSupply p /\
  0 <= refillsAllowed p /\
  when (refillsRemaining p) (fun r => 0 <= r <= refillsAllowed p) /\
  nonblank (prescriberName p) /\
  digits_format 10 (prescriberNPI p) /\
  calendar_date (prescribedDate p) /\
  when (status p) (fun s => In s prescriptionStatuses) /\
  when (pharmacyNPI p) (digits_format 10).

Definition to_value (p : t) : value :=
  VObj ([ ("userId", VStr (userId p)) ]
        ++ optional "insuranceId" VStr (insuranceId p)
        ++ [ ("medicationName", VStr (medicationName p));
             ("medicationForm", VStr (medicationForm p));
             ("strength", VStr (strength p)) ]
        ++ optional "ndc" VStr (ndc p)
        ++ [ ("dosageInstructions", VStr (dosageInstructions p));
             ("quantity", int (quantity p));
             ("daysSupply", int (daysSupply p));
             ("refillsAllowed", int (refillsAllowed p)) ]
        ++ optional "refillsRemaining" int (refillsRemaining p)
        ++ [ ("prescriberName", VStr (prescriberName p));
             ("prescriberNPI", VStr (prescriberNPI p));
             ("prescribedDate", VStr (prescribedDate p)) ]
        ++ optional "status" VStr (status p)
        ++ optional "pharmacyNPI" VStr (pharmacyNPI p))%list.

End PrescriptionRecord.

(** A record of one of the three types. *)
Inductive record : Type :=
| AUser (u : UserRecord.t)
| AnInsurance (i : InsuranceRecord.t)
| APrescription (p : PrescriptionRecord.t).

Definition record_entity (r : record) : entity :=
  match r with
  | AUser _ => User
  | AnInsurance _ => Insurance
  | APrescription _ => Prescription
  end.

Definition record_value (r : record) : value :=
  match r with
  | AUser u => UserRecord.to_value u
  | AnInsurance i => InsuranceRecord.to_value i
  | APrescription p => PrescriptionRecord.to_value p
  end.

Definition well_formed (r : record) : Prop :=
  match r with
  | AUser u => UserRecord.well_formed u
  | AnInsurance i => InsuranceRecord.well_formed i
  | APrescription p => PrescriptionRecord.well_formed p
  end.

(** * Statements, messages and outcomes

    What the proofs below say about the validators is said statement by
    statement. *)

(** Not an object or an array. *)
Definition is_primitive (v : value) : bool :=
  match v with VArr _ | VObj _ => false | _ => true end.

(** A statement returns, having pushed the messages [l]. *)
Definition runs_to (s : stmt) (l : list string) : Prop := s = Ok l.

(** Every statement of a validator is an instance of one of a few shapes.
    Each shape is written once, with the field and the messages as
    arguments; the statements of the validators are these shapes by
    unfolding. *)

(** [if (!o.k) push(req)] *)
Definition presence_only (o : value) (k req : string) : stmt :=
  v <- get o k ;;
  if negb (truthy v) then push req else skip.

(** [if (!o.k) push(req) else if (!check(o.k)) push(bad)] *)
Definition required_check (o : value) (k : string)
    (check : value -> result bool) (req bad : string) : stmt :=
  v <- get o k ;;
  if negb (truthy v) then push req
  else ok <- check v ;; if negb ok then push bad else skip.

(** [if (o.k && !check(o.k)) push(bad)] *)
Definition optional_check (o : value) (k : string)
    (check : value -> result bool) (bad : string) : stmt :=
  v <- get o k ;;
  if truthy v then ok <- check v ;; if negb ok then push bad else skip
  else skip.

(** [if (!o.k || o.k.trim().length === 0) push(req)] *)
Definition required_text (o : value) (k req : string) : stmt :=
  v <- get o k ;;
  missing <- blank v ;;
  if missing then push req else skip.

(** The same, followed by [else if (o.k.length > 100) push(long)]. *)
Definition required_name (o : value) (k req long : string) : stmt :=
  v <- get o k ;;
  missing <- blank v ;;
  if missing then push req
  else
    len <- length_of v ;;
    over <- js_gt len (int 100) ;;
    if over then push long else skip.

(** [if (!o.k) push(req) else if (!member(o.k)) push(prefix + list)] *)
Definition required_member (o : value) (k : string) (member : value -> bool)
    (table : list (string * value)) (req prefix : string) : stmt :=
  v <- get o k ;;
  if negb (truthy v) then push req
  else if negb (member v) then
    list <- Array_join ", " (Object_values table) ;;
    push (prefix ++ list)
  else skip.

(** [if (a > b) push(msg)] on two fields of [o]. *)
Definition ceiling (o : value) (met max msg : string) : stmt :=
  a <- get o met ;;
  b <- get o max ;;
  over <- js_gt a b ;;
  if over then push msg else skip.

(** What each validator can push, statement by statement, and the
    statements themselves, in source order. *)

Definition planTypeList : string := "HMO, PPO, EPO, POS, HDHP".

Definition medicationFormList : string :=
  "TABLET, CAPSULE, LIQUID, INJECTION, CREAM, INHALER, PATCH, OTHER".

Definition prescriptionStatusList : string :=
  "PENDING, SUBMITTED, APPROVED, DENIED, PRIOR_AUTH_REQUIRED, FILLED, PICKED_UP, CANCELLED".

Definition address_messages : list string :=
  [ "Address is required"; "Street address is required"; "City is required";
    "State is required"; "Invalid state code (must be 2-letter code like CA, NY)";
    "ZIP code is required"; "Invalid ZIP code format" ].

Definition user_messages : list (list string) :=
  [ [ "Email is required"; "Invalid email format" ];
    [ "First name is required"; "First name must be 100 characters or less" ];
    [ "Last name is required"; "Last name must be 100 characters or less" ];
    [ "Date of birth is required"; "Date of birth must be in YYYY-MM-DD format" ];
    [ "Phone number is required"; "Invalid phone number format" ];
    address_messages ].

Definition insurance_messages : list (list string) :=
  [ [ "User ID is required" ];
    [ "Insurance company name is required" ];
    [ "Policy number is required" ];
    [ "Plan type is required"; "Invalid plan type. Must be one of: " ++ planTypeList ];
    [ "Plan name is required" ];
    [ "RxBIN is required"; "RxBIN must be exactly 6 digits" ];
    [ "Deductible must be a non-negative number (in cents)" ];
    [ "Deductible met must be a non-negative number (in cents)" ];
    [ "Out of pocket max must be a non-negative number (in cents)" ];
    [ "Out of pocket met must be a non-negative number (in cents)" ];
    [ "Effective date is required"; "Effective date must be in YYYY-MM-DD format" ];
    [ "Termination date must be in YYYY-MM-DD format" ];
    [ "Termination date must be after effective date" ];
    [ "Deductible met cannot exceed total deductible" ];
    [ "Out of pocket met cannot exceed out of pocket max" ] ].

Definition prescription_messages : list (list string) :=
  [ [ "User ID is required" ];
    [ "Medication name is required" ];
    [ "Medication form is required";
      "Invalid medication form. Must be one of: " ++ medicationFormList ];
    [ strengthRequired ];
    [ "NDC must be in format: 12345-1234-12" ];
    [ "Dosage instructions are required" ];
    [ "Quantity is required"; "Quantity must be a positive number" ];
    [ "Days supply is required"; "Days supply must be a positive number" ];
    [ "Refills allowed is required"; "Refills allowed must be a non-negative number" ];
    [ "Refills remaining must be a non-negative number";
      "Refills remaining cannot exceed refills allowed" ];
    [ "Prescriber name is required" ];
    [ "Prescriber NPI is required"; "Prescriber NPI must be exactly 10 digits" ];
    [ "Prescribed date is required"; "Prescribed date must be in YYYY-MM-DD format" ];
    [ "Invalid prescription status. Must be one of: " ++ prescriptionStatusList ];
    [ "Pharmacy NPI must be exactly 10 digits" ] ].

Definition user_statements (legacyParse : string -> time_value) (user : value)
  : list stmt :=
  [ user_email user; user_firstName user; user_lastName user;
    user_dateOfBirth legacyParse user; user_phoneNumber user;
    user_address user ].

Definition insurance_statements (legacyParse : string -> time_value)
    (insurance : value) : list stmt :=
  [ ins_userId insurance;
    ins_insuranceCompany insurance;
    ins_policyNumber insurance;
    ins_planType insurance;
    ins_planName insurance;
    ins_rxBIN insurance;
    ins_amount insurance "deductible"
      "Deductible must be a non-negative number (in cents)";
    ins_amount insurance "deductibleMet"
      "Deductible met must be a non-negative number (in cents)";
    ins_amount insurance "outOfPocketMax"
      "Out of pocket max must be a non-negative number (in cents)";
    ins_amount insurance "outOfPocketMet"
      "Out of pocket met must be a non-negative number (in cents)";
    ins_effectiveDate legacyParse insurance;
    ins_terminationDate legacyParse insurance;
    ins_dateOrder legacyParse insurance;
    ins_deductibleCeiling insurance;
    ins_outOfPocketCeiling insurance ].

Definition prescription_statements (legacyParse : string -> time_value)
    (prescription : value) : list stmt :=
  [ rx_userId prescription;
    rx_medicationName prescription;
    rx_medicationForm prescription;
    rx_strength prescription;
    rx_ndc prescription;
    rx_dosageInstructions prescription;
    rx_count prescription "quantity" 1
      "Quantity is required" "Quantity must be a positive number";
    rx_count prescription "daysSupply" 1
      "Days supply is required" "Days supply must be a positive number";
    rx_count prescription "refillsAllowed" 0
      "Refills allowed is required" "Refills allowed must be a non-negative number";
    rx_refillsRemaining prescription;
    rx_prescriberName prescription;
    rx_prescriberNPI prescription;
    rx_prescribedDate legacyParse prescription;
    rx_status prescription;
    rx_pharmacyNPI prescription ].

Definition statements (legacyParse : string -> time_value) (e : entity)
    (o : value) : list stmt :=
  match e with
  | User => user_statements legacyParse o
  | Insurance => insurance_statements legacyParse o
  | Prescription => prescription_statements legacyParse o
  end.

Definition messages (e : entity) : list (list string) :=
  match e with
  | User => user_messages
  | Insurance => insurance_messages
  | Prescription => prescription_messages
  end.

(** The record of scenario 1, typed. *)
Definition scenario1_record : UserRecord.t :=
  {| UserRecord.email := "a@b.com";
     UserRecord.firstName := "Jo";
     UserRecord.lastName := "Lee";
     UserRecord.dateOfBirth := "1990-05-01";
     UserRecord.phoneNumber := "12025551234";
     UserRecord.address :=
       {| UserRecord.street := "1 Main St";
          UserRecord.city := "Springfield";
          UserRecord.state := "IL";
          UserRecord.zipCode := "62701" |} |}.

(** * The validators as rule tables

    What a validator reads from its argument, and a second, flat
    description of what it pushes: a table of rules, each a message with
    the test under which the validator pushes it. *)

(** The properties of its argument that a validator reads. *)
Definition fields_read (e : entity) : list string :=
  match e with
  | User =>
      [ "email"; "firstName"; "lastName"; "dateOfBirth"; "phoneNumber"; "address" ]
  | Insurance =>
      [ "userId"; "insuranceCompany"; "policyNumber"; "planType"; "planName";
        "rxBIN"; "deductible"; "deductibleMet"; "outOfPocketMax"; "outOfPocketMet";
        "effectiveDate"; "terminationDate" ]
  | Prescription =>
      [ "userId"; "medicationName"; "medicationForm"; "strength"; "ndc";
        "dosageInstructions"; "quantity"; "daysSupply"; "refillsAllowed";
        "refillsRemaining"; "prescriberName"; "prescriberNPI"; "prescribedDate";
        "status"; "pharmacyNPI" ]
  end.

(** A rule: a message and the test, on the record, under which it is
    pushed. *)
Record rule : Type := mkRule {
  message : string;
  applies : value -> bool
}.

(** The messages of the rules that apply, in the order of the rules. *)
Definition fired (rules : list rule) (o : value) : list string :=
  map message (filter (fun r => applies r o) rules).

(** [!check(v)] for a checker that returns. *)
Definition rejects (check : value -> result bool) (v : value) : bool :=
  match check v with Ok b => negb b | Throw _ => false end.

(** [!v || v.trim().length === 0] *)
Definition is_blank (v : value) : bool :=
  match blank v with Ok b => b | Throw _ => false end.

(** [v.length > 100] *)
Definition too_long (v : value) : bool :=
  match (len <- length_of v ;; js_gt len (int 100)) with
  | Ok b => b
  | Throw _ => false
  end.

(** [typeof v !== 'number' || v < floor] *)
Definition out_of_range (floor : Z) (v : value) : bool :=
  match not_number_or_below v floor with Ok b => b | Throw _ => false end.

(** [!o.k] *)
Definition required (k msg : string) : rule :=
  mkRule msg (fun o => negb (truthy (field o k))).

(** [o.k && !check(o.k)] *)
Definition malformed (k : string) (check : value -> result bool) (msg : string)
  : rule :=
  mkRule msg (fun o => truthy (field o k) && rejects check (field o k)).

(** [o.k && !member(o.k)] *)
Definition not_member (k : string) (member : value -> bool) (msg : string) : rule :=
  mkRule msg (fun o => truthy (field o k) && negb (member (field o k))).

(** [!o.k || o.k.trim().length === 0] *)
Definition blank_text (k msg : string) : rule :=
  mkRule msg (fun o => is_blank (field o k)).

(** Not blank, and [o.k.length > 100]. *)
Definition long_text (k msg : string) : rule :=
  mkRule msg (fun o => negb (is_blank (field o k)) && too_long (field o k)).

(** [o.k !== undefined && (typeof o.k !== 'number' || o.k < 0)] *)
Definition bad_amount (k msg : string) : rule :=
  mkRule msg (fun o => negb (is_undefined (field o k)) && out_of_range 0 (field o k)).

(** [o.k === undefined || o.k === null] *)
Definition no_count (k msg : string) : rule :=
  mkRule msg (fun o => absent (field o k)).

(** Neither, and [typeof o.k !== 'number' || o.k < floor]. *)
Definition bad_count (k : string) (floor : Z) (msg : string) : rule :=
  mkRule msg (fun o => negb (absent (field o k)) && out_of_range floor (field o k)).

(** A rule about the object [o.k], looked at only when [o.k] is truthy. *)
Definition within (k : string) (r : rule) : rule :=
  mkRule (message r) (fun o => truthy (field o k) && applies r (field o k)).

Section Rules.

Variable legacyParse : string -> time_value.

(** A cross-field check, with the comparison [violated]. *)
Definition crossed (c : cross_check) : rule :=
  mkRule (cross_message c) (violated legacyParse c).

(** The rules of each validator, one group per statement, in source
    order. *)
Definition user_rules : list (list rule) :=
  [ [ required "email" "Email is required";
      malformed "email" isValidEmail "Invalid email format" ];
    [ blank_text "firstName" "First name is required";
      long_text "firstName" "First name must be 100 characters or less" ];
    [ blank_text "lastName" "Last name is required";
      long_text "lastName" "Last name must be 100 characters or less" ];
    [ required "dateOfBirth" "Date of birth is required";
      malformed "dateOfBirth" (isValidDate legacyParse)
        "Date of birth must be in YYYY-MM-DD format" ];
    [ required "phoneNumber" "Phone number is required";
      malformed "phoneNumber" isValidPhoneNumber "Invalid phone number format" ];
    [ required "address" "Address is required";
      within "address" (blank_text "street" "Street address is required");
      within "address" (blank_text "city" "City is required");
      within "address" (required "state" "State is required");
      within "address"
        (malformed "state" isValidStateCode
           "Invalid state code (must be 2-letter code like CA, NY)");
      within "address" (required "zipCode" "ZIP code is required");
      within "address" (malformed "zipCode" isValidZipCode "Invalid ZIP code format") ] ].

Definition insurance_rules : list (list rule) :=
  [ [ required "userId" "User ID is required" ];
    [ blank_text "insuranceCompany" "Insurance company name is required" ];
    [ blank_text "policyNumber" "Policy number is required" ];
    [ required "planType" "Plan type is required";
      not_member "planType" isValidPlanType
        ("Invalid plan type. Must be one of: " ++ planTypeList) ];
    [ blank_text "planName" "Plan name is required" ];
    [ required "rxBIN" "RxBIN is required";
      malformed "rxBIN" isValidRxBIN "RxBIN must be exactly 6 digits" ];
    [ bad_amount "deductible" "Deductible must be a non-negative number (in cents)" ];
    [ bad_amount "deductibleMet"
        "Deductible met must be a non-negative number (in cents)" ];
    [ bad_amount "outOfPocketMax"
        "Out of pocket max must be a non-negative number (in cents)" ];
    [ bad_amount "outOfPocketMet"
        "Out of pocket met must be a non-negative number (in cents)" ];
    [ required "effectiveDate" "Effective date is required";
      malformed "effectiveDate" (isValidDate legacyParse)
        "Effective date must be in YYYY-MM-DD format" ];
    [ malformed "terminationDate" (isValidDate legacyParse)
        "Termination date must be in YYYY-MM-DD format" ];
    [ crossed DateOrder ];
    [ crossed (Ceiling DeductibleCeiling) ];
    [ crossed (Ceiling OutOfPocketCeiling) ] ].

Definition prescription_rules : list (list rule) :=
  [ [ required "userId" "User ID is required" ];
    [ blank_text "medicationName" "Medication name is required" ];
    [ required "medicationForm" "Medication form is required";
      not_member "medicationForm" isValidMedicationForm
        ("Invalid medication form. Must be one of: " ++ medicationFormList) ];
    [ blank_text "strength" strengthRequired ];
    [ malformed "ndc" isValidNDC "NDC must be in format: 12345-1234-12" ];
    [ blank_text "dosageInstructions" "Dosage instructions are required" ];
    [ no_count "quantity" "Quantity is required";
      bad_count "quantity" 1 "Quantity must be a positive number" ];
    [ no_count "daysSupply" "Days supply is required";
      bad_count "daysSupply" 1 "Days supply must be a positive number" ];
    [ no_count "refillsAllowed" "Refills allowed is required";
      bad_count "refillsAllowed" 0 "Refills allowed must be a non-negative number" ];
    [ bad_amount "refillsRemaining" "Refills remaining must be a non-negative number";
      mkRule (cross_message (Ceiling RefillsCeiling))
        (fun o => negb (is_undefined (field o "refillsRemaining"))
                  && violated legacyParse (Ceiling RefillsCeiling) o) ];
    [ blank_text "prescriberName" "Prescriber name is required" ];
    [ required "prescriberNPI" "Prescriber NPI is required";
      malformed "prescriberNPI" isValidNPI "Prescriber NPI must be exactly 10 digits" ];
    [ required "prescribedDate" "Prescribed date is required";
      malformed "prescribedDate" (isValidDate legacyParse)
        "Prescribed date must be in YYYY-MM-DD format" ];
    [ not_member "status" isValidPrescriptionStatus
        ("Invalid prescription status. Must be one of: " ++ prescriptionStatusList) ];
    [ malformed "pharmacyNPI" isValidNPI "Pharmacy NPI must be exactly 10 digits" ] ].

Definition rule_groups (e : entity) : list (list rule) :=
  match e with
  | User => user_rules
  | Insurance => insurance_rules
  | Prescription => prescription_rules
  end.

Definition rules (e : entity) : list rule := concat (rule_groups e).

End Rules.

(** Pairwise distinct strings. *)
Fixpoint distinct (l : list string) : bool :=
  match l with
  | [] => true
  | x :: rest => negb (existsb (String.eqb x) rest) && distinct rest
  end.

(** The largest number of errors a validator can report: one per statement,
    but four for an address that is present and two for the refills
    remaining. *)
Definition most_errors (e : entity) : nat :=
  match e with
  | User => 9
  | Insurance => 15
  | Prescription => 16
  end.

(** The test behind the presence message of a required field. *)
Definition presence_test (f : required_field) (o : value) : bool :=
  match f with
  | UserEmail => negb (truthy (field o "email"))
  | UserFirstName => is_blank (field o "firstName")
  | UserLastName => is_blank (field o "lastName")
  | UserDateOfBirth => negb (truthy (field o "dateOfBirth"))
  | UserPhoneNumber => negb (truthy (field o "phoneNumber"))
  | UserAddress => negb (truthy (field o "address"))
  | AddressStreet =>
      truthy (field o "address") && is_blank (field (field o "address") "street")
  | AddressCity =>
      truthy (field o "address") && is_blank (field (field o "address") "city")
  | AddressState =>
      truthy (field o "address") && negb (truthy (field (field o "address") "state"))
  | AddressZipCode =>
      truthy (field o "address") && negb (truthy (field (field o "address") "zipCode"))
  | InsUserId => negb (truthy (field o "userId"))
  | InsCompany => is_blank (field o "insuranceCompany")
  | InsPolicyNumber => is_blank (field o "policyNumber")
  | InsPlanType => negb (truthy (field o "planType"))
  | InsPlanName => is_blank (field o "planName")
  | InsRxBIN => negb (truthy (field o "rxBIN"))
  | InsEffectiveDate => negb (truthy (field o "effectiveDate"))
  | RxUserId => negb (truthy (field o "userId"))
  | RxMedicationName => is_blank (field o "medicationName")
  | RxMedicationForm => negb (truthy (field o "medicationForm"))
  | RxStrength => is_blank (field o "strength")
  | RxDosageInstructions => is_blank (field o "dosageInstructions")
  | RxQuantity => absent (field o "quantity")
  | RxDaysSupply => absent (field o "daysSupply")
  | RxRefillsAllowed => absent (field o "refillsAllowed")
  | RxPrescriberName => is_blank (field o "prescriberName")
  | RxPrescriberNPI => negb (truthy (field o "prescriberNPI"))
  | RxPrescribedDate => negb (truthy (field o "prescribedDate"))
  end.

(** The rule behind the presence message of a required field. *)
Definition presence_rule (f : required_field) : rule :=
  match f with
  | UserEmail => required "email" "Email is required"
  | UserFirstName => blank_text "firstName" "First name is required"
  | UserLastName => blank_text "lastName" "Last name is required"
  | UserDateOfBirth => required "dateOfBirth" "Date of birth is required"
  | UserPhoneNumber => required "phoneNumber" "Phone number is required"
  | UserAddress => required "address" "Address is required"
  | AddressStreet => within "address" (blank_text "street" "Street address is required")
  | AddressCity => within "address" (blank_text "city" "City is required")
  | AddressState => within "address" (required "state" "State is required")
  | AddressZipCode => within "address" (required "zipCode" "ZIP code is required")
  | InsUserId => required "userId" "User ID is required"
  | InsCompany => blank_text "insuranceCompany" "Insurance company name is required"
  | InsPolicyNumber => blank_text "policyNumber" "Policy number is required"
  | InsPlanType => required "planType" "Plan type is required"
  | InsPlanName => blank_text "planName" "Plan name is required"
  | InsRxBIN => required "rxBIN" "RxBIN is required"
  | InsEffectiveDate => required "effectiveDate" "Effective date is required"
  | RxUserId => required "userId" "User ID is required"
  | RxMedicationName => blank_text "medicationName" "Medication name is required"
  | RxMedicationForm => required "medicationForm" "Medication form is required"
  | RxStrength => blank_text "strength" strengthRequired
  | RxDosageInstructions =>
      blank_text "dosageInstructions" "Dosage instructions are required"
  | RxQuantity => no_count "quantity" "Quantity is required"
  | RxDaysSupply => no_count "daysSupply" "Days supply is required"
  | RxRefillsAllowed => no_count "refillsAllowed" "Refills allowed is required"
  | RxPrescriberName => blank_text "prescriberName" "Prescriber name is required"
  | RxPrescriberNPI => required "prescriberNPI" "Prescriber NPI is required"
  | RxPrescribedDate => required "prescribedDate" "Prescribed date is required"
  end.

(** The fields with a numeric range check. *)
Inductive numeric_field : Type :=
| Deductible | DeductibleMet | OutOfPocketMax | OutOfPocketMet
| Quantity | DaysSupply | RefillsAllowed | RefillsRemaining.

Definition numeric_entity (f : numeric_field) : entity :=
  match f with
  | Deductible | DeductibleMet | OutOfPocketMax | OutOfPocketMet => Insurance
  | _ => Prescription
  end.

Definition numeric_key (f : numeric_field) : string :=
  match f with
  | Deductible => "deductible"
  | DeductibleMet => "deductibleMet"
  | OutOfPocketMax => "outOfPocketMax"
  | OutOfPocketMet => "outOfPocketMet"
  | Quantity => "quantity"
  | DaysSupply => "daysSupply"
  | RefillsAllowed => "refillsAllowed"
  | RefillsRemaining => "refillsRemaining"
  end.

(** The least number the check lets through. *)
Definition numeric_floor (f : numeric_field) : Z :=
  match f with
  | Quantity | DaysSupply => 1
  | _ => 0
  end.

Definition range_message (f : numeric_field) : string :=
  match f with
  | Deductible => "Deductible must be a non-negative number (in cents)"
  | DeductibleMet => "Deductible met must be a non-negative number (in cents)"
  | OutOfPocketMax => "Out of pocket max must be a non-negative number (in cents)"
  | OutOfPocketMet => "Out of pocket met must be a non-negative number (in cents)"
  | Quantity => "Quantity must be a positive number"
  | DaysSupply => "Days supply must be a positive number"
  | RefillsAllowed => "Refills allowed must be a non-negative number"
  | RefillsRemaining => "Refills remaining must be a non-negative number"
  end.

(** The rule behind the range message of a numeric field. *)
Definition range_rule (f : numeric_field) : rule :=
  match f with
  | Quantity | DaysSupply | RefillsAllowed =>
      bad_count (numeric_key f) (numeric_floor f) (range_message f)
  | _ => bad_amount (numeric_key f) (range_message f)
  end.

(** ** Dates and periods *)

(** The verdict of [isValidDate] on a string, read off its fields: a
    string of the digit pattern whose month is in 1..12 and whose day is in
    1..31 is accepted; with a month or day outside, the verdict is that of
    the engine's fallback parser; any other string is rejected. *)
Definition date_verdict (legacyParse : string -> time_value) (s : string) : bool :=
  match date_fields s with
  | Some (y, m, d) =>
      if (1 <=? m) && (m <=? 12) && (1 <=? d) && (d <=? 31) then true
      else date_is_valid (legacyParse s)
  | None => false
  end.

(** The instants from [eff] to [term], both included; without a [term],
    from [eff] on. *)
Definition in_period (eff : Z) (term : option Z) (now : Z) : bool :=
  (eff <=? now) && match term with Some t => now <=? t | None => true end.

(** * utils/common.js

    The helpers of [utils/common.js] that do not go through the
    internationalisation library or floating-point arithmetic. *)

(** ** sanitizeInput *)

(** [if (typeof input !== 'string') return input; return input.trim();] *)
Definition sanitizeInput (input : value) : result value :=
  if negb (String.eqb (typeof input) "string") then Ok input
  else t <- call_trim input ;; Ok (VStr t).

(** The first, and the last, character of a string is no white space. *)
Definition starts_clean (s : string) : bool :=
  match s with
  | String c _ => negb (is_space c)
  | EmptyString => true
  end.

Fixpoint ends_clean (s : string) : bool :=
  match s with
  | EmptyString => true
  | String c EmptyString => negb (is_space c)
  | String _ rest => ends_clean rest
  end.

Definition all_space (s : string) : bool := forallb is_space (chars s).

(** ** generateUUID *)

(** A value of [Math.random()]: a number in the interval from 0 up to, not
    including, 1, held as the fraction [num / den]. *)
Record draw : Type := mkDraw { num : Z; den : Z }.

Definition unit_interval (d : draw) : Prop := 0 <= num d < den d.

(** [x | 0] on an integral number: the 32-bit two's complement integer. *)
Definition ToInt32 (z : Z) : Z := (z + 2 ^ 31) mod 2 ^ 32 - 2 ^ 31.

(** [Math.random() * 16 | 0]: the product by a power of two is exact, and
    the conversion drops the fraction. *)
Definition random_nibble (d : draw) : Z := ToInt32 (Z.quot (num d * 16) (den d)).

Definition hex_digit (n : Z) : ascii :=
  if n <? 10 then ascii_of_N (Z.to_N (48 + n)) else ascii_of_N (Z.to_N (87 + n)).

Fixpoint hex_digits (fuel : nat) (n : Z) : string :=
  match fuel with
  | O => ""
  | S k =>
      if n <? 16 then String (hex_digit n) ""
      else hex_digits k (n / 16) ++ String (hex_digit (n mod 16)) ""
  end.

(** [v.toString(16)] for an integer [v]. *)
Definition toString16 (v : Z) : string :=
  let digits n := hex_digits (S (Z.to_nat (Z.log2 n))) n in
  if v <? 0 then "-" ++ digits (- v) else digits v.

(** The replacement function of [generateUUID], applied to a character of
    the template with the draw that [Math.random()] returns to it:
    [r = Math.random() * 16 | 0; v = c === 'x' ? r : (r & 0x3 | 0x8);
     return v.toString(16)]. *)
Definition uuid_replacement (c : ascii) (d : draw) : string :=
  let r := random_nibble d in
  let v := if Ascii.eqb c "x" then r else Z.lor (Z.land r 3) 8 in
  toString16 v.

Section Random.

(** The draws of [Math.random()], in the order of the calls. *)
Variable random : nat -> draw.

(** [template.replace(/[xy]/g, f)]: each [x] and each [y], from left to
    right, is replaced by what [f] returns for it; [calls] counts the calls
    of [Math.random()] made so far. *)
Fixpoint replace_xy (template : string) (calls : nat) : string * nat :=
  match template with
  | EmptyString => (EmptyString, calls)
  | String c rest =>
      if Ascii.eqb c "x" || Ascii.eqb c "y" then
        let piece := uuid_replacement c (random calls) in
        let (tail, calls') := replace_xy rest (S calls) in
        (piece ++ tail, calls')
      else
        let (tail, calls') := replace_xy rest calls in
        (String c tail, calls')
  end.

(** [generateUUID], from the number of draws made before the call to the
    identifier and the number of draws made after it. *)
Definition generateUUID (calls : nat) : string * nat :=
  replace_xy "xxxxxxxx-xxxx-4xxx-yxxx-xxxxxxxxxxxx" calls.

End Random.

(** [[0-9a-f]] and [[89ab]]. *)
Definition is_hex (c : ascii) : bool :=
  let n := N_of_ascii c in
  is_digit c || ((97 <=? n) && (n <=? 102))%N.

Definition is_variant (c : ascii) : bool :=
  Ascii.eqb c "8" || Ascii.eqb c "9" || Ascii.eqb c "a" || Ascii.eqb c "b".

(** [/^[0-9a-f]{8}-[0-9a-f]{4}-4[0-9a-f]{3}-[89ab][0-9a-f]{3}-[0-9a-f]{12}$/],
    the textual form of a version 4 identifier. *)
Definition uuid4Regex : regex :=
  let hex := Cls is_hex in
  Seq (Rep 8 hex) (Seq (Chr "-")
    (Seq (Rep 4 hex) (Seq (Chr "-")
      (Seq (Chr "4") (Seq (Rep 3 hex) (Seq (Chr "-")
        (Seq (Cls is_variant) (Seq (Rep 3 hex) (Seq (Chr "-") (Rep 12 hex)))))))))).

(** ** getCurrentDate and getCurrentDateTime *)

(** The year of a day number: the [y] with
    [DayFromYear y <= d < DayFromYear (y + 1)], found from the estimate that
    the mean length of a year gives, which is off by one at most. *)
Definition year_of_day (d : Z) : Z :=
  let y := 1970 + (400 * d) / 146097 in
  if d <? DayFromYear y then y - 1
  else if DayFromYear (y + 1) <=? d then y + 1
  else y.

(** YearFromTime(t) and DayWithinYear(t). *)
Definition YearFromTime (t : Z) : Z := year_of_day (utcDay t).

Definition DayWithinYear (t : Z) : Z := utcDay t - DayFromYear (YearFromTime t).

(** The month, from 1 to 12, of a day within a year. *)
Definition month_of_day (y n : Z) : Z :=
  if n <? DaysBeforeMonth y 2 then 1
  else if n <? DaysBeforeMonth y 3 then 2
  else if n <? DaysBeforeMonth y 4 then 3
  else if n <? DaysBeforeMonth y 5 then 4
  else if n <? DaysBeforeMonth y 6 then 5
  else if n <? DaysBeforeMonth y 7 then 6
  else if n <? DaysBeforeMonth y 8 then 7
  else if n <? DaysBeforeMonth y 9 then 8
  else if n <? DaysBeforeMonth y 10 then 9
  else if n <? DaysBeforeMonth y 11 then 10
  else if n <? DaysBeforeMonth y 12 then 11
  else 12.

(** MonthFromTime(t) + 1 and DateFromTime(t). *)
Definition MonthFromTime (t : Z) : Z :=
  month_of_day (YearFromTime t) (DayWithinYear t).

Definition DateFromTime (t : Z) : Z :=
  DayWithinYear t - DaysBeforeMonth (YearFromTime t) (MonthFromTime t) + 1.

Definition TimeWithinDay (t : Z) : Z := t mod msPerDay.

Definition digit_char (n : Z) : ascii := ascii_of_N (Z.to_N (48 + n)).

(** The last [width] decimal digits of [n]: [n] padded with zeros when it
    has fewer. *)
Fixpoint padded (width : nat) (n : Z) : string :=
  match width with
  | O => ""
  | S k => padded k (n / 10) ++ String (digit_char (n mod 10)) ""
  end.

(** [Date.prototype.toISOString] on a valid date: [YYYY-MM-DDTHH:mm:ss.sssZ]
    in UTC, the year with a sign and six digits when it is not in 0..9999. *)
Definition toISOString (t : Z) : string :=
  let y := YearFromTime t in
  let year :=
    if (0 <=? y) && (y <=? 9999) then padded 4 y
    else (if y <? 0 then "-" else "+") ++ padded 6 (Z.abs y) in
  let ms := TimeWithinDay t in
  year ++ "-" ++ padded 2 (MonthFromTime t) ++ "-" ++ padded 2 (DateFromTime t)
    ++ "T" ++ padded 2 (ms / 3600000) ++ ":" ++ padded 2 ((ms / 60000) mod 60)
    ++ ":" ++ padded 2 ((ms / 1000) mod 60) ++ "." ++ padded 3 (ms mod 1000) ++ "Z".

(** [s.split(c)[0]]: what stands before the first [c]. *)
Fixpoint before (c : ascii) (s : string) : string :=
  match s with
  | EmptyString => EmptyString
  | String x rest => if Ascii.eqb x c then EmptyString else String x (before c rest)
  end.

(** [getCurrentDate] and [getCurrentDateTime], with the instant [new Date()]
    reads from the clock as the argument [now]; that date is always
    valid. *)
Definition getCurrentDate (now : Z) : string := before "T" (toISOString now).

Definition getCurrentDateTime (now : Z) : string := toISOString now.

(** The first instant of the year 0 and the first instant of the year
    10000. *)
Definition year0 : Z := -62167219200000.

Definition year10000 : Z := 253402300800000.

(** The date part of the ISO string of an instant whose year has four
    digits. *)
Definition date_part (t : Z) : string :=
  padded 4 (YearFromTime t) ++ "-" ++ padded 2 (MonthFromTime t) ++ "-"
    ++ padded 2 (DateFromTime t).

(** ** isPastDate and isFutureDate *)

Section Zone.

Variable legacyParse : string -> time_value.

(** LocalTZA(t, isUTC): the offset of the local time zone, in
    milliseconds, at the instant [t] (for [isUTC]) or at the local time
    [t]. *)
Variable LocalTZA : Z -> bool -> Z.

Definition LocalTime (t : Z) : Z := t + LocalTZA t true.

Definition UTC (t : Z) : Z := t - LocalTZA t false.

(** [today.setHours(0, 0, 0, 0)] on the date of the instant [now]: the
    instant at which the local day of [now] starts. *)
Definition startOfLocalDay (now : Z) : time_value :=
  TimeClip (Fin (UTC (utcDay (LocalTime now) * msPerDay)) 0).

(** [isPastDate] and [isFutureDate], with the instant [new Date()] reads
    from the clock as the argument [now]. *)
Definition isPastDate (now : Z) (dateString : value) : result bool :=
  date <- new_Date legacyParse dateString ;;
  Ok (date_lt date (startOfLocalDay now)).

Definition isFutureDate (now : Z) (dateString : value) : result bool :=
  date <- new_Date legacyParse dateString ;;
  Ok (date_gt date (startOfLocalDay now)).

End Zone.

(** A time zone with the same offset all year. *)
Definition fixedOffset (tz : Z) : Z -> bool -> Z := fun _ _ => tz.

(** Five hours west of UTC. *)
Definition fiveHoursWest : Z := -18000000.

(** ** Records and generators of the examples *)

(** An insurance with every required field, in force from the first day of
    2024 to the last. *)
Definition insurance2024 : value :=
  VObj [ ("userId", VStr "u1"); ("insuranceCompany", VStr "Acme");
         ("policyNumber", VStr "P1"); ("planType", VStr "PPO");
         ("planName", VStr "Gold"); ("rxBIN", VStr "123456");
         ("effectiveDate", VStr "2024-01-01");
         ("terminationDate", VStr "2024-12-31") ].

(** A generator that always returns one half. *)
Definition alwaysHalf : nat -> draw := fun _ => mkDraw 1 2.

(** * Properties *)

(** ** Matching by derivatives decides the language of a pattern *)
Module RegexFacts.

Lemma app_nil_both (A : Type) (u v : list A) : (u ++ v = [] -> u = [] /\ v = [])%list.
Proof. destruct u; simpl; intros H; [auto | discriminate]. Qed.

Lemma lang_Seq_inv r1 r2 w :
  lang (Seq r1 r2) w ->
  exists u v, w = (u ++ v)%list /\ lang r1 u /\ lang r2 v.
Proof. intros H. inversion H; subst. eauto. Qed.

Lemma nullable_lang r : nullable r = true <-> lang r [].
Proof.
  induction r; simpl; split; intros H; try discriminate.
  - inversion H.
  - constructor.
  - reflexivity.
  - inversion H.
  - apply andb_true_iff in H as [H1 H2].
    change (@nil ascii) with (@nil ascii ++ [])%list.
    constructor; [apply IHr1 | apply IHr2]; assumption.
  - apply lang_Seq_inv in H as (u & v & Heq & Hu & Hv).
    symmetry in Heq. apply app_nil_both in Heq as [-> ->].
    apply andb_true_iff; split; [apply IHr1 | apply IHr2]; assumption.
  - apply orb_true_iff in H as [H | H];
      [apply L_AltL, IHr1 | apply L_AltR, IHr2]; assumption.
  - apply orb_true_iff.
    inversion H; subst; [left; apply IHr1 | right; apply IHr2]; assumption.
  - constructor.
  - reflexivity.
Qed.

(** A non-empty word of [Star r] starts with a non-empty word of [r]. *)
Lemma star_cons r c w :
  lang (Star r) (c :: w) ->
  exists u v, w = (u ++ v)%list /\ lang r (c :: u) /\ lang (Star r) v.
Proof.
  intros H. remember (Star r) as s eqn:Es. remember (c :: w) as cw eqn:Ew.
  revert c w Ew.
  induction H; intros c' w' Ew; try discriminate.
  injection Es as ->.
  destruct u as [| a u'].
  - simpl in Ew. apply IHlang2; auto.
  - simpl in Ew. injection Ew as -> <-.
    exists u', v. auto.
Qed.

Lemma deriv_lang c r w : lang (deriv c r) w <-> lang r (c :: w).
Proof.
  revert w. induction r; intros w; simpl.
  - split; intros H; inversion H.
  - split; intros H; inversion H.
  - destruct (p c) eqn:Hp; split; intros H.
    + inversion H; subst. constructor; assumption.
    + inversion H; subst. constructor.
    + inversion H.
    + inversion H; subst. congruence.
  - assert (Hseq : forall w, lang (Seq (deriv c r1) r2) w ->
                             lang (Seq r1 r2) (c :: w)).
    { intros w0 H. apply lang_Seq_inv in H as (u & v & -> & Hu & Hv).
      change (c :: u ++ v)%list with ((c :: u) ++ v)%list.
      constructor; [apply IHr1|]; assumption. }
    assert (Hinv : forall w, lang (Seq r1 r2) (c :: w) ->
              lang (Seq (deriv c r1) r2) w \/ (lang r1 [] /\ lang r2 (c :: w))).
    { intros w0 H. apply lang_Seq_inv in H as (u & v & Heq & Hu & Hv).
      destruct u as [| a u'].
      - simpl in Heq; subst v. right; auto.
      - simpl in Heq. injection Heq as <- ->.
        left. constructor; [apply IHr1|]; assumption. }
    destruct (nullable r1) eqn:Hn; split; intros H.
    + inversion H; subst.
      * apply Hseq; assumption.
      * change (c :: w) with ([] ++ c :: w)%list.
        constructor; [apply nullable_lang | apply IHr2]; assumption.
    + destruct (Hinv _ H) as [H1 | [_ H2]].
      * apply L_AltL; assumption.
      * apply L_AltR, IHr2; assumption.
    + apply Hseq; assumption.
    + destruct (Hinv _ H) as [H1 | [H0 _]]; [assumption|].
      apply nullable_lang in H0. congruence.
  - split; intros H; inversion H; subst.
    + apply L_AltL, IHr1; assumption.
    + apply L_AltR, IHr2; assumption.
    + apply L_AltL, IHr1; assumption.
    + apply L_AltR, IHr2; assumption.
  - split; intros H.
    + apply lang_Seq_inv in H as (u & v & -> & Hu & Hv).
      change (c :: u ++ v)%list with ((c :: u) ++ v)%list.
      constructor; [apply IHr|]; assumption.
    + apply star_cons in H as (u & v & -> & Hu & Hv).
      constructor; [apply IHr|]; assumption.
Qed.

Theorem accepts_lang r w : accepts r w = true <-> lang r w.
Proof.
  revert r. induction w as [| c w IH]; intros r; simpl.
  - apply nullable_lang.
  - rewrite IH. apply deriv_lang.
Qed.

(** Words of a fixed length over one class. *)
Lemma lang_Rep p n w :
  List.length w = n -> forallb p w = true -> lang (Rep n (Cls p)) w.
Proof.
  revert w. induction n as [| n IH]; intros [| c w] Hl Hp; simpl in *;
    try discriminate.
  - constructor.
  - apply andb_true_iff in Hp as [Hc Hw].
    change (c :: w) with ([c] ++ w)%list.
    constructor; [constructor; assumption | apply IH; congruence].
Qed.

Lemma lang_Star_Cls p w : forallb p w = true -> lang (Star (Cls p)) w.
Proof.
  induction w as [| c w IH]; simpl; intros Hp.
  - constructor.
  - apply andb_true_iff in Hp as [Hc Hw].
    change (c :: w) with ([c] ++ w)%list.
    constructor; [constructor; assumption | auto].
Qed.

Lemma lang_Plus_Cls p w :
  w <> [] -> forallb p w = true -> lang (Plus (Cls p)) w.
Proof.
  destruct w as [| c w]; [congruence|]. simpl. intros _ Hp.
  apply andb_true_iff in Hp as [Hc Hw].
  change (c :: w) with ([c] ++ w)%list.
  constructor; [constructor; assumption | apply lang_Star_Cls; assumption].
Qed.

(** Up to [n] characters of one class match [n] optional ones. *)
Lemma lang_Rep_Opt p n w :
  (List.length w <= n)%nat -> forallb p w = true -> lang (Rep n (Opt (Cls p))) w.
Proof.
  revert w. induction n as [| n IH]; intros [| c w] Hl Hp; simpl in *.
  - constructor.
  - lia.
  - change (@nil ascii) with (@nil ascii ++ [])%list.
    constructor; [apply L_AltR; constructor | apply IH; simpl; [lia | reflexivity]].
  - apply andb_true_iff in Hp as [Hc Hw].
    change (c :: w) with ([c] ++ w)%list.
    constructor; [apply L_AltL; constructor; assumption | apply IH; [lia | assumption]].
Qed.

Lemma lang_Range_Cls p lo hi w :
  (lo <= List.length w <= hi)%nat -> forallb p w = true ->
  lang (Range lo hi (Cls p)) w.
Proof.
  intros Hl Hp. unfold Range.
  rewrite <- (firstn_skipn lo w).
  rewrite <- (firstn_skipn lo w), forallb_app in Hp.
  apply andb_true_iff in Hp as [H1 H2].
  constructor.
  - apply lang_Rep; [rewrite length_firstn; lia | assumption].
  - apply lang_Rep_Opt; [rewrite length_skipn; lia | assumption].
Qed.

End RegexFacts.
Import RegexFacts.

(** ** The runtime helpers return on well-shaped values *)
Section Helpers.

Variable legacyParse : string -> time_value.

Lemma get_field o k : has_properties o = true -> get o k = Ok (field o k).
Proof.
  unfold field. destruct o; simpl; try discriminate; intros _; try reflexivity.
  destruct (own_property props k); reflexivity.
Qed.

Lemma has_properties_truthy v : truthy v = true -> has_properties v = true.
Proof. destruct v; simpl; intros; try reflexivity; discriminate. Qed.

Lemma coercible_ToString v :
  coercible v = true -> exists s, ToString v = Ok s.
Proof.
  unfold coercible, returns. destruct (ToString v); [eauto | discriminate].
Qed.

Lemma test_returns re v : coercible v = true -> exists b, test re v = Ok b.
Proof.
  intros H. apply coercible_ToString in H as [s Hs].
  unfold test. rewrite Hs. simpl. eauto.
Qed.

Lemma ToPrimitive_returns v :
  coercible v = true ->
  exists p, ToPrimitive v = Ok p /\ is_primitive p = true.
Proof.
  intros H. apply coercible_ToString in H as [s Hs].
  destruct v; try (eexists; split; reflexivity);
    unfold ToPrimitive; rewrite Hs; simpl; eauto.
Qed.

Lemma ToNumber_primitive p :
  is_primitive p = true -> exists n, ToNumber p = Ok n.
Proof.
  destruct p; simpl; try discriminate; intros _;
    unfold ToNumber; simpl; eexists; reflexivity.
Qed.

Lemma IsLessThan_returns leftFirst a b :
  coercible a = true -> coercible b = true ->
  exists r, IsLessThan leftFirst a b = Ok r.
Proof.
  intros Ha Hb.
  apply ToPrimitive_returns in Ha as (pa & Ea & Pa).
  apply ToPrimitive_returns in Hb as (pb & Eb & Pb).
  destruct (ToNumber_primitive pa Pa) as [na Ena].
  destruct (ToNumber_primitive pb Pb) as [nb Enb].
  unfold IsLessThan. rewrite Ea, Eb.
  destruct leftFirst; simpl;
    destruct pa; try discriminate; destruct pb; try discriminate;
    try rewrite Ena; try rewrite Enb; simpl; eauto.
Qed.

Lemma js_gt_returns a b :
  coercible a = true -> coercible b = true -> exists r, js_gt a b = Ok r.
Proof.
  intros Ha Hb. unfold js_gt.
  destruct (IsLessThan_returns false b a Hb Ha) as [r ->]. simpl. eauto.
Qed.

Lemma not_number_or_below_returns v bound :
  exists b, not_number_or_below v bound = Ok b.
Proof.
  unfold not_number_or_below.
  destruct v; simpl; eexists; reflexivity.
Qed.

Lemma new_Date_returns v :
  coercible v = true -> exists t, new_Date legacyParse v = Ok t.
Proof.
  intros H. apply ToPrimitive_returns in H as (p & E & P).
  unfold new_Date. rewrite E. simpl.
  destruct p; try discriminate; simpl; eauto.
Qed.

Lemma isValidDate_returns v :
  coercible v = true -> exists b, isValidDate legacyParse v = Ok b.
Proof.
  intros H. unfold isValidDate.
  destruct (test_returns dateRegex v H) as [m ->]. simpl.
  destruct m; simpl; eauto.
  destruct (new_Date_returns v H) as [t ->]. simpl. eauto.
Qed.

Lemma blank_returns v :
  textual v = true ->
  exists b, blank v = Ok b /\ (b = false -> exists s, v = VStr s).
Proof.
  unfold textual, blank. intros H.
  destruct (truthy v) eqn:T; simpl in *.
  - destruct v; try discriminate. simpl. eauto.
  - exists true. split; [reflexivity | discriminate].
Qed.

Lemma isValidStateCode_returns v :
  textual v = true -> truthy v = true -> exists b, isValidStateCode v = Ok b.
Proof.
  unfold textual. intros H T. rewrite T in H. simpl in H.
  destruct v; try discriminate. unfold isValidStateCode. simpl. eauto.
Qed.

Lemma js_gt_num a b : js_gt (VNum a) (VNum b) = Ok (num_lt b a).
Proof.
  unfold js_gt, IsLessThan, ToNumber. cbn [bind ToPrimitive].
  destruct a as [| na | ma ea], b as [| nb | mb eb]; try reflexivity;
    try (destruct na; reflexivity); try (destruct nb; reflexivity);
    try (destruct na, nb; reflexivity).
  cbn [num_is_nan orb]. destruct (num_lt (Fin mb eb) (Fin ma ea)); reflexivity.
Qed.

Lemma js_lt_num a b : js_lt (VNum a) (VNum b) = Ok (num_lt a b).
Proof.
  unfold js_lt, IsLessThan, ToNumber. cbn [bind ToPrimitive].
  destruct a as [| na | ma ea], b as [| nb | mb eb]; try reflexivity;
    try (destruct na; reflexivity); try (destruct nb; reflexivity);
    try (destruct na, nb; reflexivity).
  cbn [num_is_nan orb]. destruct (num_lt (Fin ma ea) (Fin mb eb)); reflexivity.
Qed.

Lemma num_lt_int a b : num_lt (Fin a 0) (Fin b 0) = (a <? b).
Proof.
  unfold num_lt, fin_compare. simpl. rewrite !Z.mul_1_r. reflexivity.
Qed.

Lemma js_gt_int a b : js_gt (int a) (int b) = Ok (b <? a).
Proof. unfold int. rewrite js_gt_num, num_lt_int. reflexivity. Qed.

End Helpers.

(** ** What a statement of each shape pushes *)

Ltac solve_incl :=
  let x := fresh "x" in
  let H := fresh "H" in
  intros x H; simpl in H |- *;
  repeat (destruct H as [H | H]; [rewrite <- H; auto 12 |]);
  try contradiction.

Ltac split_shape H :=
  repeat (let H' := fresh "S" in apply andb_true_iff in H as [H H']).

Section Statements.

Variable legacyParse : string -> time_value.

Lemma presence_only_run o k req :
  has_properties o = true ->
  presence_only o k req = Ok (if truthy (field o k) then [] else [req]).
Proof.
  intros Ho. unfold presence_only. rewrite (get_field _ _ Ho). simpl.
  destruct (truthy (field o k)); reflexivity.
Qed.

Lemma required_check_missing o k check req bad :
  has_properties o = true -> truthy (field o k) = false ->
  required_check o k check req bad = Ok [req].
Proof.
  intros Ho T. unfold required_check. rewrite (get_field _ _ Ho). simpl.
  rewrite T. reflexivity.
Qed.

Lemma required_check_present o k check req bad b :
  has_properties o = true -> truthy (field o k) = true ->
  check (field o k) = Ok b ->
  required_check o k check req bad = Ok (if b then [] else [bad]).
Proof.
  intros Ho T C. unfold required_check. rewrite (get_field _ _ Ho). simpl.
  rewrite T, C. simpl. destruct b; reflexivity.
Qed.

Lemma required_check_emits o k check req bad :
  has_properties o = true ->
  (truthy (field o k) = true -> exists b, check (field o k) = Ok b) ->
  emits (required_check o k check req bad) [req; bad].
Proof.
  intros Ho C. destruct (truthy (field o k)) eqn:T.
  - destruct (C eq_refl) as [b Hb].
    rewrite (required_check_present _ _ _ _ _ _ Ho T Hb).
    eexists; split; [reflexivity|]. destruct b; solve_incl.
  - rewrite (required_check_missing _ _ _ _ _ Ho T).
    eexists; split; [reflexivity|]. solve_incl.
Qed.

Lemma optional_check_absent o k check bad :
  has_properties o = true -> truthy (field o k) = false ->
  optional_check o k check bad = Ok [].
Proof.
  intros Ho T. unfold optional_check. rewrite (get_field _ _ Ho). simpl.
  rewrite T. reflexivity.
Qed.

Lemma optional_check_present o k check bad b :
  has_properties o = true -> truthy (field o k) = true ->
  check (field o k) = Ok b ->
  optional_check o k check bad = Ok (if b then [] else [bad]).
Proof.
  intros Ho T C. unfold optional_check. rewrite (get_field _ _ Ho). simpl.
  rewrite T, C. simpl. destruct b; reflexivity.
Qed.

Lemma optional_check_emits o k check bad :
  has_properties o = true ->
  (truthy (field o k) = true -> exists b, check (field o k) = Ok b) ->
  emits (optional_check o k check bad) [bad].
Proof.
  intros Ho C. destruct (truthy (field o k)) eqn:T.
  - destruct (C eq_refl) as [b Hb].
    rewrite (optional_check_present _ _ _ _ _ Ho T Hb).
    eexists; split; [reflexivity|]. destruct b; solve_incl.
  - rewrite (optional_check_absent _ _ _ _ Ho T).
    eexists; split; [reflexivity|]. solve_incl.
Qed.

Lemma required_text_run o k req b :
  has_properties o = true -> blank (field o k) = Ok b ->
  required_text o k req = Ok (if b then [req] else []).
Proof.
  intros Ho B. unfold required_text. rewrite (get_field _ _ Ho). simpl.
  rewrite B. simpl. destruct b; reflexivity.
Qed.

Lemma required_text_emits o k req :
  has_properties o = true -> textual (field o k) = true ->
  emits (required_text o k req) [req].
Proof.
  intros Ho T. destruct (blank_returns _ T) as (b & Hb & _).
  rewrite (required_text_run _ _ _ _ Ho Hb).
  eexists; split; [reflexivity|]. destruct b; solve_incl.
Qed.

Lemma required_name_missing o k req long :
  has_properties o = true -> blank (field o k) = Ok true ->
  required_name o k req long = Ok [req].
Proof.
  intros Ho B. unfold required_name. rewrite (get_field _ _ Ho). simpl.
  rewrite B. reflexivity.
Qed.

Lemma required_name_present o k req long s :
  has_properties o = true -> field o k = VStr s -> blank (VStr s) = Ok false ->
  required_name o k req long =
  Ok (if (100 <? Z.of_nat (String.length s)) then [long] else []).
Proof.
  intros Ho F B. unfold required_name. rewrite (get_field _ _ Ho), F. cbn [bind].
  rewrite B. cbn [bind length_of]. rewrite js_gt_int. cbn [bind].
  destruct (100 <? Z.of_nat (String.length s)); reflexivity.
Qed.

Lemma required_name_emits o k req long :
  has_properties o = true -> textual (field o k) = true ->
  emits (required_name o k req long) [req; long].
Proof.
  intros Ho T. destruct (blank_returns _ T) as (b & Hb & Hs).
  destruct b.
  - rewrite (required_name_missing _ _ _ _ Ho Hb).
    eexists; split; [reflexivity|]. solve_incl.
  - destruct (Hs eq_refl) as [s Es]. rewrite Es in Hb.
    rewrite (required_name_present _ _ _ _ _ Ho Es Hb).
    eexists; split; [reflexivity|].
    destruct (100 <? Z.of_nat (String.length s)); solve_incl.
Qed.

Lemma required_member_run o k member table req prefix list :
  has_properties o = true ->
  Array_join ", " (Object_values table) = Ok list ->
  required_member o k member table req prefix =
  Ok (if truthy (field o k)
      then (if member (field o k) then [] else [prefix ++ list])
      else [req]).
Proof.
  intros Ho J. unfold required_member. rewrite (get_field _ _ Ho). simpl.
  destruct (truthy (field o k)); simpl; [|reflexivity].
  destruct (member (field o k)); simpl; [reflexivity|].
  rewrite J. reflexivity.
Qed.

Lemma ceiling_returns o met max msg :
  has_properties o = true ->
  coercible (field o met) = true -> coercible (field o max) = true ->
  exists over, js_gt (field o met) (field o max) = Ok over /\
    ceiling o met max msg = Ok (if over then [msg] else []).
Proof.
  intros Ho Ca Cb. destruct (js_gt_returns _ _ Ca Cb) as [over Hover].
  exists over. split; [assumption|].
  unfold ceiling. rewrite !(get_field _ _ Ho). simpl. rewrite Hover. simpl.
  destruct over; reflexivity.
Qed.

Lemma ceiling_emits o met max msg :
  has_properties o = true ->
  coercible (field o met) = true -> coercible (field o max) = true ->
  emits (ceiling o met max msg) [msg].
Proof.
  intros Ho Ca Cb.
  destruct (ceiling_returns o met max msg Ho Ca Cb) as (over & _ & ->).
  eexists; split; [reflexivity|]. destruct over; solve_incl.
Qed.


(** *** Sequences of statements *)
Lemma block_run stmts outs :
  Forall2 runs_to stmts outs -> block stmts = Ok (concat outs).
Proof.
  induction 1 as [| s l stmts outs Hs _ IH]; simpl.
  - reflexivity.
  - rewrite Hs, IH. reflexivity.
Qed.

Lemma emits_all stmts msgss :
  Forall2 emits stmts msgss ->
  exists outs, Forall2 runs_to stmts outs /\ Forall2 (@incl string) outs msgss.
Proof.
  induction 1 as [| s msgs stmts msgss (l & Hl & Hi) _ (outs & Ho & Hm)].
  - exists []. split; constructor.
  - exists (l :: outs). split; constructor; assumption.
Qed.

Lemma incl_concat (outs msgss : list (list string)) :
  Forall2 (@incl string) outs msgss -> incl (concat outs) (concat msgss).
Proof.
  induction 1 as [| l m outs msgss Hl _ IH]; simpl.
  - apply incl_refl.
  - apply incl_app; [apply incl_appl | apply incl_appr]; assumption.
Qed.

Lemma block_emits stmts msgss :
  Forall2 emits stmts msgss -> emits (block stmts) (concat msgss).
Proof.
  intros H. destruct (emits_all _ _ H) as (outs & Ho & Hm).
  exists (concat outs). split; [apply block_run | apply incl_concat]; assumption.
Qed.

Lemma validator_run stmts msgss :
  Forall2 emits stmts msgss ->
  exists outs,
    Forall2 runs_to stmts outs /\ Forall2 (@incl string) outs msgss /\
    finish (block stmts) =
    Ok {| isValid := (List.length (concat outs) =? 0)%nat; errors := concat outs |}.
Proof.
  intros H. destruct (emits_all _ _ H) as (outs & Ho & Hm).
  exists outs. repeat split; try assumption.
  rewrite (block_run _ _ Ho). reflexivity.
Qed.

Lemma not_valid_of_In (m : string) l :
  In m l -> (List.length l =? 0)%nat = false.
Proof. destruct l; simpl; [intros [] | reflexivity]. Qed.

(** *** The validators as sequences of statements *)

Lemma validateUser_statements user :
  validateUser legacyParse user = finish (block (user_statements legacyParse user)).
Proof. reflexivity. Qed.

Lemma validateInsurance_statements insurance :
  validateInsurance legacyParse insurance =
  finish (block (insurance_statements legacyParse insurance)).
Proof. reflexivity. Qed.

Lemma validatePrescription_statements prescription :
  validatePrescription legacyParse prescription =
  finish (block (prescription_statements legacyParse prescription)).
Proof. reflexivity. Qed.

End Statements.

(** ** Well-shaped records: every statement returns *)
Section Validators.

Variable legacyParse : string -> time_value.

Lemma emits_weaken s msgs msgs' :
  emits s msgs -> incl msgs msgs' -> emits s msgs'.
Proof.
  intros (l & Hl & Hi) Hm. exists l. split; [assumption|].
  eapply incl_tran; eassumption.
Qed.

Lemma planType_join :
  Array_join ", " (Object_values InsurancePlanType) = Ok planTypeList.
Proof. reflexivity. Qed.

Lemma medicationForm_join :
  Array_join ", " (Object_values MedicationForm) = Ok medicationFormList.
Proof. reflexivity. Qed.

Lemma required_member_emits o k member table req prefix list :
  has_properties o = true ->
  Array_join ", " (Object_values table) = Ok list ->
  emits (required_member o k member table req prefix) [req; prefix ++ list].
Proof.
  intros Ho J. rewrite (required_member_run _ _ _ _ _ _ _ Ho J).
  eexists; split; [reflexivity|].
  destruct (truthy (field o k)); [destruct (member (field o k))|]; solve_incl.
Qed.

Lemma presence_only_emits o k req :
  has_properties o = true -> emits (presence_only o k req) [req].
Proof.
  intros Ho. rewrite (presence_only_run _ _ _ Ho).
  eexists; split; [reflexivity|]. destruct (truthy (field o k)); solve_incl.
Qed.

Lemma user_address_emits user :
  has_properties user = true ->
  textual (field (field user "address") "street") = true ->
  textual (field (field user "address") "city") = true ->
  textual (field (field user "address") "state") = true ->
  coercible (field (field user "address") "zipCode") = true ->
  emits (user_address user) address_messages.
Proof.
  intros Ho Hst Hci Hsa Hz. unfold user_address.
  rewrite (get_field _ _ Ho). cbn [bind].
  destruct (truthy (field user "address")) eqn:T; cbn [negb].
  - pose proof (has_properties_truthy _ T) as Ha.
    eapply emits_weaken.
    + apply block_emits.
      constructor; [exact (required_text_emits _ "street" _ Ha Hst)|].
      constructor; [exact (required_text_emits _ "city" _ Ha Hci)|].
      constructor;
        [exact (required_check_emits _ "state" isValidStateCode _ _ Ha
                  (isValidStateCode_returns _ Hsa))|].
      constructor;
        [exact (required_check_emits _ "zipCode" isValidZipCode _ _ Ha
                  (fun _ => test_returns _ _ Hz))|].
      constructor.
    + unfold address_messages. solve_incl.
  - exists ["Address is required"]. split; [reflexivity|].
    unfold address_messages. solve_incl.
Qed.

Lemma user_statements_emit user :
  user_shape user = true ->
  Forall2 emits (user_statements legacyParse user) user_messages.
Proof.
  intros H. unfold user_shape in H. split_shape H.
  unfold user_statements, user_messages.
  constructor;
    [exact (required_check_emits _ "email" isValidEmail _ _ H
              (fun _ => test_returns _ _ S7))|].
  constructor; [exact (required_name_emits _ "firstName" _ _ H S6)|].
  constructor; [exact (required_name_emits _ "lastName" _ _ H S5)|].
  constructor;
    [exact (required_check_emits _ "dateOfBirth" (isValidDate legacyParse) _ _ H
              (fun _ => isValidDate_returns legacyParse _ S4))|].
  constructor;
    [exact (required_check_emits _ "phoneNumber" isValidPhoneNumber _ _ H
              (fun _ => test_returns _ _ S3))|].
  constructor; [apply user_address_emits; assumption|].
  constructor.
Qed.

Lemma ins_amount_emits o k msg :
  has_properties o = true -> emits (ins_amount o k msg) [msg].
Proof.
  intros Ho. unfold ins_amount. rewrite (get_field _ _ Ho). cbn [bind].
  destruct (is_undefined (field o k)); cbn [negb].
  - eexists; split; [reflexivity|]. solve_incl.
  - destruct (not_number_or_below_returns (field o k) 0) as [b ->]. cbn [bind].
    destruct b; eexists; (split; [reflexivity | solve_incl]).
Qed.

Lemma ins_dateOrder_returns o :
  has_properties o = true ->
  coercible (field o "effectiveDate") = true ->
  coercible (field o "terminationDate") = true ->
  exists b : bool,
    ins_dateOrder legacyParse o =
    Ok (if b then ["Termination date must be after effective date"] else []) /\
    (truthy (field o "effectiveDate") && truthy (field o "terminationDate") = true ->
     exists e t, new_Date legacyParse (field o "effectiveDate") = Ok e /\
                 new_Date legacyParse (field o "terminationDate") = Ok t /\
                 b = date_le t e).
Proof.
  intros Ho He Ht. unfold ins_dateOrder. rewrite !(get_field _ _ Ho). cbn [bind].
  destruct (truthy (field o "effectiveDate") && truthy (field o "terminationDate")).
  - destruct (new_Date_returns legacyParse _ He) as [e Ee].
    destruct (new_Date_returns legacyParse _ Ht) as [t Et].
    rewrite Ee, Et. cbn [bind]. exists (date_le t e). split.
    + destruct (date_le t e); reflexivity.
    + intros _. exists e, t. auto.
  - exists false. split; [reflexivity | discriminate].
Qed.

Lemma ins_dateOrder_emits o :
  has_properties o = true ->
  coercible (field o "effectiveDate") = true ->
  coercible (field o "terminationDate") = true ->
  emits (ins_dateOrder legacyParse o)
    ["Termination date must be after effective date"].
Proof.
  intros Ho He Ht. destruct (ins_dateOrder_returns o Ho He Ht) as (b & -> & _).
  eexists; split; [reflexivity|]. destruct b; solve_incl.
Qed.

Lemma insurance_statements_emit insurance :
  insurance_shape insurance = true ->
  Forall2 emits (insurance_statements legacyParse insurance) insurance_messages.
Proof.
  intros H. unfold insurance_shape in H. split_shape H.
  unfold insurance_statements, insurance_messages.
  constructor; [exact (presence_only_emits _ "userId" _ H)|].
  constructor; [exact (required_text_emits _ "insuranceCompany" _ H S8)|].
  constructor; [exact (required_text_emits _ "policyNumber" _ H S7)|].
  constructor;
    [exact (required_member_emits _ "planType" isValidPlanType _ _ _ _ H planType_join)|].
  constructor; [exact (required_text_emits _ "planName" _ H S6)|].
  constructor;
    [exact (required_check_emits _ "rxBIN" isValidRxBIN _ _ H
              (fun _ => test_returns _ _ S5))|].
  constructor; [apply ins_amount_emits; assumption|].
  constructor; [apply ins_amount_emits; assumption|].
  constructor; [apply ins_amount_emits; assumption|].
  constructor; [apply ins_amount_emits; assumption|].
  constructor;
    [exact (required_check_emits _ "effectiveDate" (isValidDate legacyParse) _ _ H
              (fun _ => isValidDate_returns legacyParse _ S0))|].
  constructor;
    [exact (optional_check_emits _ "terminationDate" (isValidDate legacyParse) _ H
              (fun _ => isValidDate_returns legacyParse _ S))|].
  constructor; [apply ins_dateOrder_emits; assumption|].
  constructor;
    [exact (ceiling_emits _ "deductibleMet" "deductible" _ H S3 S4)|].
  constructor;
    [exact (ceiling_emits _ "outOfPocketMet" "outOfPocketMax" _ H S1 S2)|].
  constructor.
Qed.

Lemma rx_count_run o k floor required range :
  has_properties o = true ->
  exists b, not_number_or_below (field o k) floor = Ok b /\
    rx_count o k floor required range =
    Ok (if is_undefined (field o k) || is_null (field o k) then [required]
        else if b then [range] else []).
Proof.
  intros Ho. destruct (not_number_or_below_returns (field o k) floor) as [b Hb].
  exists b. split; [assumption|].
  unfold rx_count. rewrite (get_field _ _ Ho). cbn [bind].
  destruct (is_undefined (field o k) || is_null (field o k)); [reflexivity|].
  rewrite Hb. cbn [bind]. destruct b; reflexivity.
Qed.

Lemma rx_count_emits o k floor required range :
  has_properties o = true ->
  emits (rx_count o k floor required range) [required; range].
Proof.
  intros Ho. destruct (rx_count_run o k floor required range Ho) as (b & _ & ->).
  eexists; split; [reflexivity|].
  destruct (is_undefined (field o k) || is_null (field o k)); [|destruct b];
    solve_incl.
Qed.

Lemma rx_refillsRemaining_run o :
  has_properties o = true ->
  coercible (field o "refillsRemaining") = true ->
  coercible (field o "refillsAllowed") = true ->
  exists bad over : bool,
    not_number_or_below (field o "refillsRemaining") 0 = Ok bad /\
    js_gt (field o "refillsRemaining") (field o "refillsAllowed") = Ok over /\
    rx_refillsRemaining o =
    Ok (if is_undefined (field o "refillsRemaining") then []
        else ((if bad then ["Refills remaining must be a non-negative number"] else [])
              ++ (if over then ["Refills remaining cannot exceed refills allowed"] else []))%list).
Proof.
  intros Ho Hr Ha.
  destruct (not_number_or_below_returns (field o "refillsRemaining") 0) as [bad Hb].
  destruct (js_gt_returns _ _ Hr Ha) as [over Hover].
  exists bad, over. repeat split; try assumption.
  unfold rx_refillsRemaining. rewrite (get_field _ _ Ho). cbn [bind].
  destruct (is_undefined (field o "refillsRemaining")); cbn [negb]; [reflexivity|].
  cbn [block]. rewrite Hb, (get_field _ _ Ho). cbn [bind].
  rewrite Hover. cbn [bind].
  destruct bad, over; reflexivity.
Qed.

Lemma rx_refillsRemaining_emits o :
  has_properties o = true ->
  coercible (field o "refillsRemaining") = true ->
  coercible (field o "refillsAllowed") = true ->
  emits (rx_refillsRemaining o)
    [ "Refills remaining must be a non-negative number";
      "Refills remaining cannot exceed refills allowed" ].
Proof.
  intros Ho Hr Ha.
  destruct (rx_refillsRemaining_run o Ho Hr Ha) as (bad & over & _ & _ & ->).
  eexists; split; [reflexivity|].
  destruct (is_undefined (field o "refillsRemaining")); [|destruct bad, over];
    solve_incl.
Qed.

Lemma rx_status_run o :
  has_properties o = true ->
  rx_status o =
  Ok (if truthy (field o "status") && negb (isValidPrescriptionStatus (field o "status"))
      then ["Invalid prescription status. Must be one of: " ++ prescriptionStatusList]
      else []).
Proof.
  intros Ho. unfold rx_status. rewrite (get_field _ _ Ho). cbn [bind].
  destruct (truthy (field o "status")
            && negb (isValidPrescriptionStatus (field o "status"))); reflexivity.
Qed.

Lemma rx_status_emits o :
  has_properties o = true ->
  emits (rx_status o)
    ["Invalid prescription status. Must be one of: " ++ prescriptionStatusList].
Proof.
  intros Ho. rewrite (rx_status_run _ Ho).
  eexists; split; [reflexivity|].
  destruct (truthy (field o "status")
            && negb (isValidPrescriptionStatus (field o "status"))); solve_incl.
Qed.

Lemma prescription_statements_emit prescription :
  prescription_shape prescription = true ->
  Forall2 emits (prescription_statements legacyParse prescription)
    prescription_messages.
Proof.
  intros H. unfold prescription_shape in H. split_shape H.
  unfold prescription_statements, prescription_messages.
  constructor; [exact (presence_only_emits _ "userId" _ H)|].
  constructor; [exact (required_text_emits _ "medicationName" _ H S8)|].
  constructor;
    [exact (required_member_emits _ "medicationForm" isValidMedicationForm _ _ _ _ H
              medicationForm_join)|].
  constructor; [exact (required_text_emits _ "strength" _ H S7)|].
  constructor;
    [exact (optional_check_emits _ "ndc" isValidNDC _ H
              (fun _ => test_returns _ _ S6))|].
  constructor; [exact (required_text_emits _ "dosageInstructions" _ H S5)|].
  constructor; [apply rx_count_emits; assumption|].
  constructor; [apply rx_count_emits; assumption|].
  constructor; [apply rx_count_emits; assumption|].
  constructor; [apply rx_refillsRemaining_emits; assumption|].
  constructor; [exact (required_text_emits _ "prescriberName" _ H S2)|].
  constructor;
    [exact (required_check_emits _ "prescriberNPI" isValidNPI _ _ H
              (fun _ => test_returns _ _ S1))|].
  constructor;
    [exact (required_check_emits _ "prescribedDate" (isValidDate legacyParse) _ _ H
              (fun _ => isValidDate_returns legacyParse _ S0))|].
  constructor; [apply rx_status_emits; assumption|].
  constructor;
    [exact (optional_check_emits _ "pharmacyNPI" isValidNPI _ H
              (fun _ => test_returns _ _ S))|].
  constructor.
Qed.

End Validators.

(** ** Reading the outcome of a sequence of statements *)

Lemma Forall2_cons_l (A B : Type) (R : A -> B -> Prop) a l outs :
  Forall2 R (a :: l) outs ->
  exists b outs', outs = b :: outs' /\ R a b /\ Forall2 R l outs'.
Proof. intros H. inversion H; subst. eauto. Qed.

Lemma Forall2_nil_l (A B : Type) (R : A -> B -> Prop) outs :
  Forall2 R [] outs -> outs = [].
Proof. intros H. inversion H. reflexivity. Qed.

Lemma Forall2_cons_both (A B : Type) (R : A -> B -> Prop) a l b l' :
  Forall2 R (a :: l) (b :: l') -> R a b /\ Forall2 R l l'.
Proof. intros H. inversion H; subst. auto. Qed.

Lemma runs_to_functional s l l' : runs_to s l -> s = Ok l' -> l = l'.
Proof. unfold runs_to. intros -> E. injection E as ->. reflexivity. Qed.

Lemma not_in_app (m : string) l1 l2 :
  ~ In m l1 -> ~ In m l2 -> ~ In m (l1 ++ l2)%list.
Proof. intros H1 H2 H. apply in_app_or in H as [H | H]; auto. Qed.

Lemma not_in_incl (m : string) l msgs :
  incl l msgs -> existsb (String.eqb m) msgs = false -> ~ In m l.
Proof.
  intros Hi He Hin. apply Hi in Hin.
  assert (existsb (String.eqb m) msgs = true); [|congruence].
  apply existsb_exists. exists m. split; [assumption | apply String.eqb_refl].
Qed.

(** Splits the outcome of a validator into the outcomes of its statements:
    one [runs_to] and one [incl] hypothesis per statement. *)
Ltac split_outcomes :=
  repeat match goal with
  | H : Forall2 runs_to (_ :: _) _ |- _ =>
      let l := fresh "l" in let R := fresh "R" in
      apply Forall2_cons_l in H as (l & ? & -> & R & H)
  | H : Forall2 runs_to [] _ |- _ => apply Forall2_nil_l in H as ->
  | H : Forall2 (@incl string) (_ :: _) (_ :: _) |- _ =>
      let I := fresh "I" in
      apply Forall2_cons_both in H as (I & H)
  | H : Forall2 (@incl string) [] _ |- _ => clear H
  end.

(** [m] is pushed by no statement: each outcome is a list that is known,
    or is included in a table that does not hold [m]. *)
Ltac absent_everywhere :=
  cbn [concat];
  repeat apply not_in_app;
  first [ solve [ intros [] ]
        | solve [ eapply not_in_incl; [ eassumption | reflexivity ] ]
        | solve [ eapply not_in_incl; [ apply incl_refl | reflexivity ] ] ].

(** ** The claims *)
Section Claims.

Variable legacyParse : string -> time_value.

Lemma validate_statements e o :
  validate legacyParse e o = finish (block (statements legacyParse e o)).
Proof. destruct e; reflexivity. Qed.

Lemma statements_emit e o :
  shape e o = true -> Forall2 emits (statements legacyParse e o) (messages e).
Proof.
  destruct e; simpl; intros H.
  - apply user_statements_emit; assumption.
  - apply insurance_statements_emit; assumption.
  - apply prescription_statements_emit; assumption.
Qed.

(** C2, as amended.  For every record whose free-text fields (and the
    state code) hold a string or a falsy value and whose pattern-checked,
    date and amount fields hold a value with a string conversion, each of
    the three validators returns a result, in which [isValid] says whether
    [errors] is empty.  The remaining fields may hold anything. *)
Theorem validators_return_on_shaped_records (e : entity) (o : value) :
  shape e o = true ->
  exists r, validate legacyParse e o = Ok r /\
            (isValid r = true <-> errors r = []).
Proof.
  intros H. rewrite validate_statements.
  destruct (validator_run _ _ (statements_emit e o H)) as (outs & _ & _ & ->).
  eexists; split; [reflexivity|]. simpl.
  destruct (concat outs); simpl; split; intros; congruence.
Qed.

(** C5.  [validateUser({})] is invalid with exactly the six presence
    errors, in source order. *)
Theorem validateUser_empty_record :
  validateUser legacyParse (VObj []) =
  Ok {| isValid := false;
        errors := [ "Email is required"; "First name is required";
                    "Last name is required"; "Date of birth is required";
                    "Phone number is required"; "Address is required" ] |}.
Proof. reflexivity. Qed.

(** C6, evaluated on the engine of Node.js.  ["2023-02-31"] has the digit
    grouping, February 2023 has 28 days, and [isValidDate] accepts the
    string all the same: the date parser takes any day up to 31 and
    [new Date] rolls the excess over into March. *)
Theorem isValidDate_accepts_february_31 :
  test dateRegex (VStr "2023-02-31") = Ok true /\
  DaysInMonth 2023 2 = 28 /\
  isValidDate legacyParse (VStr "2023-02-31") = Ok true /\
  new_Date legacyParse (VStr "2023-02-31") = new_Date legacyParse (VStr "2023-03-03").
Proof. repeat split; reflexivity. Qed.

Lemma includes_strings (table : list string) (v : value) :
  Array_includes (map VStr table) v = true <-> exists s, v = VStr s /\ In s table.
Proof.
  unfold Array_includes. rewrite existsb_exists. split.
  - intros (x & Hx & E). apply in_map_iff in Hx as (t & <- & Ht).
    destruct v; simpl in E; try discriminate.
    apply String.eqb_eq in E. subst. eauto.
  - intros (t & -> & Ht). exists (VStr t). split.
    + apply in_map; assumption.
    + simpl. apply String.eqb_refl.
Qed.

Lemma member_not_lower (table : list string) (v : value) (s : string) :
  forallb (fun t => String.eqb (toUpperCase t) t) table = true ->
  toUpperCase s <> s ->
  Array_includes (map VStr table) (VStr s) = false.
Proof.
  intros Hup Hs. destruct (Array_includes (map VStr table) (VStr s)) eqn:E;
    [|reflexivity].
  apply includes_strings in E as (t & Et & Ht). injection Et as <-.
  rewrite forallb_forall in Hup. apply Hup, String.eqb_eq in Ht. contradiction.
Qed.

(** C7.  Each membership test is [true] exactly on the strings declared in
    its table, so it is [false] on every other value; a string that is not
    its own upper-case form (every declared code is) is no member, and
    neither is the empty string. *)
Theorem vocabulary_membership_is_verbatim :
  (forall v, isValidPlanType v = true <-> exists s, v = VStr s /\ In s planTypes) /\
  (forall v, isValidMedicationForm v = true <->
             exists s, v = VStr s /\ In s medicationForms) /\
  (forall v, isValidPrescriptionStatus v = true <->
             exists s, v = VStr s /\ In s prescriptionStatuses) /\
  (forall s, toUpperCase s <> s ->
             isValidPlanType (VStr s) = false /\
             isValidMedicationForm (VStr s) = false /\
             isValidPrescriptionStatus (VStr s) = false) /\
  isValidPlanType (VStr "hmo") = false /\
  isValidMedicationForm (VStr "Tablet") = false /\
  isValidPrescriptionStatus (VStr "pending") = false /\
  isValidPlanType (VStr "") = false /\
  isValidMedicationForm (VStr "") = false /\
  isValidPrescriptionStatus (VStr "") = false.
Proof.
  split; [intros v; exact (includes_strings planTypes v)|].
  split; [intros v; exact (includes_strings medicationForms v)|].
  split; [intros v; exact (includes_strings prescriptionStatuses v)|].
  split; [|repeat split; reflexivity].
  intros s Hs. repeat split.
  - exact (member_not_lower planTypes (VStr s) s eq_refl Hs).
  - exact (member_not_lower medicationForms (VStr s) s eq_refl Hs).
  - exact (member_not_lower prescriptionStatuses (VStr s) s eq_refl Hs).
Qed.

Lemma js_gt_undefined a :
  coercible a = true -> js_gt a VUndefined = Ok false.
Proof.
  intros Ha. apply ToPrimitive_returns in Ha as (p & Ep & Pp).
  unfold js_gt, IsLessThan. rewrite Ep. cbn [bind ToPrimitive].
  destruct p; try discriminate; unfold ToNumber;
    cbn [bind ToPrimitive num_is_nan]; rewrite ?orb_true_r; reflexivity.
Qed.

(** C10, as amended.  When the ceiling reads as [undefined] (the property
    is missing, or holds [undefined]), the validator returns and its errors
    do not hold the ceiling message, whatever the met or remaining amount
    is.  A ceiling that is [null] is not covered: it is compared as zero. *)
Theorem no_ceiling_no_ceiling_error (c : ceiling_check) (o : value) :
  shape (ceiling_entity c) o = true ->
  field o (ceiling_field c) = VUndefined ->
  exists r, validate legacyParse (ceiling_entity c) o = Ok r /\
            ~ In (ceiling_message c) (errors r).
Proof.
  intros Hs Hf. rewrite validate_statements.
  destruct (validator_run _ _ (statements_emit _ o Hs)) as (outs & Ho & Hm & ->).
  eexists; split; [reflexivity|]. cbn [errors].
  destruct c; cbn [ceiling_entity ceiling_field ceiling_message] in *;
    cbn [statements messages] in *;
    unfold insurance_statements, insurance_messages,
      prescription_statements, prescription_messages in *;
    unfold insurance_shape, prescription_shape in Hs; cbn [shape] in Hs;
    split_shape Hs; split_outcomes.
  - match goal with R : runs_to (ins_deductibleCeiling _) ?l |- _ =>
      destruct (ceiling_returns o "deductibleMet" "deductible"
                  "Deductible met cannot exceed total deductible"
                  ltac:(assumption) ltac:(assumption) ltac:(assumption))
        as (over & Hover & Hrun);
      rewrite Hf, js_gt_undefined in Hover by assumption;
      injection Hover as <-;
      pose proof (runs_to_functional _ _ _ R Hrun); subst l
    end.
    absent_everywhere.
  - match goal with R : runs_to (ins_outOfPocketCeiling _) ?l |- _ =>
      destruct (ceiling_returns o "outOfPocketMet" "outOfPocketMax"
                  "Out of pocket met cannot exceed out of pocket max"
                  ltac:(assumption) ltac:(assumption) ltac:(assumption))
        as (over & Hover & Hrun);
      rewrite Hf, js_gt_undefined in Hover by assumption;
      injection Hover as <-;
      pose proof (runs_to_functional _ _ _ R Hrun); subst l
    end.
    absent_everywhere.
  - match goal with R : runs_to (rx_refillsRemaining _) ?l |- _ =>
      destruct (rx_refillsRemaining_run o
                  ltac:(assumption) ltac:(assumption) ltac:(assumption))
        as (bad & over & _ & Hover & Hrun);
      rewrite Hf, js_gt_undefined in Hover by assumption;
      injection Hover as <-;
      pose proof (runs_to_functional _ _ _ R Hrun); subst l
    end.
    cbn [concat]. repeat apply not_in_app;
      try solve [ intros [] ];
      try solve [ eapply not_in_incl; [ eassumption | reflexivity ] ].
    destruct (is_undefined (field o "refillsRemaining")); [intros []|].
    destruct bad; simpl; [intros [E | []]; discriminate E | intros []].
Qed.

Lemma js_gt_of_undefined b :
  coercible b = true -> js_gt VUndefined b = Ok false.
Proof.
  intros Hb. apply ToPrimitive_returns in Hb as (p & Ep & Pp).
  unfold js_gt, IsLessThan. rewrite Ep. cbn [bind ToPrimitive].
  destruct p; try discriminate; unfold ToNumber;
    cbn [bind ToPrimitive num_is_nan]; rewrite ?orb_true_r; reflexivity.
Qed.

(** Every message of [msgs] is absent from [after]. *)
Ltac all_absent :=
  let m := fresh "m" in
  let Hm := fresh "Hm" in
  intros m Hm; simpl in Hm;
  repeat (destruct Hm as [<- | Hm]; [absent_everywhere |]);
  contradiction.

Lemma distinct_NoDup l : distinct l = true -> NoDup l.
Proof.
  induction l as [| x l IH]; simpl; intros H; constructor.
  - apply andb_true_iff in H as [H _]. intros Hin.
    assert (E : existsb (String.eqb x) l = true).
    { apply existsb_exists. exists x. split; [assumption | apply String.eqb_refl]. }
    rewrite E in H. discriminate.
  - apply andb_true_iff in H as [_ H]. auto.
Qed.

Lemma incl_table (l table : list string) :
  forallb (fun m => existsb (String.eqb m) table) l = true -> incl l table.
Proof.
  intros H m Hm. rewrite forallb_forall in H. apply H in Hm.
  apply existsb_exists in Hm as (x & Hx & E). apply String.eqb_eq in E.
  subst. assumption.
Qed.

(** Every outcome is included in the table: it is empty, or one message of
    the table, or included in the messages of its statement, which the
    table holds. *)
Ltac all_included :=
  repeat apply incl_app;
  first [ solve [ apply incl_nil_l ]
        | solve [ eapply incl_tran;
                  [ eassumption | apply incl_table; reflexivity ] ]
        | solve [ apply incl_table; reflexivity ] ].

(** On a well-shaped record on which the comparison of a cross-field check
    holds, the validator returns an invalid result whose errors hold the
    message of the check, whatever the other checks found: before it come
    messages of the checks that stand before it in the source, after it
    messages of the checks that stand after it. *)
Lemma violated_check_is_reported (c : cross_check) (o : value) :
  shape (cross_entity c) o = true ->
  violated legacyParse c o = true ->
  exists r before after,
    validate legacyParse (cross_entity c) o = Ok r /\
    isValid r = false /\
    errors r = (before ++ cross_message c :: after)%list /\
    incl before (pushed_before c) /\
    incl after (pushed_after c).
Proof.
  intros Hs Hv. rewrite validate_statements.
  destruct (validator_run _ _ (statements_emit _ o Hs)) as (outs & Ho & Hm & ->).
  assert (Hfin : forall before after,
    concat outs = (before ++ cross_message c :: after)%list ->
    incl before (pushed_before c) ->
    incl after (pushed_after c) ->
    exists r before after,
      Ok {| isValid := (List.length (concat outs) =? 0)%nat;
            errors := concat outs |} = Ok r /\
      isValid r = false /\
      errors r = (before ++ cross_message c :: after)%list /\
      incl before (pushed_before c) /\
      incl after (pushed_after c)).
  { intros before after E Hbefore Hafter. eexists. exists before, after.
    split; [reflexivity|]. cbn [isValid errors].
    split; [|split; [|split]; assumption].
    apply (not_valid_of_In (cross_message c)). rewrite E.
    apply in_or_app. right. left. reflexivity. }
  destruct c as [| []];
    cbn [cross_entity ceiling_entity cross_message ceiling_message
         violated amount_field ceiling_field] in *;
    cbn [statements messages shape] in *;
    unfold insurance_statements, insurance_messages,
      prescription_statements, prescription_messages in *;
    unfold insurance_shape, prescription_shape in Hs;
    split_shape Hs; split_outcomes.
  - destruct (ins_dateOrder_returns legacyParse o
                ltac:(assumption) ltac:(assumption) ltac:(assumption))
      as (b & Hrun & Hb).
    apply andb_true_iff in Hv as [Ht Hv].
    destruct (Hb Ht) as (e & t & Ee & Et & ->).
    rewrite Ee, Et in Hv. rewrite Hv in Hrun.
    match goal with R : runs_to (ins_dateOrder _ _) ?l |- _ =>
      pose proof (runs_to_functional _ _ _ R Hrun); subst l end.
    cbn [concat].
    apply (Hfin (l ++ l0 ++ l1 ++ l2 ++ l3 ++ l4 ++ l5 ++ l6 ++ l7 ++ l8
                   ++ l9 ++ l10)%list (l12 ++ l13)%list).
    + cbn [concat]. rewrite <- !app_assoc, app_nil_r. reflexivity.
    + all_included.
    + all_included.
  - destruct (ceiling_returns o "deductibleMet" "deductible"
                "Deductible met cannot exceed total deductible"
                ltac:(assumption) ltac:(assumption) ltac:(assumption))
      as (over & Hover & Hrun).
    rewrite Hover in Hv. subst over.
    match goal with R : runs_to (ins_deductibleCeiling _) ?l |- _ =>
      pose proof (runs_to_functional _ _ _ R Hrun); subst l end.
    cbn [concat].
    apply (Hfin (l ++ l0 ++ l1 ++ l2 ++ l3 ++ l4 ++ l5 ++ l6 ++ l7 ++ l8
                   ++ l9 ++ l10 ++ l11)%list l13).
    + cbn [concat]. rewrite <- !app_assoc, app_nil_r. reflexivity.
    + all_included.
    + all_included.
  - destruct (ceiling_returns o "outOfPocketMet" "outOfPocketMax"
                "Out of pocket met cannot exceed out of pocket max"
                ltac:(assumption) ltac:(assumption) ltac:(assumption))
      as (over & Hover & Hrun).
    rewrite Hover in Hv. subst over.
    match goal with R : runs_to (ins_outOfPocketCeiling _) ?l |- _ =>
      pose proof (runs_to_functional _ _ _ R Hrun); subst l end.
    cbn [concat].
    apply (Hfin (l ++ l0 ++ l1 ++ l2 ++ l3 ++ l4 ++ l5 ++ l6 ++ l7 ++ l8
                   ++ l9 ++ l10 ++ l11 ++ l12)%list []).
    + cbn [concat]. rewrite <- !app_assoc. reflexivity.
    + all_included.
    + apply incl_nil_l.
  - destruct (rx_refillsRemaining_run o
                ltac:(assumption) ltac:(assumption) ltac:(assumption))
      as (bad & over & _ & Hover & Hrun).
    rewrite Hover in Hv. subst over.
    destruct (is_undefined (field o "refillsRemaining")) eqn:U.
    { destruct (field o "refillsRemaining"); try discriminate U.
      rewrite js_gt_of_undefined in Hover by assumption. discriminate Hover. }
    match goal with R : runs_to (rx_refillsRemaining _) ?l |- _ =>
      pose proof (runs_to_functional _ _ _ R Hrun); subst l end.
    cbn [concat].
    apply (Hfin (l ++ l0 ++ l1 ++ l2 ++ l3 ++ l4 ++ l5 ++ l6 ++ l7
                   ++ (if bad then ["Refills remaining must be a non-negative number"]
                       else []))%list
                (l9 ++ l10 ++ l11 ++ l12 ++ l13)%list).
    + cbn [concat]. rewrite <- !app_assoc, app_nil_r. reflexivity.
    + repeat apply incl_app;
        first [ solve [ eapply incl_tran;
                        [ eassumption | apply incl_table; reflexivity ] ]
              | destruct bad; apply incl_table; reflexivity ].
    + all_included.
Qed.

Lemma absent_or_empty_falsy v : absent_or_empty v = true -> truthy v = false.
Proof.
  destruct v; simpl; try discriminate; try reflexivity.
  intros E. rewrite E. reflexivity.
Qed.

Lemma absent_or_blank_blank v : absent_or_blank v = true -> blank v = Ok true.
Proof.
  destruct v; simpl; try discriminate; try reflexivity.
  intros E. unfold blank. destruct (truthy (VStr s)); [|reflexivity].
  cbn [negb call_trim bind]. apply String.eqb_eq in E. rewrite E. reflexivity.
Qed.

Lemma user_address_missing user :
  has_properties user = true -> truthy (field user "address") = false ->
  user_address user = Ok ["Address is required"].
Proof.
  intros Ho T. unfold user_address. rewrite (get_field _ _ Ho). cbn [bind].
  rewrite T. reflexivity.
Qed.

Lemma user_address_present user :
  has_properties user = true -> truthy (field user "address") = true ->
  textual (field (field user "address") "street") = true ->
  textual (field (field user "address") "city") = true ->
  textual (field (field user "address") "state") = true ->
  coercible (field (field user "address") "zipCode") = true ->
  has_properties (field user "address") = true /\
  exists a b c d,
    runs_to (address_street (field user "address")) a /\
    runs_to (address_city (field user "address")) b /\
    runs_to (address_state (field user "address")) c /\
    runs_to (address_zipCode (field user "address")) d /\
    incl a ["Street address is required"] /\
    incl b ["City is required"] /\
    incl c ["State is required";
            "Invalid state code (must be 2-letter code like CA, NY)"] /\
    incl d ["ZIP code is required"; "Invalid ZIP code format"] /\
    user_address user = Ok (a ++ b ++ c ++ d ++ [])%list.
Proof.
  intros Ho T Hst Hci Hsa Hz.
  pose proof (has_properties_truthy _ T) as Ha. split; [assumption|].
  destruct (required_text_emits _ "street" "Street address is required" Ha Hst)
    as (a & Ra & Ia).
  destruct (required_text_emits _ "city" "City is required" Ha Hci)
    as (b & Rb & Ib).
  destruct (required_check_emits _ "state" isValidStateCode "State is required"
              "Invalid state code (must be 2-letter code like CA, NY)" Ha
              (isValidStateCode_returns _ Hsa)) as (c & Rc & Ic).
  destruct (required_check_emits _ "zipCode" isValidZipCode "ZIP code is required"
              "Invalid ZIP code format" Ha (fun _ => test_returns _ _ Hz))
    as (d & Rd & Id).
  exists a, b, c, d. repeat split; try assumption.
  unfold user_address. rewrite (get_field _ _ Ho). cbn [bind]. rewrite T.
  cbn [negb].
  change (block [address_street (field user "address");
                 address_city (field user "address");
                 address_state (field user "address");
                 address_zipCode (field user "address")] =
          Ok (concat [a; b; c; d])).
  apply block_run. repeat constructor; assumption.
Qed.

(** Finds the message in a concatenation of outcomes, some of them known. *)
Ltac find_in :=
  first [ solve [ simpl; auto 8 ]
        | apply in_or_app; first [ left; find_in | right; find_in ] ].

(** Replaces the outcome of the statement that [E] evaluates. *)
Ltac focal E :=
  match type of E with
  | ?s = Ok _ =>
      match goal with
      | R : runs_to ?s' ?l |- _ =>
          unify s s'; pose proof (runs_to_functional _ _ _ R E); subst l
      end
  end.

Ltac conclude_required req :=
  split; [ apply (not_valid_of_In req); find_in
         | split; [ find_in | all_absent ] ].

(** C3, as amended.  On a well-shaped record with a required field
    missing, the validator returns an invalid result that holds the presence
    message of the field and none of its format or range messages. *)
Theorem missing_field_gets_presence_error_only (f : required_field) (o : value) :
  shape (field_entity f) o = true ->
  missing f o = true ->
  exists r, validate legacyParse (field_entity f) o = Ok r /\
            isValid r = false /\
            In (presence_message f) (errors r) /\
            forall m, In m (format_messages f) -> ~ In m (errors r).
Proof.
  intros Hs Hmiss. rewrite validate_statements.
  destruct (validator_run _ _ (statements_emit _ o Hs)) as (outs & Ho & Hm & ->).
  eexists; split; [reflexivity|]. cbn [isValid errors].
  destruct f;
    cbn [field_entity missing presence_message format_messages] in *;
    cbn [statements messages shape] in *;
    unfold user_statements, user_messages, insurance_statements,
      insurance_messages, prescription_statements, prescription_messages in *;
    unfold user_shape, insurance_shape, prescription_shape in Hs;
    split_shape Hs; split_outcomes.
  - pose proof (required_check_missing o "email" isValidEmail
                  "Email is required" "Invalid email format" Hs
                  (absent_or_empty_falsy _ Hmiss)) as E.
    focal E. conclude_required "Email is required".
  - pose proof (required_name_missing o "firstName" "First name is required" "First name must be 100 characters or less" Hs
                  (absent_or_blank_blank _ Hmiss)) as E.
    focal E. conclude_required "First name is required".
  - pose proof (required_name_missing o "lastName" "Last name is required" "Last name must be 100 characters or less" Hs
                  (absent_or_blank_blank _ Hmiss)) as E.
    focal E. conclude_required "Last name is required".
  - pose proof (required_check_missing o "dateOfBirth" (isValidDate legacyParse)
                  "Date of birth is required" "Date of birth must be in YYYY-MM-DD format" Hs
                  (absent_or_empty_falsy _ Hmiss)) as E.
    focal E. conclude_required "Date of birth is required".
  - pose proof (required_check_missing o "phoneNumber" isValidPhoneNumber
                  "Phone number is required" "Invalid phone number format" Hs
                  (absent_or_empty_falsy _ Hmiss)) as E.
    focal E. conclude_required "Phone number is required".
  - pose proof (user_address_missing o Hs (absent_or_empty_falsy _ Hmiss)) as E.
    focal E. conclude_required "Address is required".
  - apply andb_true_iff in Hmiss as [T Hmiss].
    destruct (user_address_present o Hs T ltac:(assumption) ltac:(assumption)
                ltac:(assumption) ltac:(assumption))
      as (Ha & a & b & c & d & Ra & Rb & Rc & Rd & Ia & Ib & Ic & Id & E).
    focal E.
    pose proof (required_text_run (field o "address") "street" "Street address is required" true Ha
                  (absent_or_blank_blank _ Hmiss)) as E'.
    focal E'. conclude_required "Street address is required".
  - apply andb_true_iff in Hmiss as [T Hmiss].
    destruct (user_address_present o Hs T ltac:(assumption) ltac:(assumption)
                ltac:(assumption) ltac:(assumption))
      as (Ha & a & b & c & d & Ra & Rb & Rc & Rd & Ia & Ib & Ic & Id & E).
    focal E.
    pose proof (required_text_run (field o "address") "city" "City is required" true Ha
                  (absent_or_blank_blank _ Hmiss)) as E'.
    focal E'. conclude_required "City is required".
  - apply andb_true_iff in Hmiss as [T Hmiss].
    destruct (user_address_present o Hs T ltac:(assumption) ltac:(assumption)
                ltac:(assumption) ltac:(assumption))
      as (Ha & a & b & c & d & Ra & Rb & Rc & Rd & Ia & Ib & Ic & Id & E).
    focal E.
    pose proof (required_check_missing (field o "address") "state" isValidStateCode
                  "State is required" "Invalid state code (must be 2-letter code like CA, NY)" Ha (absent_or_empty_falsy _ Hmiss)) as E'.
    focal E'. conclude_required "State is required".
  - apply andb_true_iff in Hmiss as [T Hmiss].
    destruct (user_address_present o Hs T ltac:(assumption) ltac:(assumption)
                ltac:(assumption) ltac:(assumption))
      as (Ha & a & b & c & d & Ra & Rb & Rc & Rd & Ia & Ib & Ic & Id & E).
    focal E.
    pose proof (required_check_missing (field o "address") "zipCode" isValidZipCode
                  "ZIP code is required" "Invalid ZIP code format" Ha (absent_or_empty_falsy _ Hmiss)) as E'.
    focal E'. conclude_required "ZIP code is required".
  - pose proof (presence_only_run o "userId" "User ID is required" Hs) as E.
    rewrite (absent_or_empty_falsy _ Hmiss) in E.
    focal E. conclude_required "User ID is required".
  - pose proof (required_text_run o "insuranceCompany" "Insurance company name is required" true Hs
                  (absent_or_blank_blank _ Hmiss)) as E.
    focal E. conclude_required "Insurance company name is required".
  - pose proof (required_text_run o "policyNumber" "Policy number is required" true Hs
                  (absent_or_blank_blank _ Hmiss)) as E.
    focal E. conclude_required "Policy number is required".
  - pose proof (required_member_run o "planType" isValidPlanType InsurancePlanType
                  "Plan type is required" "Invalid plan type. Must be one of: " _ Hs planType_join) as E.
    rewrite (absent_or_empty_falsy _ Hmiss) in E.
    focal E. conclude_required "Plan type is required".
  - pose proof (required_text_run o "planName" "Plan name is required" true Hs
                  (absent_or_blank_blank _ Hmiss)) as E.
    focal E. conclude_required "Plan name is required".
  - pose proof (required_check_missing o "rxBIN" isValidRxBIN
                  "RxBIN is required" "RxBIN must be exactly 6 digits" Hs
                  (absent_or_empty_falsy _ Hmiss)) as E.
    focal E. conclude_required "RxBIN is required".
  - pose proof (required_check_missing o "effectiveDate" (isValidDate legacyParse)
                  "Effective date is required" "Effective date must be in YYYY-MM-DD format" Hs
                  (absent_or_empty_falsy _ Hmiss)) as E.
    focal E. conclude_required "Effective date is required".
  - pose proof (presence_only_run o "userId" "User ID is required" Hs) as E.
    rewrite (absent_or_empty_falsy _ Hmiss) in E.
    focal E. conclude_required "User ID is required".
  - pose proof (required_text_run o "medicationName" "Medication name is required" true Hs
                  (absent_or_blank_blank _ Hmiss)) as E.
    focal E. conclude_required "Medication name is required".
  - pose proof (required_member_run o "medicationForm" isValidMedicationForm MedicationForm
                  "Medication form is required" "Invalid medication form. Must be one of: " _ Hs medicationForm_join) as E.
    rewrite (absent_or_empty_falsy _ Hmiss) in E.
    focal E. conclude_required "Medication form is required".
  - pose proof (required_text_run o "strength" strengthRequired true Hs
                  (absent_or_blank_blank _ Hmiss)) as E.
    focal E. conclude_required strengthRequired.
  - pose proof (required_text_run o "dosageInstructions" "Dosage instructions are required" true Hs
                  (absent_or_blank_blank _ Hmiss)) as E.
    focal E. conclude_required "Dosage instructions are required".
  - destruct (rx_count_run o "quantity" 1 "Quantity is required" "Quantity must be a positive number" Hs) as (b & _ & E).
    unfold absent in Hmiss. rewrite Hmiss in E.
    focal E. conclude_required "Quantity is required".
  - destruct (rx_count_run o "daysSupply" 1 "Days supply is required" "Days supply must be a positive number" Hs) as (b & _ & E).
    unfold absent in Hmiss. rewrite Hmiss in E.
    focal E. conclude_required "Days supply is required".
  - destruct (rx_count_run o "refillsAllowed" 0 "Refills allowed is required" "Refills allowed must be a non-negative number" Hs) as (b & _ & E).
    unfold absent in Hmiss. rewrite Hmiss in E.
    focal E. conclude_required "Refills allowed is required".
  - pose proof (required_text_run o "prescriberName" "Prescriber name is required" true Hs
                  (absent_or_blank_blank _ Hmiss)) as E.
    focal E. conclude_required "Prescriber name is required".
  - pose proof (required_check_missing o "prescriberNPI" isValidNPI
                  "Prescriber NPI is required" "Prescriber NPI must be exactly 10 digits" Hs
                  (absent_or_empty_falsy _ Hmiss)) as E.
    focal E. conclude_required "Prescriber NPI is required".
  - pose proof (required_check_missing o "prescribedDate" (isValidDate legacyParse)
                  "Prescribed date is required" "Prescribed date must be in YYYY-MM-DD format" Hs
                  (absent_or_empty_falsy _ Hmiss)) as E.
    focal E. conclude_required "Prescribed date is required".
Qed.

(** C9, as amended.  With [eff] the instant [new Date(effectiveDate)]
    denotes: the insurance is inactive when [eff] is after [now]; inactive
    when a termination date is present and its instant is strictly before
    [now]; in every other case active unless [isActive] is [false], so
    active when the flag is absent.  A termination instant equal to [now]
    is not before it, and leaves the insurance active. *)
Theorem isInsuranceActive_compares_instants
    (now : Z) (insurance : value) (eff : time_value) :
  has_properties insurance = true ->
  new_Date legacyParse (field insurance "effectiveDate") = Ok eff ->
  (date_gt eff (Some now) = true ->
   isInsuranceActive legacyParse now insurance = Ok false) /\
  (forall term,
     truthy (field insurance "terminationDate") = true ->
     new_Date legacyParse (field insurance "terminationDate") = Ok term ->
     date_lt term (Some now) = true ->
     isInsuranceActive legacyParse now insurance = Ok false) /\
  (date_gt eff (Some now) = false ->
   truthy (field insurance "terminationDate") = false \/
   (exists term,
      new_Date legacyParse (field insurance "terminationDate") = Ok term /\
      date_lt term (Some now) = false) ->
   isInsuranceActive legacyParse now insurance =
   Ok (negb (is_false (field insurance "isActive"))) /\
   (field insurance "isActive" = VUndefined ->
    isInsuranceActive legacyParse now insurance = Ok true)) /\
  date_lt (Some now) (Some now) = false.
Proof.
  intros Ho He. unfold isInsuranceActive.
  rewrite (get_field _ _ Ho). cbn [bind]. rewrite He. cbn [bind].
  split; [intros ->; reflexivity|].
  split.
  - intros term T Et Hlt. destruct (date_gt eff (Some now)); [reflexivity|].
    rewrite (get_field _ _ Ho). cbn [bind].
    rewrite T, Et. cbn [bind]. rewrite Hlt. reflexivity.
  - split; [|apply Z.ltb_irrefl].
    intros Hg Hterm. rewrite Hg, (get_field _ _ Ho). cbn [bind].
    assert (E : (if truthy (field insurance "terminationDate")
                 then terminationDate <-
                        new_Date legacyParse (field insurance "terminationDate") ;;
                      Ok (date_lt terminationDate (Some now))
                 else Ok false) = Ok false).
    { destruct Hterm as [T | (term & Et & Hlt)].
      - rewrite T. reflexivity.
      - destruct (truthy (field insurance "terminationDate")); [|reflexivity].
        rewrite Et. cbn [bind]. rewrite Hlt. reflexivity. }
    rewrite E. cbn [bind]. rewrite (get_field _ _ Ho). cbn [bind].
    split; [reflexivity|].
    intros ->. reflexivity.
Qed.

Lemma validStates_codes : validStates = map VStr stateCodes.
Proof. reflexivity. Qed.

Lemma upper_char_of_letter a c :
  same_letter a c = true -> upper_char a = String c "".
Proof.
  unfold same_letter. intros E. apply andb_true_iff in E as [U E].
  apply orb_true_iff in E.
  destruct c as [[] [] [] [] [] [] [] []]; try discriminate U;
    destruct E as [E | E]; apply Ascii.eqb_eq in E; subst a; reflexivity.
Qed.

Lemma toUpperCase_spelled s code :
  spells s code = true -> toUpperCase s = code.
Proof.
  revert code. induction s as [| a s IH]; intros [| c code]; simpl;
    try discriminate; [reflexivity|].
  intros H. apply andb_true_iff in H as [Hc Hs].
  rewrite (upper_char_of_letter _ _ Hc), (IH _ Hs). reflexivity.
Qed.

(** C8, as amended.  The pattern checkers return a boolean on every value
    that has a string conversion; [undefined], [null], the booleans, the
    numbers and the strings have one.  [isValidStateCode] returns [false] on
    [undefined] and [null], returns a boolean on every string, and returns
    [true] on a string that spells one of the codes in some letter case; on
    a boolean and on a number it throws. *)
Theorem format_checkers_on_convertible_values :
  (forall v, coercible v = true ->
     returns (isValidEmail v) = true /\
     returns (isValidPhoneNumber v) = true /\
     returns (isValidDate legacyParse v) = true /\
     returns (isValidZipCode v) = true /\
     returns (isValidRxBIN v) = true /\
     returns (isValidNDC v) = true /\
     returns (isValidNPI v) = true) /\
  coercible VUndefined = true /\
  coercible VNull = true /\
  (forall b, coercible (VBool b) = true) /\
  (forall n, coercible (VNum n) = true) /\
  (forall s, coercible (VStr s) = true) /\
  isValidStateCode VUndefined = Ok false /\
  isValidStateCode VNull = Ok false /\
  (forall s, returns (isValidStateCode (VStr s)) = true) /\
  (forall s code, In code stateCodes -> spells s code = true ->
     isValidStateCode (VStr s) = Ok true) /\
  (forall b, isValidStateCode (VBool b) = Throw TypeError) /\
  (forall n, isValidStateCode (VNum n) = Throw TypeError).
Proof.
  split.
  { intros v Hv.
    assert (T : forall re, returns (test re v) = true).
    { intros re. destruct (test_returns re v Hv) as [b ->]. reflexivity. }
    repeat split; try apply T.
    destruct (isValidDate_returns legacyParse v Hv) as [b ->]. reflexivity. }
  split; [reflexivity|]. split; [reflexivity|].
  split; [intros []; reflexivity|].
  split; [reflexivity|]. split; [reflexivity|].
  split; [reflexivity|]. split; [reflexivity|].
  split; [reflexivity|].
  split; [|split; reflexivity].
  intros s code Hin Hsp. unfold isValidStateCode.
  cbn [optional_toUpperCase bind].
  rewrite (toUpperCase_spelled _ _ Hsp), validStates_codes.
  assert (E : Array_includes (map VStr stateCodes) (VStr code) = true).
  { apply includes_strings. eauto. }
  rewrite E. reflexivity.
Qed.

End Claims.

(** ** Well-formed fields pass their checks *)
Section Fields.

Variable legacyParse : string -> time_value.

Lemma truthy_string s : s <> "" -> truthy (VStr s) = true.
Proof.
  intros H. simpl. destruct (String.eqb_spec s ""); [contradiction | reflexivity].
Qed.

Lemma nonempty_of_chars s c w : chars s = c :: w -> s <> "".
Proof. intros E ->. discriminate E. Qed.

Lemma nonblank_nonempty s : nonblank s -> s <> "".
Proof. intros H ->. apply H. reflexivity. Qed.

Lemma nonblank_blank s : nonblank s -> blank (VStr s) = Ok false.
Proof.
  intros H. unfold blank. rewrite (truthy_string _ (nonblank_nonempty _ H)).
  cbn [negb call_trim bind]. unfold nonblank in H.
  destruct (trim s); [contradiction | reflexivity].
Qed.

Lemma test_string re s : test re (VStr s) = Ok (accepts re (chars s)).
Proof. reflexivity. Qed.

Lemma lang_Chr c : lang (Chr c) [c].
Proof. constructor. apply Ascii.eqb_refl. Qed.

Lemma lang_digits n w : all_digits n w -> lang (Rep n digit) w.
Proof. intros [Hl Hd]. apply lang_Rep; assumption. Qed.

Lemma lang_run w : is_run w -> lang (Plus not_space_at) w.
Proof. intros [Hn Hr]. apply lang_Plus_Cls; assumption. Qed.

Lemma email_format_valid s :
  email_format s -> s <> "" /\ isValidEmail (VStr s) = Ok true.
Proof.
  intros (a & b & c & E & Ha & Hb & Hc). split.
  - destruct a as [| x a]; [destruct Ha; congruence|].
    apply (nonempty_of_chars _ x (a ++ "@"%char :: b ++ "."%char :: c)%list).
    exact E.
  - unfold isValidEmail. rewrite test_string. f_equal.
    apply accepts_lang. rewrite E. unfold emailRegex.
    constructor; [apply lang_run; assumption|].
    change ("@"%char :: b ++ "."%char :: c)%list
      with (["@"%char] ++ b ++ ["."%char] ++ c)%list.
    constructor; [apply lang_Chr|].
    constructor; [apply lang_run; assumption|].
    constructor; [apply lang_Chr | apply lang_run; assumption].
Qed.

Lemma lang_Opt_Chr c w : w = [] \/ w = [c] -> lang (Opt (Chr c)) w.
Proof.
  intros [-> | ->]; [apply L_AltR; constructor | apply L_AltL, lang_Chr].
Qed.

Lemma phone_format_valid s :
  phone_format s -> s <> "" /\ isValidPhoneNumber (VStr s) = Ok true.
Proof.
  intros (plus & one & ds & E & Hp & Ho & Hl & Hd). split.
  - intros ->. destruct plus, one, ds; simpl in *; try discriminate E; lia.
  - unfold isValidPhoneNumber. rewrite test_string. f_equal.
    apply accepts_lang. rewrite E. unfold phoneRegex.
    constructor; [apply lang_Opt_Chr; assumption|].
    constructor; [apply lang_Opt_Chr; assumption|].
    apply lang_Range_Cls; assumption.
Qed.

Lemma digits_nonempty n s : all_digits (S n) (chars s) -> s <> "".
Proof. intros [Hl _] ->. discriminate Hl. Qed.

Lemma digits_format_valid n re s :
  re = Rep (S n) digit -> digits_format (S n) s ->
  s <> "" /\ test re (VStr s) = Ok true.
Proof.
  intros -> H. split; [exact (digits_nonempty _ _ H)|].
  rewrite test_string. f_equal. apply accepts_lang, lang_digits. exact H.
Qed.

Lemma zip_format_valid s :
  zip_format s -> s <> "" /\ isValidZipCode (VStr s) = Ok true.
Proof.
  intros H. split.
  - destruct H as [H | (a & b & E & [Ha _] & _)].
    + exact (digits_nonempty _ _ H).
    + destruct a; [discriminate Ha|]. exact (nonempty_of_chars _ _ _ E).
  - unfold isValidZipCode. rewrite test_string. f_equal.
    apply accepts_lang. unfold zipRegex.
    destruct H as [H | (a & b & E & Ha & Hb)].
    + rewrite <- (app_nil_r (chars s)).
      constructor; [apply lang_digits; assumption | apply L_AltR; constructor].
    + rewrite E. constructor; [apply lang_digits; assumption|].
      apply L_AltL. change ("-"%char :: b) with (["-"%char] ++ b)%list.
      constructor; [apply lang_Chr | apply lang_digits; assumption].
Qed.

Lemma ndc_format_valid s :
  ndc_format s -> s <> "" /\ isValidNDC (VStr s) = Ok true.
Proof.
  intros (a & b & c & E & Ha & Hb & Hc). split.
  - destruct Ha as [Ha _]. destruct a; [discriminate Ha|].
    exact (nonempty_of_chars _ _ _ E).
  - unfold isValidNDC. rewrite test_string. f_equal.
    apply accepts_lang. rewrite E. unfold ndcRegex.
    constructor; [apply lang_digits; assumption|].
    change ("-"%char :: b ++ "-"%char :: c)%list
      with (["-"%char] ++ b ++ ["-"%char] ++ c)%list.
    constructor; [apply lang_Chr|].
    constructor; [apply lang_digits; assumption|].
    constructor; [apply lang_Chr | apply lang_digits; assumption].
Qed.


Lemma date_fields_chars s y m d :
  date_fields s = Some (y, m, d) ->
  exists yy mm dd,
    chars s = (yy ++ "-"%char :: mm ++ "-"%char :: dd)%list /\
    all_digits 4 yy /\ all_digits 2 mm /\ all_digits 2 dd /\
    y = number_of yy /\ m = number_of mm /\ d = number_of dd.
Proof.
  unfold date_fields.
  destruct (chars s) as [| y1 [| y2 [| y3 [| y4 [| h1 [| m1 [| m2 [| h2
    [| d1 [| d2 [| x rest]]]]]]]]]]]; try discriminate.
  destruct (Ascii.eqb_spec h1 "-") as [-> |]; [|discriminate].
  destruct (Ascii.eqb_spec h2 "-") as [-> |]; [|discriminate].
  cbn [andb].
  destruct (forallb is_digit [y1; y2; y3; y4; m1; m2; d1; d2]) eqn:D;
    [|discriminate].
  intros E. injection E as <- <- <-.
  cbn [forallb] in D.
  repeat (apply andb_true_iff in D as [? D]).
  exists [y1; y2; y3; y4], [m1; m2], [d1; d2].
  unfold all_digits. cbn [forallb].
  repeat split;
    repeat match goal with H : is_digit _ = true |- _ => rewrite H; clear H end;
    reflexivity.
Qed.

Lemma date_fields_nonempty s y m d : date_fields s = Some (y, m, d) -> s <> "".
Proof. intros E ->. discriminate E. Qed.

Lemma date_fields_matches s y m d :
  date_fields s = Some (y, m, d) -> test dateRegex (VStr s) = Ok true.
Proof.
  intros E. apply date_fields_chars in E as (yy & mm & dd & E & Hy & Hm & Hd & _).
  rewrite test_string. f_equal. apply accepts_lang. rewrite E. unfold dateRegex.
  constructor; [apply lang_digits; assumption|].
  change ("-"%char :: mm ++ "-"%char :: dd)%list
    with (["-"%char] ++ mm ++ ["-"%char] ++ dd)%list.
  constructor; [apply lang_Chr|].
  constructor; [apply lang_digits; assumption|].
  constructor; [apply lang_Chr | apply lang_digits; assumption].
Qed.

Lemma DaysInMonth_le_31 y m : DaysInMonth y m <= 31.
Proof.
  unfold DaysInMonth.
  destruct (m =? 2); [destruct (is_leap y); lia|].
  destruct ((m =? 4) || (m =? 6) || (m =? 9) || (m =? 11)); lia.
Qed.

Lemma calendar_date_parse s y m d :
  date_fields s = Some (y, m, d) ->
  1 <= m <= 12 -> 1 <= d <= DaysInMonth y m ->
  Date_parse legacyParse s = Some (MakeDay y m d * msPerDay).
Proof.
  intros E Hm Hd. unfold Date_parse. rewrite E.
  pose proof (DaysInMonth_le_31 y m).
  replace ((1 <=? m) && (m <=? 12) && (1 <=? d) && (d <=? 31)) with true;
    [reflexivity|].
  symmetry. repeat (apply andb_true_iff; split); apply Z.leb_le; lia.
Qed.

Lemma calendar_date_valid s :
  calendar_date s ->
  s <> "" /\ isValidDate legacyParse (VStr s) = Ok true.
Proof.
  intros (y & m & d & E & Hm & Hd). split; [exact (date_fields_nonempty _ _ _ _ E)|].
  unfold isValidDate. rewrite (date_fields_matches _ _ _ _ E). cbn [bind negb].
  unfold new_Date. cbn [ToPrimitive bind].
  rewrite (calendar_date_parse _ _ _ _ E Hm Hd). reflexivity.
Qed.

Lemma year_length y :
  DayFromYear (y + 1) = DayFromYear y + 365 + (if is_leap y then 1 else 0).
Proof.
  unfold DayFromYear, is_leap.
  destruct (Z.eqb_spec (y mod 4) 0), (Z.eqb_spec (y mod 100) 0),
    (Z.eqb_spec (y mod 400) 0); cbn [negb andb orb];
    Z.div_mod_to_equations; lia.
Qed.


Lemma DayFromYear_after y n :
  0 <= n -> DayFromYear y + 365 * n <= DayFromYear (y + n).
Proof.
  intros Hn. pattern n. apply natlike_ind; [| |assumption]; cbn beta.
  - replace (y + 0) with y by lia. lia.
  - intros k Hk IH. replace (y + Z.succ k) with (y + k + 1) by lia.
    rewrite year_length. destruct (is_leap (y + k)); lia.
Qed.

Ltac month_cases m :=
  let H := fresh "Hc" in
  assert (H : m = 1 \/ m = 2 \/ m = 3 \/ m = 4 \/ m = 5 \/ m = 6 \/ m = 7 \/
              m = 8 \/ m = 9 \/ m = 10 \/ m = 11 \/ m = 12) by lia;
  repeat (destruct H as [-> | H]); [.. | subst m].

Ltac calendar_compute :=
  cbv [DaysInMonth DaysBeforeMonth Z.eqb Z.leb Z.compare Pos.eqb Pos.compare
       Pos.compare_cont orb] in *.

Lemma day_of_year_bounds y m d :
  1 <= m <= 12 -> 1 <= d <= DaysInMonth y m ->
  0 <= DaysBeforeMonth y m + d - 1 <= 364 + (if is_leap y then 1 else 0).
Proof.
  intros Hm Hd. month_cases m; calendar_compute; destruct (is_leap y); lia.
Qed.

Lemma day_of_year_increases y m1 d1 m2 d2 :
  1 <= m1 -> m1 < m2 -> m2 <= 12 ->
  1 <= d1 <= DaysInMonth y m1 -> 1 <= d2 ->
  DaysBeforeMonth y m1 + d1 < DaysBeforeMonth y m2 + d2.
Proof.
  intros H1 H12 H2 Hd1 Hd2.
  assert (Hm1 : 1 <= m1 <= 12) by lia. assert (Hm2 : 1 <= m2 <= 12) by lia.
  month_cases m1; month_cases m2; try lia;
    calendar_compute; destruct (is_leap y); lia.
Qed.

(** An earlier calendar date is an earlier day. *)
Lemma MakeDay_increases y1 m1 d1 y2 m2 d2 :
  1 <= m1 <= 12 -> 1 <= d1 <= DaysInMonth y1 m1 ->
  1 <= m2 <= 12 -> 1 <= d2 <= DaysInMonth y2 m2 ->
  (y1 < y2 \/ (y1 = y2 /\ (m1 < m2 \/ (m1 = m2 /\ d1 < d2)))) ->
  MakeDay y1 m1 d1 < MakeDay y2 m2 d2.
Proof.
  intros Hm1 Hd1 Hm2 Hd2 [Hy | [<- [Hm | [<- Hd]]]]; unfold MakeDay.
  - pose proof (day_of_year_bounds y1 m1 d1 Hm1 Hd1).
    pose proof (day_of_year_bounds y2 m2 d2 Hm2 Hd2).
    pose proof (year_length y1).
    pose proof (DayFromYear_after (y1 + 1) (y2 - y1 - 1) ltac:(lia)) as Hstep.
    replace (y1 + 1 + (y2 - y1 - 1)) with y2 in Hstep by lia.
    destruct (is_leap y1), (is_leap y2); lia.
  - pose proof (day_of_year_increases y1 m1 d1 m2 d2). lia.
  - lia.
Qed.

Lemma date_before_instants s1 s2 :
  calendar_date s1 -> calendar_date s2 -> date_before s1 s2 ->
  exists t1 t2,
    Date_parse legacyParse s1 = Some t1 /\ Date_parse legacyParse s2 = Some t2 /\
    t1 < t2.
Proof.
  intros (y1 & m1 & d1 & E1 & Hm1 & Hd1) (y2 & m2 & d2 & E2 & Hm2 & Hd2)
    (y1' & m1' & d1' & y2' & m2' & d2' & E1' & E2' & Hlt).
  rewrite E1 in E1'. injection E1' as <- <- <-.
  rewrite E2 in E2'. injection E2' as <- <- <-.
  exists (MakeDay y1 m1 d1 * msPerDay), (MakeDay y2 m2 d2 * msPerDay).
  split; [apply calendar_date_parse; assumption|].
  split; [apply calendar_date_parse; assumption|].
  pose proof (MakeDay_increases y1 m1 d1 y2 m2 d2 Hm1 Hd1 Hm2 Hd2 Hlt).
  unfold msPerDay. lia.
Qed.


Lemma member_nonempty (table : list string) s :
  forallb (fun t => negb (String.eqb t "")) table = true -> In s table -> s <> "".
Proof.
  intros H Hin ->. rewrite forallb_forall in H. apply H in Hin. discriminate Hin.
Qed.

Lemma member_includes (table : list string) s :
  In s table -> Array_includes (map VStr table) (VStr s) = true.
Proof. intros H. apply includes_strings. eauto. Qed.

Lemma state_code_valid s :
  state_code s -> s <> "" /\ isValidStateCode (VStr s) = Ok true.
Proof.
  intros (code & Hin & Hsp). split.
  - intros ->. destruct code; [|discriminate Hsp].
    exact (member_nonempty stateCodes "" eq_refl Hin eq_refl).
  - unfold isValidStateCode. cbn [optional_toUpperCase bind].
    rewrite (toUpperCase_spelled _ _ Hsp), validStates_codes.
    rewrite (member_includes _ _ Hin). reflexivity.
Qed.

(** *** Statements on well-formed fields push nothing *)

Lemma presence_passes o k req s :
  has_properties o = true -> field o k = VStr s -> s <> "" ->
  runs_to (presence_only o k req) [].
Proof.
  intros Ho F Hs. unfold runs_to. rewrite (presence_only_run _ _ _ Ho), F.
  rewrite (truthy_string _ Hs). reflexivity.
Qed.

Lemma check_passes o k check req bad s :
  has_properties o = true -> field o k = VStr s ->
  s <> "" /\ check (VStr s) = Ok true ->
  runs_to (required_check o k check req bad) [].
Proof.
  intros Ho F [Hs Hc]. unfold runs_to.
  apply (required_check_present o k check req bad true Ho);
    rewrite F; [apply truthy_string|]; assumption.
Qed.

Lemma optional_check_passes o k check bad (x : option string) :
  has_properties o = true -> field o k = optional_value VStr x ->
  when x (fun s => s <> "" /\ check (VStr s) = Ok true) ->
  runs_to (optional_check o k check bad) [].
Proof.
  intros Ho F H. unfold runs_to. destruct x as [s|]; cbn in F, H.
  - destruct H as [Hs Hc].
    apply (optional_check_present o k check bad true Ho);
      rewrite F; [apply truthy_string|]; assumption.
  - apply optional_check_absent; [assumption|]. rewrite F. reflexivity.
Qed.

Lemma text_passes o k req s :
  has_properties o = true -> field o k = VStr s -> nonblank s ->
  runs_to (required_text o k req) [].
Proof.
  intros Ho F Hs. unfold runs_to.
  apply (required_text_run o k req false Ho). rewrite F.
  apply nonblank_blank; assumption.
Qed.

Lemma name_passes o k req long s :
  has_properties o = true -> field o k = VStr s ->
  nonblank s -> (String.length s <= 100)%nat ->
  runs_to (required_name o k req long) [].
Proof.
  intros Ho F Hs Hl. unfold runs_to.
  rewrite (required_name_present o k req long s Ho F (nonblank_blank _ Hs)).
  destruct (Z.ltb_spec 100 (Z.of_nat (String.length s))); [lia | reflexivity].
Qed.

Lemma member_passes o k (table : list string) member objtable req prefix list s :
  has_properties o = true -> field o k = VStr s ->
  Array_join ", " (Object_values objtable) = Ok list ->
  (forall v, member v = Array_includes (map VStr table) v) ->
  forallb (fun t => negb (String.eqb t "")) table = true ->
  In s table ->
  runs_to (required_member o k member objtable req prefix) [].
Proof.
  intros Ho F J Hmem Hne Hin. unfold runs_to.
  rewrite (required_member_run o k member objtable req prefix list Ho J), F.
  rewrite (truthy_string _ (member_nonempty _ _ Hne Hin)).
  rewrite Hmem, (member_includes _ _ Hin). reflexivity.
Qed.

Lemma not_below (a bound : Z) :
  bound <= a -> not_number_or_below (int a) bound = Ok false.
Proof.
  intros H. unfold not_number_or_below, int. cbn [typeof String.eqb negb].
  change (js_lt (VNum (Fin a 0)) (VNum (Fin bound 0)) = Ok false).
  rewrite js_lt_num, num_lt_int. f_equal. apply Z.ltb_ge. assumption.
Qed.

Lemma amount_passes o k msg (x : option Z) :
  has_properties o = true -> field o k = optional_value int x ->
  when x (fun a => 0 <= a) ->
  runs_to (ins_amount o k msg) [].
Proof.
  intros Ho F H. unfold runs_to, ins_amount. rewrite (get_field _ _ Ho), F.
  cbn [bind]. destruct x as [a|]; cbn [optional_value when] in H |- *;
    [|reflexivity].
  cbn [int is_undefined negb]. fold (int a). rewrite (not_below a 0 H).
  reflexivity.
Qed.

Lemma count_passes o k floor required range q :
  has_properties o = true -> field o k = int q -> floor <= q ->
  runs_to (rx_count o k floor required range) [].
Proof.
  intros Ho F H. unfold runs_to, rx_count. rewrite (get_field _ _ Ho), F.
  cbn [bind int is_undefined is_null orb]. fold (int q).
  rewrite (not_below q floor H). reflexivity.
Qed.

Lemma js_gt_optional (a b : option Z) :
  when2 a b (fun met max => met <= max) ->
  js_gt (optional_value int a) (optional_value int b) = Ok false.
Proof.
  destruct a as [a|], b as [b|]; cbn [optional_value when2]; intros H.
  - rewrite js_gt_int. f_equal. apply Z.ltb_ge. assumption.
  - apply js_gt_undefined. reflexivity.
  - apply js_gt_of_undefined. reflexivity.
  - reflexivity.
Qed.

Lemma ceiling_passes o met max msg (a b : option Z) :
  has_properties o = true ->
  field o met = optional_value int a -> field o max = optional_value int b ->
  when2 a b (fun met max => met <= max) ->
  runs_to (ceiling o met max msg) [].
Proof.
  intros Ho Fa Fb H. unfold runs_to, ceiling. rewrite !(get_field _ _ Ho).
  cbn [bind]. rewrite Fa, Fb, (js_gt_optional a b H). reflexivity.
Qed.


Lemma refills_passes o (x : option Z) (allowed : Z) :
  has_properties o = true ->
  field o "refillsRemaining" = optional_value int x ->
  field o "refillsAllowed" = int allowed ->
  when x (fun r => 0 <= r <= allowed) ->
  runs_to (rx_refillsRemaining o) [].
Proof.
  intros Ho Fr Fa H. unfold runs_to, rx_refillsRemaining.
  rewrite !(get_field _ _ Ho), Fr, Fa. cbn [bind].
  destruct x as [r|]; cbn [optional_value when] in H |- *; [|reflexivity].
  cbn [int is_undefined negb block]. fold (int r). fold (int allowed).
  rewrite (not_below r 0 (proj1 H)), js_gt_int. cbn [bind].
  destruct (Z.ltb_spec allowed r); [lia | reflexivity].
Qed.

Lemma dateOrder_passes o (effective : string) (termination : option string) :
  has_properties o = true ->
  field o "effectiveDate" = VStr effective ->
  field o "terminationDate" = optional_value VStr termination ->
  calendar_date effective ->
  when termination calendar_date ->
  when termination (date_before effective) ->
  runs_to (ins_dateOrder legacyParse o) [].
Proof.
  intros Ho Fe Ft He Ht Hb. unfold runs_to, ins_dateOrder.
  rewrite !(get_field _ _ Ho), Fe, Ft. cbn [bind].
  destruct termination as [t|]; cbn [optional_value when] in *.
  - destruct (date_before_instants _ _ He Ht Hb) as (t1 & t2 & E1 & E2 & Hlt).
    destruct (truthy (VStr effective) && truthy (VStr t)); [|reflexivity].
    unfold new_Date. cbn [ToPrimitive bind]. rewrite E1, E2. cbn [date_le].
    destruct (Z.leb_spec t2 t1); [lia | reflexivity].
  - cbn [truthy]. rewrite andb_false_r. reflexivity.
Qed.

Lemma status_passes o (x : option string) :
  has_properties o = true ->
  field o "status" = optional_value VStr x ->
  when x (fun s => In s prescriptionStatuses) ->
  runs_to (rx_status o) [].
Proof.
  intros Ho F H. unfold runs_to. rewrite (rx_status_run _ Ho), F.
  destruct x as [s|]; cbn [optional_value when] in *; [|reflexivity].
  change (isValidPrescriptionStatus (VStr s))
    with (Array_includes (map VStr prescriptionStatuses) (VStr s)).
  rewrite (member_includes _ _ H), andb_false_r. reflexivity.
Qed.

Lemma digits_passes n re s :
  re = Rep (S n) digit -> digits_format (S n) s ->
  s <> "" /\ test re (VStr s) = Ok true.
Proof. apply digits_format_valid. Qed.

Lemma when_impl (A : Type) (x : option A) (P Q : A -> Prop) :
  (forall a, P a -> Q a) -> when x P -> when x Q.
Proof. destruct x; simpl; auto. Qed.

Lemma address_passes user addr :
  has_properties user = true -> field user "address" = addr ->
  truthy addr = true ->
  Forall2 runs_to
    [ address_street addr; address_city addr; address_state addr;
      address_zipCode addr ] [ []; []; []; [] ] ->
  runs_to (user_address user) [].
Proof.
  intros Ho F T H. unfold runs_to, user_address.
  rewrite (get_field _ _ Ho), F. cbn [bind]. rewrite T. cbn [negb].
  exact (block_run _ _ H).
Qed.

Lemma user_record_passes (u : UserRecord.t) :
  UserRecord.well_formed u ->
  Forall2 runs_to (user_statements legacyParse (UserRecord.to_value u))
    [ []; []; []; []; []; [] ].
Proof.
  intros (He & Hf & Hfl & Hl & Hll & Hd & Hp & Hst & Hci & Hsa & Hz).
  unfold user_statements.
  set (o := UserRecord.to_value u).
  set (a := UserRecord.address_value (UserRecord.address u)).
  constructor;
    [exact (check_passes o "email" isValidEmail _ _ _ eq_refl eq_refl
              (email_format_valid _ He))|].
  constructor; [exact (name_passes o "firstName" _ _ _ eq_refl eq_refl Hf Hfl)|].
  constructor; [exact (name_passes o "lastName" _ _ _ eq_refl eq_refl Hl Hll)|].
  constructor;
    [exact (check_passes o "dateOfBirth" (isValidDate legacyParse) _ _ _
              eq_refl eq_refl (calendar_date_valid _ Hd))|].
  constructor;
    [exact (check_passes o "phoneNumber" isValidPhoneNumber _ _ _ eq_refl eq_refl
              (phone_format_valid _ Hp))|].
  constructor; [|constructor].
  apply (address_passes o a eq_refl eq_refl eq_refl).
  constructor; [exact (text_passes a "street" _ _ eq_refl eq_refl Hst)|].
  constructor; [exact (text_passes a "city" _ _ eq_refl eq_refl Hci)|].
  constructor;
    [exact (check_passes a "state" isValidStateCode _ _ _ eq_refl eq_refl
              (state_code_valid _ Hsa))|].
  constructor;
    [exact (check_passes a "zipCode" isValidZipCode _ _ _ eq_refl eq_refl
              (zip_format_valid _ Hz))|].
  constructor.
Qed.

(** *** Reading the fields of an encoded record *)

Ltac read_insurance i :=
  destruct i as [? ? ? ? ? ? [?|] [?|] [?|] [?|] ? [?|] [?|]]; reflexivity.

Ltac read_prescription p :=
  destruct p as [? [?|] ? ? ? [?|] ? ? ? ? [?|] ? ? ? [?|] [?|]]; reflexivity.

Lemma insurance_deductible (i : InsuranceRecord.t) :
  field (InsuranceRecord.to_value i) "deductible" = optional_value int (InsuranceRecord.deductible i).
Proof. read_insurance i. Qed.

Lemma insurance_deductibleMet (i : InsuranceRecord.t) :
  field (InsuranceRecord.to_value i) "deductibleMet" = optional_value int (InsuranceRecord.deductibleMet i).
Proof. read_insurance i. Qed.

Lemma insurance_outOfPocketMax (i : InsuranceRecord.t) :
  field (InsuranceRecord.to_value i) "outOfPocketMax" = optional_value int (InsuranceRecord.outOfPocketMax i).
Proof. read_insurance i. Qed.

Lemma insurance_outOfPocketMet (i : InsuranceRecord.t) :
  field (InsuranceRecord.to_value i) "outOfPocketMet" = optional_value int (InsuranceRecord.outOfPocketMet i).
Proof. read_insurance i. Qed.

Lemma insurance_effectiveDate (i : InsuranceRecord.t) :
  field (InsuranceRecord.to_value i) "effectiveDate" = VStr (InsuranceRecord.effectiveDate i).
Proof. read_insurance i. Qed.

Lemma insurance_terminationDate (i : InsuranceRecord.t) :
  field (InsuranceRecord.to_value i) "terminationDate" = optional_value VStr (InsuranceRecord.terminationDate i).
Proof. read_insurance i. Qed.

Lemma prescription_medicationName (p : PrescriptionRecord.t) :
  field (PrescriptionRecord.to_value p) "medicationName" = VStr (PrescriptionRecord.medicationName p).
Proof. read_prescription p. Qed.

Lemma prescription_medicationForm (p : PrescriptionRecord.t) :
  field (PrescriptionRecord.to_value p) "medicationForm" = VStr (PrescriptionRecord.medicationForm p).
Proof. read_prescription p. Qed.

Lemma prescription_strength (p : PrescriptionRecord.t) :
  field (PrescriptionRecord.to_value p) "strength" = VStr (PrescriptionRecord.strength p).
Proof. read_prescription p. Qed.

Lemma prescription_ndc (p : PrescriptionRecord.t) :
  field (PrescriptionRecord.to_value p) "ndc" = optional_value VStr (PrescriptionRecord.ndc p).
Proof. read_prescription p. Qed.

Lemma prescription_dosageInstructions (p : PrescriptionRecord.t) :
  field (PrescriptionRecord.to_value p) "dosageInstructions" = VStr (PrescriptionRecord.dosageInstructions p).
Proof. read_prescription p. Qed.

Lemma prescription_quantity (p : PrescriptionRecord.t) :
  field (PrescriptionRecord.to_value p) "quantity" = int (PrescriptionRecord.quantity p).
Proof. read_prescription p. Qed.

Lemma prescription_daysSupply (p : PrescriptionRecord.t) :
  field (PrescriptionRecord.to_value p) "daysSupply" = int (PrescriptionRecord.daysSupply p).
Proof. read_prescription p. Qed.

Lemma prescription_refillsAllowed (p : PrescriptionRecord.t) :
  field (PrescriptionRecord.to_value p) "refillsAllowed" = int (PrescriptionRecord.refillsAllowed p).
Proof. read_prescription p. Qed.

Lemma prescription_refillsRemaining (p : PrescriptionRecord.t) :
  field (PrescriptionRecord.to_value p) "refillsRemaining" = optional_value int (PrescriptionRecord.refillsRemaining p).
Proof. read_prescription p. Qed.

Lemma prescription_prescriberName (p : PrescriptionRecord.t) :
  field (PrescriptionRecord.to_value p) "prescriberName" = VStr (PrescriptionRecord.prescriberName p).
Proof. read_prescription p. Qed.

Lemma prescription_prescriberNPI (p : PrescriptionRecord.t) :
  field (PrescriptionRecord.to_value p) "prescriberNPI" = VStr (PrescriptionRecord.prescriberNPI p).
Proof. read_prescription p. Qed.

Lemma prescription_prescribedDate (p : PrescriptionRecord.t) :
  field (PrescriptionRecord.to_value p) "prescribedDate" = VStr (PrescriptionRecord.prescribedDate p).
Proof. read_prescription p. Qed.

Lemma prescription_status (p : PrescriptionRecord.t) :
  field (PrescriptionRecord.to_value p) "status" = optional_value VStr (PrescriptionRecord.status p).
Proof. read_prescription p. Qed.

Lemma prescription_pharmacyNPI (p : PrescriptionRecord.t) :
  field (PrescriptionRecord.to_value p) "pharmacyNPI" = optional_value VStr (PrescriptionRecord.pharmacyNPI p).
Proof. read_prescription p. Qed.

Lemma insurance_record_passes (i : InsuranceRecord.t) :
  InsuranceRecord.well_formed i ->
  Forall2 runs_to (insurance_statements legacyParse (InsuranceRecord.to_value i))
    [ []; []; []; []; []; []; []; []; []; []; []; []; []; []; [] ].
Proof.
  intros (Huid & Hco & Hpol & Hpt & Hpn & Hbin & Hded & Hmet & Homax & Homet
          & Heff & Hterm & Hbefore & Hdc & Hoc).
  unfold insurance_statements.
  set (o := InsuranceRecord.to_value i).
  assert (Ho : has_properties o = true) by reflexivity.
  constructor; [exact (presence_passes o "userId" _ _ Ho eq_refl Huid)|].
  constructor; [exact (text_passes o "insuranceCompany" _ _ Ho eq_refl Hco)|].
  constructor; [exact (text_passes o "policyNumber" _ _ Ho eq_refl Hpol)|].
  constructor;
    [exact (member_passes o "planType" planTypes isValidPlanType
              InsurancePlanType _ _ planTypeList _ Ho eq_refl
              planType_join (fun v => eq_refl) eq_refl Hpt)|].
  constructor; [exact (text_passes o "planName" _ _ Ho eq_refl Hpn)|].
  constructor;
    [exact (check_passes o "rxBIN" isValidRxBIN _ _ _ Ho eq_refl
              (digits_passes 5 rxBINRegex _ eq_refl Hbin))|].
  constructor;
    [exact (amount_passes o "deductible" _ _ Ho (insurance_deductible i) Hded)|].
  constructor;
    [exact (amount_passes o "deductibleMet" _ _ Ho (insurance_deductibleMet i)
              Hmet)|].
  constructor;
    [exact (amount_passes o "outOfPocketMax" _ _ Ho (insurance_outOfPocketMax i)
              Homax)|].
  constructor;
    [exact (amount_passes o "outOfPocketMet" _ _ Ho (insurance_outOfPocketMet i)
              Homet)|].
  constructor;
    [exact (check_passes o "effectiveDate" (isValidDate legacyParse) _ _ _
              Ho (insurance_effectiveDate i) (calendar_date_valid _ Heff))|].
  constructor;
    [exact (optional_check_passes o "terminationDate" (isValidDate legacyParse)
              _ _ Ho (insurance_terminationDate i)
              (when_impl _ _ _ _ calendar_date_valid Hterm))|].
  constructor;
    [exact (dateOrder_passes o _ _ Ho (insurance_effectiveDate i)
              (insurance_terminationDate i) Heff Hterm Hbefore)|].
  constructor;
    [exact (ceiling_passes o "deductibleMet" "deductible" _ _ _ Ho
              (insurance_deductibleMet i) (insurance_deductible i) Hdc)|].
  constructor;
    [exact (ceiling_passes o "outOfPocketMet" "outOfPocketMax" _ _ _ Ho
              (insurance_outOfPocketMet i) (insurance_outOfPocketMax i) Hoc)|].
  constructor.
Qed.

Lemma prescription_record_passes (p : PrescriptionRecord.t) :
  PrescriptionRecord.well_formed p ->
  Forall2 runs_to
    (prescription_statements legacyParse (PrescriptionRecord.to_value p))
    [ []; []; []; []; []; []; []; []; []; []; []; []; []; []; [] ].
Proof.
  intros (Huid & Hname & Hform & Hstr & Hndc & Hdos & Hq & Hds & Hra & Hrr
          & Hpn & Hnpi & Hdate & Hstatus & Hpharm).
  unfold prescription_statements.
  set (o := PrescriptionRecord.to_value p).
  assert (Ho : has_properties o = true) by reflexivity.
  constructor; [exact (presence_passes o "userId" _ _ Ho eq_refl Huid)|].
  constructor;
    [exact (text_passes o "medicationName" _ _ Ho (prescription_medicationName p)
              Hname)|].
  constructor;
    [exact (member_passes o "medicationForm" medicationForms
              isValidMedicationForm MedicationForm _ _ medicationFormList _
              Ho (prescription_medicationForm p) medicationForm_join
              (fun v => eq_refl) eq_refl Hform)|].
  constructor;
    [exact (text_passes o "strength" _ _ Ho (prescription_strength p) Hstr)|].
  constructor;
    [exact (optional_check_passes o "ndc" isValidNDC _ _ Ho (prescription_ndc p)
              (when_impl _ _ _ _ ndc_format_valid Hndc))|].
  constructor;
    [exact (text_passes o "dosageInstructions" _ _ Ho
              (prescription_dosageInstructions p) Hdos)|].
  constructor;
    [exact (count_passes o "quantity" 1 _ _ _ Ho (prescription_quantity p) Hq)|].
  constructor;
    [exact (count_passes o "daysSupply" 1 _ _ _ Ho (prescription_daysSupply p)
              Hds)|].
  constructor;
    [exact (count_passes o "refillsAllowed" 0 _ _ _ Ho
              (prescription_refillsAllowed p) Hra)|].
  constructor;
    [exact (refills_passes o _ _ Ho (prescription_refillsRemaining p)
              (prescription_refillsAllowed p) Hrr)|].
  constructor;
    [exact (text_passes o "prescriberName" _ _ Ho (prescription_prescriberName p)
              Hpn)|].
  constructor;
    [exact (check_passes o "prescriberNPI" isValidNPI _ _ _ Ho
              (prescription_prescriberNPI p)
              (digits_passes 9 npiRegex _ eq_refl Hnpi))|].
  constructor;
    [exact (check_passes o "prescribedDate" (isValidDate legacyParse) _ _ _ Ho
              (prescription_prescribedDate p) (calendar_date_valid _ Hdate))|].
  constructor; [exact (status_passes o _ Ho (prescription_status p) Hstatus)|].
  constructor;
    [exact (optional_check_passes o "pharmacyNPI" isValidNPI _ _ Ho
              (prescription_pharmacyNPI p)
              (when_impl _ _ _ _ (fun s => digits_passes 9 npiRegex s eq_refl)
                 Hpharm))|].
  constructor.
Qed.

(** C1.  A record that satisfies every documented constraint of its type
    is valid, with no errors. *)
Theorem well_formed_records_are_valid (r : record) :
  well_formed r ->
  validate legacyParse (record_entity r) (record_value r) =
  Ok {| isValid := true; errors := [] |}.
Proof.
  destruct r as [u | i | p]; cbn [well_formed record_entity record_value validate];
    intros H.
  - rewrite validateUser_statements, (block_run _ _ (user_record_passes u H)).
    reflexivity.
  - rewrite validateInsurance_statements,
      (block_run _ _ (insurance_record_passes i H)).
    reflexivity.
  - rewrite validatePrescription_statements,
      (block_run _ _ (prescription_record_passes p H)).
    reflexivity.
Qed.

(** *** What a cross-field check forbids makes its comparison hold *)

(** A calendar date that is not after another is not a later instant. *)
Lemma calendar_order_instants s1 s2 :
  calendar_date s1 -> calendar_date s2 -> ~ date_before s1 s2 ->
  exists t1 t2,
    Date_parse legacyParse s1 = Some t1 /\ Date_parse legacyParse s2 = Some t2 /\
    t2 <= t1.
Proof.
  intros (y1 & m1 & d1 & E1 & Hm1 & Hd1) (y2 & m2 & d2 & E2 & Hm2 & Hd2) Hnot.
  exists (MakeDay y1 m1 d1 * msPerDay), (MakeDay y2 m2 d2 * msPerDay).
  split; [apply calendar_date_parse; assumption|].
  split; [apply calendar_date_parse; assumption|].
  assert (N : ~ (y1 < y2 \/ (y1 = y2 /\ (m1 < m2 \/ (m1 = m2 /\ d1 < d2))))).
  { intros H. apply Hnot. exists y1, m1, d1, y2, m2, d2. auto. }
  assert (Hcases : (y2 < y1 \/ (y2 = y1 /\ (m2 < m1 \/ (m2 = m1 /\ d2 < d1))))
                   \/ (y1 = y2 /\ m1 = m2 /\ d1 = d2)) by lia.
  destruct Hcases as [Hlt | (-> & -> & ->)]; [|lia].
  pose proof (MakeDay_increases y2 m2 d2 y1 m1 d1 Hm2 Hd2 Hm1 Hd1 Hlt).
  unfold msPerDay. lia.
Qed.

Lemma breached_violated c o : breached c o -> violated legacyParse c o = true.
Proof.
  destruct c as [| c]; cbn [breached violated].
  - intros (eff & term & Fe & Ft & He & Ht & Hn). rewrite Fe, Ft.
    rewrite (truthy_string _ (proj1 (calendar_date_valid _ He))),
      (truthy_string _ (proj1 (calendar_date_valid _ Ht))).
    destruct (calendar_order_instants _ _ He Ht Hn) as (t1 & t2 & E1 & E2 & Hle).
    unfold new_Date. cbn [ToPrimitive bind andb]. rewrite E1, E2.
    cbn [date_le]. apply Z.leb_le. assumption.
  - intros (met & max & Fm & Fx & _ & _ & Hlt).
    rewrite Fm, Fx, js_gt_int. apply Z.ltb_lt. assumption.
Qed.

(** C4, as amended.  On a well-shaped record that breaches a cross-field
    invariant (a whole met or remaining amount above its whole ceiling; a
    termination date that is not after the effective date, both calendar
    dates) the validator returns an invalid result whose errors hold the
    message of the check, whatever the per-field checks found.  The message
    stands where the check stands in the source: the errors before it are
    messages of the checks before it, the errors after it messages of the
    checks after it, and these two tables and the message make up the
    messages of the validator, no two of them equal.  For the checks of
    [validateInsurance] the
    first table holds every per-field message; for the refills check the
    second table holds the per-field messages of the prescriber, the
    prescribed date, the status and the pharmacy. *)
Theorem cross_field_checks_are_not_suppressed (c : cross_check) (o : value) :
  shape (cross_entity c) o = true ->
  breached c o ->
  exists r before after,
    validate legacyParse (cross_entity c) o = Ok r /\
    isValid r = false /\
    errors r = (before ++ cross_message c :: after)%list /\
    incl before (pushed_before c) /\
    incl after (pushed_after c) /\
    (pushed_before c ++ cross_message c :: pushed_after c)%list =
      concat (messages (cross_entity c)) /\
    NoDup (concat (messages (cross_entity c))).
Proof.
  intros Hs Hb.
  destruct (violated_check_is_reported legacyParse c o Hs (breached_violated c o Hb))
    as (r & before & after & Hr & Hv & He & Hbefore & Hafter).
  exists r, before, after. repeat (split; [assumption|]).
  split; [destruct c as [| []]; reflexivity|].
  apply distinct_NoDup. destruct c as [| []]; reflexivity.
Qed.

End Fields.

(** C2 fails as stated: a number where a name is expected makes
    [validateUser] throw instead of returning a result. *)
Lemma validateUser_throws_on_numeric_name :
  validateUser noLegacyFormats (VObj [("firstName", int 123)]) = Throw TypeError.
Proof. reflexivity. Qed.

Lemma validators_return_witness :
  exists r,
    validate noLegacyFormats Prescription
      (VObj [("quantity", VStr "many"); ("refillsAllowed", VBool true);
             ("status", int 7)]) = Ok r /\
    (isValid r = true <-> errors r = []).
Proof.
  apply (validators_return_on_shaped_records noLegacyFormats Prescription).
  reflexivity.
Defined.

(** C3 fails as stated: an email that is empty after trimming gets the
    format message, and no presence message. *)
Lemma blank_email_gets_format_error :
  validateUser noLegacyFormats
    (VObj [ ("email", VStr "   "); ("firstName", VStr "Jo");
            ("lastName", VStr "Lee"); ("dateOfBirth", VStr "1990-05-01");
            ("phoneNumber", VStr "12025551234");
            ("address",
             VObj [ ("street", VStr "1 Main St"); ("city", VStr "Springfield");
                    ("state", VStr "IL"); ("zipCode", VStr "62701") ]) ]) =
  Ok {| isValid := false; errors := ["Invalid email format"] |}.
Proof. reflexivity. Qed.

Lemma missing_field_witness :
  exists r,
    validate noLegacyFormats Prescription
      (VObj [("quantity", VNull); ("medicationName", VStr "Aspirin")]) = Ok r /\
    isValid r = false /\
    In "Quantity is required" (errors r) /\
    forall m, In m ["Quantity must be a positive number"] -> ~ In m (errors r).
Proof.
  apply (missing_field_gets_presence_error_only noLegacyFormats RxQuantity);
    reflexivity.
Defined.

Lemma cross_field_witness :
  exists r before after,
    validate noLegacyFormats Insurance
      (VObj [("deductibleMet", int 600); ("deductible", int 500);
             ("rxBIN", VStr "12")]) = Ok r /\
    isValid r = false /\
    errors r =
      (before ++ "Deductible met cannot exceed total deductible" :: after)%list /\
    incl before (pushed_before (Ceiling DeductibleCeiling)) /\
    incl after (pushed_after (Ceiling DeductibleCeiling)) /\
    (pushed_before (Ceiling DeductibleCeiling)
       ++ "Deductible met cannot exceed total deductible"
       :: pushed_after (Ceiling DeductibleCeiling))%list =
      concat (messages Insurance) /\
    NoDup (concat (messages Insurance)).
Proof.
  apply (cross_field_checks_are_not_suppressed noLegacyFormats
           (Ceiling DeductibleCeiling)); [reflexivity|].
  exists 600, 500. unfold safe_integer.
  split; [reflexivity|]. split; [reflexivity|]. lia.
Defined.

(** C4 fails as stated: the refills check is not evaluated after the
    per-field checks.  It stands before those of the prescriber and of the
    prescribed date, whose messages follow the cross-field message. *)
Lemma refills_check_stands_before_prescriber_checks :
  validatePrescription noLegacyFormats
    (VObj [ ("userId", VStr "u1"); ("medicationName", VStr "Aspirin");
            ("medicationForm", VStr "TABLET"); ("strength", VStr "500mg");
            ("dosageInstructions", VStr "One a day");
            ("quantity", int 30); ("daysSupply", int 30);
            ("refillsAllowed", int 2); ("refillsRemaining", int 5) ]) =
  Ok {| isValid := false;
        errors := [ "Refills remaining cannot exceed refills allowed";
                    "Prescriber name is required";
                    "Prescriber NPI is required";
                    "Prescribed date is required" ] |}.
Proof. reflexivity. Qed.

(** One record can carry a per-field error and the cross-field error about
    the same pair of fields. *)
Example errors_about_the_same_pair :
  validateInsurance noLegacyFormats
    (VObj [ ("userId", VStr "u1"); ("insuranceCompany", VStr "Acme");
            ("policyNumber", VStr "P1"); ("planType", VStr "PPO");
            ("planName", VStr "Gold"); ("rxBIN", VStr "123456");
            ("deductible", int (-500)); ("deductibleMet", int 600);
            ("effectiveDate", VStr "2024-01-01") ]) =
  Ok {| isValid := false;
        errors := [ "Deductible must be a non-negative number (in cents)";
                    "Deductible met cannot exceed total deductible" ] |}.
Proof. reflexivity. Qed.

(** Scenarios 3 and 5 of the specification. *)
Example scenario3_termination_before_effective :
  exists r,
    validateInsurance noLegacyFormats
      (VObj [ ("effectiveDate", VStr "2024-01-01");
              ("terminationDate", VStr "2023-01-01") ]) = Ok r /\
    In "Termination date must be after effective date" (errors r).
Proof. eexists. split; [reflexivity|]. simpl. auto 10. Qed.

Example scenario5_refills_over_allowed :
  exists r,
    validatePrescription noLegacyFormats
      (VObj [ ("refillsAllowed", int 2); ("refillsRemaining", int 5) ]) = Ok r /\
    In "Refills remaining cannot exceed refills allowed" (errors r).
Proof. eexists. split; [reflexivity|]. simpl. auto 12. Qed.

Lemma no_ceiling_witness :
  exists r,
    validate noLegacyFormats Insurance
      (VObj [("deductibleMet", int 99999999999)]) = Ok r /\
    ~ In "Deductible met cannot exceed total deductible" (errors r).
Proof.
  apply (no_ceiling_no_ceiling_error noLegacyFormats DeductibleCeiling);
    reflexivity.
Defined.

(** C10 fails as stated when absent includes [null], as it does for the
    validator itself: a [refillsAllowed] that is [null] is reported missing,
    and counts as zero in the comparison, which then fires. *)
Lemma null_ceiling_counts_as_zero :
  exists r,
    validatePrescription noLegacyFormats
      (VObj [ ("refillsAllowed", VNull); ("refillsRemaining", int 5) ]) = Ok r /\
    In "Refills allowed is required" (errors r) /\
    In "Refills remaining cannot exceed refills allowed" (errors r).
Proof. eexists. split; [reflexivity|]. simpl. auto 14. Qed.

(** A numeric string is compared as the double it denotes: the nearest
    one, an infinity past the largest, zero below the smallest. *)
Example numeric_strings_compare_as_doubles :
  js_gt (VStr "9007199254740993") (int 9007199254740992) = Ok false /\
  js_gt (VStr "9007199254740995") (int 9007199254740992) = Ok true /\
  js_gt (VStr "1e400") (int 5) = Ok true /\
  js_gt (VStr "1e-400") (int 0) = Ok false /\
  js_gt (VStr "0.1") (VNum (Fin 1 (-1))) = Ok false /\
  validateInsurance noLegacyFormats
    (VObj [ ("userId", VStr "u1"); ("insuranceCompany", VStr "Acme");
            ("policyNumber", VStr "P1"); ("planType", VStr "PPO");
            ("planName", VStr "Gold"); ("rxBIN", VStr "123456");
            ("deductible", int 9007199254740992);
            ("deductibleMet", VStr "9007199254740993");
            ("effectiveDate", VStr "2024-01-01") ]) =
  Ok {| isValid := false;
        errors := [ "Deductible met must be a non-negative number (in cents)" ] |}.
Proof. repeat split; vm_compute; reflexivity. Qed.

(** C9 fails as stated: at noon UTC of 2024-06-15 an insurance whose
    termination date is 2024-06-15, the same day, is reported inactive. *)
Lemma same_day_termination_is_inactive :
  option_map utcDay (Date_parse noLegacyFormats "2024-06-15") =
    Some (utcDay noon_2024_06_15) /\
  isInsuranceActive noLegacyFormats noon_2024_06_15
    (VObj [ ("effectiveDate", VStr "2024-01-01");
            ("terminationDate", VStr "2024-06-15") ]) = Ok false.
Proof. split; reflexivity. Qed.

Lemma isInsuranceActive_witness :
  (date_gt (Some 1704067200000) (Some 1718409600000) = true ->
   isInsuranceActive noLegacyFormats 1718409600000
     (VObj [ ("effectiveDate", VStr "2024-01-01");
             ("terminationDate", VStr "2024-06-15") ]) = Ok false) /\
  (forall term,
     truthy (VStr "2024-06-15") = true ->
     new_Date noLegacyFormats (VStr "2024-06-15") = Ok term ->
     date_lt term (Some 1718409600000) = true ->
     isInsuranceActive noLegacyFormats 1718409600000
       (VObj [ ("effectiveDate", VStr "2024-01-01");
               ("terminationDate", VStr "2024-06-15") ]) = Ok false) /\
  (date_gt (Some 1704067200000) (Some 1718409600000) = false ->
   truthy (VStr "2024-06-15") = false \/
   (exists term,
      new_Date noLegacyFormats (VStr "2024-06-15") = Ok term /\
      date_lt term (Some 1718409600000) = false) ->
   isInsuranceActive noLegacyFormats 1718409600000
     (VObj [ ("effectiveDate", VStr "2024-01-01");
             ("terminationDate", VStr "2024-06-15") ]) = Ok true /\
   (VUndefined = VUndefined ->
    isInsuranceActive noLegacyFormats 1718409600000
      (VObj [ ("effectiveDate", VStr "2024-01-01");
              ("terminationDate", VStr "2024-06-15") ]) = Ok true)) /\
  date_lt (Some 1718409600000) (Some 1718409600000) = false.
Proof.
  apply (isInsuranceActive_compares_instants noLegacyFormats 1718409600000
           (VObj [ ("effectiveDate", VStr "2024-01-01");
                   ("terminationDate", VStr "2024-06-15") ])
           (Some 1704067200000)); reflexivity.
Defined.

(** C8 fails as stated: on a number [isValidStateCode] throws. *)
Lemma isValidStateCode_throws_on_number :
  isValidStateCode (int 5) = Throw TypeError.
Proof. reflexivity. Qed.

Example state_code_in_any_letter_case :
  isValidStateCode (VStr "il") = Ok true /\
  isValidStateCode (VStr "Il") = Ok true /\
  isValidStateCode (VStr "IL") = Ok true /\
  isValidStateCode (VStr "XX") = Ok false /\
  isValidStateCode (VStr "") = Ok false.
Proof. repeat split; reflexivity. Qed.

(** Scenario 4 of the specification. *)
Example scenario4_ndc :
  isValidNDC (VStr "12345-1234-12") = Ok true /\
  isValidNDC (VStr "1234-1234-12") = Ok false.
Proof. split; reflexivity. Qed.

Lemma scenario1_well_formed : well_formed (AUser scenario1_record).
Proof.
  cbn. unfold nonblank.
  repeat split; try (vm_compute; discriminate); try (cbn; lia).
  - exists ["a"%char], ["b"%char], ["c"%char; "o"%char; "m"%char].
    repeat split; discriminate.
  - exists 1990, 5, 1. repeat split; try reflexivity; discriminate.
  - exists [], ["1"%char], (chars "2025551234").
    repeat split; auto; cbn; lia.
  - exists "IL". split; [|reflexivity].
    unfold stateCodes. repeat first [left; reflexivity | right].
  - left. split; reflexivity.
Defined.

(** Scenario 1 of the specification. *)
Lemma scenario1_is_valid :
  validate noLegacyFormats User scenario1 =
  Ok {| isValid := true; errors := [] |}.
Proof.
  exact (well_formed_records_are_valid noLegacyFormats (AUser scenario1_record)
           scenario1_well_formed).
Defined.

(** * Further properties of the validators *)

(** ** A validator looks at nothing but the fields it reads *)
Section Frame.

Variable legacyParse : string -> time_value.

(** X1.  The outcome of a validator, a result or an exception, depends on
    its argument only through the reads of the properties listed in
    [fields_read]: two arguments on which these reads agree get the same
    outcome.  So no other property, such as [isActive] or [insuranceId], has
    any influence on the outcome. *)
Theorem validators_read_only_their_fields (e : entity) (o o' : value) :
  (forall k, In k (fields_read e) -> get o k = get o' k) ->
  validate legacyParse e o = validate legacyParse e o'.
Proof.
  intros H. destruct e; cbn [validate fields_read] in *.
  - unfold validateUser, user_email, user_firstName, user_lastName,
      user_dateOfBirth, user_phoneNumber, user_address.
    rewrite (H "email"), (H "firstName"), (H "lastName"), (H "dateOfBirth"),
      (H "phoneNumber"), (H "address") by (simpl; auto 20).
    reflexivity.
  - unfold validateInsurance, ins_userId, ins_insuranceCompany, ins_policyNumber,
      ins_planType, ins_planName, ins_rxBIN, ins_amount, ins_effectiveDate,
      ins_terminationDate, ins_dateOrder, ins_deductibleCeiling,
      ins_outOfPocketCeiling.
    rewrite (H "userId"), (H "insuranceCompany"), (H "policyNumber"),
      (H "planType"), (H "planName"), (H "rxBIN"), (H "deductible"),
      (H "deductibleMet"), (H "outOfPocketMax"), (H "outOfPocketMet"),
      (H "effectiveDate"), (H "terminationDate") by (simpl; auto 20).
    reflexivity.
  - unfold validatePrescription, rx_userId, rx_medicationName, rx_medicationForm,
      rx_strength, rx_ndc, rx_dosageInstructions, rx_count, rx_refillsRemaining,
      rx_prescriberName, rx_prescriberNPI, rx_prescribedDate, rx_status,
      rx_pharmacyNPI.
    rewrite (H "userId"), (H "medicationName"), (H "medicationForm"),
      (H "strength"), (H "ndc"), (H "dosageInstructions"), (H "quantity"),
      (H "daysSupply"), (H "refillsAllowed"), (H "refillsRemaining"),
      (H "prescriberName"), (H "prescriberNPI"), (H "prescribedDate"),
      (H "status"), (H "pharmacyNPI") by (simpl; auto 20).
    reflexivity.
Qed.

End Frame.

(** ** A validator pushes the messages of the rules that apply *)

Lemma fired_cons r rs o :
  fired (r :: rs) o = ((if applies r o then [message r] else []) ++ fired rs o)%list.
Proof. unfold fired. simpl. destruct (applies r o); reflexivity. Qed.

Lemma fired_nil o : fired [] o = [].
Proof. reflexivity. Qed.

Lemma fired_app rs1 rs2 o : fired (rs1 ++ rs2) o = (fired rs1 o ++ fired rs2 o)%list.
Proof. unfold fired. rewrite filter_app, map_app. reflexivity. Qed.

Lemma fired_concat groups o :
  fired (concat groups) o = concat (map (fun g => fired g o) groups).
Proof.
  induction groups as [| g groups IH]; simpl; [reflexivity|].
  rewrite fired_app, IH. reflexivity.
Qed.

Lemma fired_within k rs o :
  fired (map (within k) rs) o =
  if truthy (field o k) then fired rs (field o k) else [].
Proof.
  induction rs as [| r rs IH]; simpl.
  - destruct (truthy (field o k)); reflexivity.
  - rewrite !fired_cons, IH. cbn [within applies message].
    destruct (truthy (field o k)); reflexivity.
Qed.

Lemma length_fired_zero rs o :
  (List.length (fired rs o) =? 0)%nat = forallb (fun r => negb (applies r o)) rs.
Proof.
  induction rs as [| r rs IH]; [reflexivity|].
  rewrite fired_cons. cbn [forallb]. destruct (applies r o); [reflexivity|].
  exact IH.
Qed.

Lemma fired_incl rs o : incl (fired rs o) (map message rs).
Proof.
  intros m H. unfold fired in H. apply in_map_iff in H as (r & <- & Hr).
  apply filter_In in Hr as [Hr _]. apply in_map. assumption.
Qed.

Lemma fired_NoDup rs o : NoDup (map message rs) -> NoDup (fired rs o).
Proof.
  induction rs as [| r rs IH]; intros H.
  - constructor.
  - rewrite fired_cons. inversion H as [| ? ? Hn Hd]; subst.
    destruct (applies r o); simpl; [|auto].
    constructor; [|auto]. intros Hin. apply Hn. apply (fired_incl rs o). assumption.
Qed.

(** With pairwise distinct messages, a message is fired exactly when its
    rule applies. *)
Lemma fired_In rs o r :
  NoDup (map message rs) -> In r rs ->
  (In (message r) (fired rs o) <-> applies r o = true).
Proof.
  induction rs as [| r' rs IH]; intros Hd Hin; [contradiction|].
  inversion Hd as [| ? ? Hn Hd']; subst. rewrite fired_cons.
  destruct Hin as [-> | Hin].
  - destruct (applies r o); simpl; split; auto; try discriminate.
    intros H. exfalso. apply Hn. apply (fired_incl rs o). assumption.
  - assert (Hne : message r' <> message r).
    { intros E. apply Hn. rewrite E. apply in_map. assumption. }
    rewrite <- (IH Hd' Hin).
    destruct (applies r' o); simpl; [|reflexivity].
    split; [intros [E | H]; [contradiction | assumption] | auto].
Qed.

Lemma fired_In_inv rs o m :
  In m (fired rs o) -> exists r, In r rs /\ message r = m /\ applies r o = true.
Proof.
  unfold fired. intros H. apply in_map_iff in H as (r & E & Hr).
  apply filter_In in Hr as [Hr Ha]. eauto.
Qed.


Lemma length_app_le (l1 l2 : list string) a b :
  (List.length l1 <= a -> List.length l2 <= b -> List.length (l1 ++ l2) <= a + b)%nat.
Proof. rewrite length_app. lia. Qed.

(** Unfolds the rules at the head of a goal. *)
Ltac fire :=
  rewrite ?fired_cons, ?fired_nil;
  cbn [applies message required malformed not_member blank_text long_text
       bad_amount no_count bad_count crossed].

(** Bounds the number of messages of one group of rules, by cases on the
    tests its rules share. *)
Ltac bound_group :=
  rewrite ?fired_cons, ?fired_nil;
  cbn [applies message required malformed not_member blank_text long_text
       bad_amount no_count bad_count within crossed];
  repeat match goal with
  | |- context [truthy ?v] => destruct (truthy v)
  | |- context [is_blank ?v] => destruct (is_blank v)
  | |- context [absent ?v] => destruct (absent v)
  | |- context [is_undefined ?v] => destruct (is_undefined v)
  end;
  cbn [negb andb];
  repeat match goal with
  | |- context [if ?b then _ else _] => destruct b
  end;
  simpl; lia.

(** Decides the tests named in the hypotheses. *)
Ltac test_atoms :=
  repeat match goal with
  | H : context [truthy ?v] |- _ => destruct (truthy v)
  | H : context [is_blank ?v] |- _ => destruct (is_blank v)
  | H : context [absent ?v] |- _ => destruct (absent v)
  end.

Section RuleFacts.

Variable legacyParse : string -> time_value.

Lemma required_fires o k req :
  has_properties o = true ->
  runs_to (presence_only o k req) (fired [required k req] o).
Proof.
  intros Ho. unfold runs_to. rewrite (presence_only_run _ _ _ Ho). fire.
  destruct (truthy (field o k)); reflexivity.
Qed.

Lemma required_check_fires o k check req bad :
  has_properties o = true ->
  (truthy (field o k) = true -> exists b, check (field o k) = Ok b) ->
  runs_to (required_check o k check req bad)
    (fired [required k req; malformed k check bad] o).
Proof.
  intros Ho C. unfold runs_to. fire. unfold rejects.
  destruct (truthy (field o k)) eqn:T.
  - destruct (C eq_refl) as [b Hb].
    rewrite (required_check_present _ _ _ _ _ _ Ho T Hb), Hb.
    destruct b; reflexivity.
  - rewrite (required_check_missing _ _ _ _ _ Ho T). reflexivity.
Qed.

Lemma optional_check_fires o k check bad :
  has_properties o = true ->
  (truthy (field o k) = true -> exists b, check (field o k) = Ok b) ->
  runs_to (optional_check o k check bad) (fired [malformed k check bad] o).
Proof.
  intros Ho C. unfold runs_to. fire. unfold rejects.
  destruct (truthy (field o k)) eqn:T.
  - destruct (C eq_refl) as [b Hb].
    rewrite (optional_check_present _ _ _ _ _ Ho T Hb), Hb.
    destruct b; reflexivity.
  - rewrite (optional_check_absent _ _ _ _ Ho T). reflexivity.
Qed.

Lemma required_text_fires o k req :
  has_properties o = true -> textual (field o k) = true ->
  runs_to (required_text o k req) (fired [blank_text k req] o).
Proof.
  intros Ho T. unfold runs_to. fire. unfold is_blank.
  destruct (blank_returns _ T) as (b & Hb & _).
  rewrite (required_text_run _ _ _ _ Ho Hb), Hb. destruct b; reflexivity.
Qed.

Lemma required_name_fires o k req long :
  has_properties o = true -> textual (field o k) = true ->
  runs_to (required_name o k req long)
    (fired [blank_text k req; long_text k long] o).
Proof.
  intros Ho T. unfold runs_to. fire. unfold is_blank, too_long.
  destruct (blank_returns _ T) as (b & Hb & Hs). rewrite Hb.
  destruct b.
  - rewrite (required_name_missing _ _ _ _ Ho Hb). reflexivity.
  - destruct (Hs eq_refl) as [s Es]. rewrite Es in Hb.
    rewrite (required_name_present _ _ _ _ _ Ho Es Hb), Es.
    cbn [length_of bind]. rewrite js_gt_int. cbn [negb andb].
    destruct (100 <? Z.of_nat (String.length s)); reflexivity.
Qed.

Lemma required_member_fires o k member table req prefix list :
  has_properties o = true ->
  Array_join ", " (Object_values table) = Ok list ->
  runs_to (required_member o k member table req prefix)
    (fired [required k req; not_member k member (prefix ++ list)] o).
Proof.
  intros Ho J. unfold runs_to. rewrite (required_member_run _ _ _ _ _ _ _ Ho J).
  fire. destruct (truthy (field o k)); [destruct (member (field o k))|]; reflexivity.
Qed.

Lemma ins_amount_fires o k msg :
  has_properties o = true -> runs_to (ins_amount o k msg) (fired [bad_amount k msg] o).
Proof.
  intros Ho. unfold runs_to, ins_amount. rewrite (get_field _ _ Ho). cbn [bind].
  fire. unfold out_of_range.
  destruct (is_undefined (field o k)); cbn [negb andb]; [reflexivity|].
  destruct (not_number_or_below_returns (field o k) 0) as [b ->]. cbn [bind].
  destruct b; reflexivity.
Qed.

Lemma rx_count_fires o k floor req range :
  has_properties o = true ->
  runs_to (rx_count o k floor req range)
    (fired [no_count k req; bad_count k floor range] o).
Proof.
  intros Ho. unfold runs_to.
  destruct (rx_count_run o k floor req range Ho) as (b & Hb & ->).
  fire. unfold out_of_range, absent. rewrite Hb.
  destruct (is_undefined (field o k) || is_null (field o k)); [reflexivity|].
  destruct b; reflexivity.
Qed.

Lemma ceiling_fires o c :
  has_properties o = true ->
  coercible (field o (amount_field c)) = true ->
  coercible (field o (ceiling_field c)) = true ->
  runs_to (ceiling o (amount_field c) (ceiling_field c) (ceiling_message c))
    (fired [crossed legacyParse (Ceiling c)] o).
Proof.
  intros Ho Ca Cb. unfold runs_to.
  destruct (ceiling_returns o _ _ (ceiling_message c) Ho Ca Cb) as (over & Hover & ->).
  fire. cbn [violated cross_message]. rewrite Hover. destruct over; reflexivity.
Qed.

Lemma ins_dateOrder_fires o :
  has_properties o = true ->
  coercible (field o "effectiveDate") = true ->
  coercible (field o "terminationDate") = true ->
  runs_to (ins_dateOrder legacyParse o) (fired [crossed legacyParse DateOrder] o).
Proof.
  intros Ho He Ht. unfold runs_to, ins_dateOrder.
  rewrite !(get_field _ _ Ho). cbn [bind].
  fire. cbn [violated cross_message].
  destruct (truthy (field o "effectiveDate") && truthy (field o "terminationDate"));
    [|reflexivity].
  destruct (new_Date_returns legacyParse _ He) as [e ->].
  destruct (new_Date_returns legacyParse _ Ht) as [t ->].
  cbn [bind andb]. destruct (date_le t e); reflexivity.
Qed.

Lemma rx_refillsRemaining_fires o :
  has_properties o = true ->
  coercible (field o "refillsRemaining") = true ->
  coercible (field o "refillsAllowed") = true ->
  runs_to (rx_refillsRemaining o)
    (fired
       [ bad_amount "refillsRemaining" "Refills remaining must be a non-negative number";
         mkRule (cross_message (Ceiling RefillsCeiling))
           (fun o => negb (is_undefined (field o "refillsRemaining"))
                     && violated legacyParse (Ceiling RefillsCeiling) o) ] o).
Proof.
  intros Ho Hr Ha. unfold runs_to.
  destruct (rx_refillsRemaining_run o Ho Hr Ha) as (bad & over & Hb & Hover & ->).
  fire. unfold out_of_range.
  cbn [violated cross_message ceiling_message amount_field ceiling_field].
  rewrite Hb, Hover.
  destruct (is_undefined (field o "refillsRemaining")); [reflexivity|].
  destruct bad, over; reflexivity.
Qed.

Lemma rx_status_fires o :
  has_properties o = true ->
  runs_to (rx_status o)
    (fired [ not_member "status" isValidPrescriptionStatus
               ("Invalid prescription status. Must be one of: "
                ++ prescriptionStatusList) ] o).
Proof.
  intros Ho. unfold runs_to. rewrite (rx_status_run _ Ho). fire.
  destruct (truthy (field o "status")
            && negb (isValidPrescriptionStatus (field o "status"))); reflexivity.
Qed.

Lemma user_address_fires user :
  has_properties user = true ->
  textual (field (field user "address") "street") = true ->
  textual (field (field user "address") "city") = true ->
  textual (field (field user "address") "state") = true ->
  coercible (field (field user "address") "zipCode") = true ->
  runs_to (user_address user)
    (fired
       (required "address" "Address is required"
        :: map (within "address")
             [ blank_text "street" "Street address is required";
               blank_text "city" "City is required";
               required "state" "State is required";
               malformed "state" isValidStateCode
                 "Invalid state code (must be 2-letter code like CA, NY)";
               required "zipCode" "ZIP code is required";
               malformed "zipCode" isValidZipCode "Invalid ZIP code format" ]) user).
Proof.
  intros Ho Hst Hci Hsa Hz. unfold runs_to.
  rewrite fired_cons, fired_within. cbn [applies message required].
  destruct (truthy (field user "address")) eqn:T; cbn [negb].
  - pose proof (has_properties_truthy _ T) as Ha.
    unfold user_address. rewrite (get_field _ _ Ho). cbn [bind]. rewrite T.
    cbn [negb app].
    change (fired _ (field user "address")) with
      (fired
         (concat
            [ [blank_text "street" "Street address is required"];
              [blank_text "city" "City is required"];
              [required "state" "State is required";
               malformed "state" isValidStateCode
                 "Invalid state code (must be 2-letter code like CA, NY)"];
              [required "zipCode" "ZIP code is required";
               malformed "zipCode" isValidZipCode "Invalid ZIP code format"] ])
         (field user "address")).
    rewrite fired_concat. cbn [map].
    apply block_run.
    constructor; [exact (required_text_fires _ "street" _ Ha Hst)|].
    constructor; [exact (required_text_fires _ "city" _ Ha Hci)|].
    constructor;
      [exact (required_check_fires _ "state" isValidStateCode _ _ Ha
                (isValidStateCode_returns _ Hsa))|].
    constructor;
      [exact (required_check_fires _ "zipCode" isValidZipCode _ _ Ha
                (fun _ => test_returns _ _ Hz))|].
    constructor.
  - rewrite (user_address_missing _ Ho T). reflexivity.
Qed.

Lemma user_statements_fire user :
  user_shape user = true ->
  Forall2 runs_to (user_statements legacyParse user)
    (map (fun g => fired g user) (user_rules legacyParse)).
Proof.
  intros H. unfold user_shape in H. split_shape H.
  unfold user_statements, user_rules. cbn [map].
  constructor;
    [exact (required_check_fires _ "email" isValidEmail _ _ H
              (fun _ => test_returns _ _ S7))|].
  constructor; [exact (required_name_fires _ "firstName" _ _ H S6)|].
  constructor; [exact (required_name_fires _ "lastName" _ _ H S5)|].
  constructor;
    [exact (required_check_fires _ "dateOfBirth" (isValidDate legacyParse) _ _ H
              (fun _ => isValidDate_returns legacyParse _ S4))|].
  constructor;
    [exact (required_check_fires _ "phoneNumber" isValidPhoneNumber _ _ H
              (fun _ => test_returns _ _ S3))|].
  constructor; [apply user_address_fires; assumption|].
  constructor.
Qed.

Lemma insurance_statements_fire insurance :
  insurance_shape insurance = true ->
  Forall2 runs_to (insurance_statements legacyParse insurance)
    (map (fun g => fired g insurance) (insurance_rules legacyParse)).
Proof.
  intros H. unfold insurance_shape in H. split_shape H.
  unfold insurance_statements, insurance_rules. cbn [map].
  constructor; [exact (required_fires _ "userId" _ H)|].
  constructor; [exact (required_text_fires _ "insuranceCompany" _ H S8)|].
  constructor; [exact (required_text_fires _ "policyNumber" _ H S7)|].
  constructor;
    [exact (required_member_fires _ "planType" isValidPlanType _ _ _ _ H planType_join)|].
  constructor; [exact (required_text_fires _ "planName" _ H S6)|].
  constructor;
    [exact (required_check_fires _ "rxBIN" isValidRxBIN _ _ H
              (fun _ => test_returns _ _ S5))|].
  constructor; [apply ins_amount_fires; assumption|].
  constructor; [apply ins_amount_fires; assumption|].
  constructor; [apply ins_amount_fires; assumption|].
  constructor; [apply ins_amount_fires; assumption|].
  constructor;
    [exact (required_check_fires _ "effectiveDate" (isValidDate legacyParse) _ _ H
              (fun _ => isValidDate_returns legacyParse _ S0))|].
  constructor;
    [exact (optional_check_fires _ "terminationDate" (isValidDate legacyParse) _ H
              (fun _ => isValidDate_returns legacyParse _ S))|].
  constructor; [apply ins_dateOrder_fires; assumption|].
  constructor; [exact (ceiling_fires _ DeductibleCeiling H S3 S4)|].
  constructor; [exact (ceiling_fires _ OutOfPocketCeiling H S1 S2)|].
  constructor.
Qed.

Lemma prescription_statements_fire prescription :
  prescription_shape prescription = true ->
  Forall2 runs_to (prescription_statements legacyParse prescription)
    (map (fun g => fired g prescription) (prescription_rules legacyParse)).
Proof.
  intros H. unfold prescription_shape in H. split_shape H.
  unfold prescription_statements, prescription_rules. cbn [map].
  constructor; [exact (required_fires _ "userId" _ H)|].
  constructor; [exact (required_text_fires _ "medicationName" _ H S8)|].
  constructor;
    [exact (required_member_fires _ "medicationForm" isValidMedicationForm _ _ _ _ H
              medicationForm_join)|].
  constructor; [exact (required_text_fires _ "strength" _ H S7)|].
  constructor;
    [exact (optional_check_fires _ "ndc" isValidNDC _ H
              (fun _ => test_returns _ _ S6))|].
  constructor; [exact (required_text_fires _ "dosageInstructions" _ H S5)|].
  constructor; [apply rx_count_fires; assumption|].
  constructor; [apply rx_count_fires; assumption|].
  constructor; [apply rx_count_fires; assumption|].
  constructor; [apply rx_refillsRemaining_fires; assumption|].
  constructor; [exact (required_text_fires _ "prescriberName" _ H S2)|].
  constructor;
    [exact (required_check_fires _ "prescriberNPI" isValidNPI _ _ H
              (fun _ => test_returns _ _ S1))|].
  constructor;
    [exact (required_check_fires _ "prescribedDate" (isValidDate legacyParse) _ _ H
              (fun _ => isValidDate_returns legacyParse _ S0))|].
  constructor; [apply rx_status_fires; assumption|].
  constructor;
    [exact (optional_check_fires _ "pharmacyNPI" isValidNPI _ H
              (fun _ => test_returns _ _ S))|].
  constructor.
Qed.

(** The outcome of a validator on a well-shaped record, read off its
    rules. *)
Lemma validate_rules e o :
  shape e o = true ->
  validate legacyParse e o =
  Ok {| isValid := forallb (fun r => negb (applies r o)) (rules legacyParse e);
        errors := fired (rules legacyParse e) o |}.
Proof.
  intros H. rewrite validate_statements. unfold rules.
  assert (R : Forall2 runs_to (statements legacyParse e o)
                (map (fun g => fired g o) (rule_groups legacyParse e))).
  { destruct e; cbn [statements rule_groups shape] in *.
    - apply user_statements_fire; assumption.
    - apply insurance_statements_fire; assumption.
    - apply prescription_statements_fire; assumption. }
  rewrite (block_run _ _ R), <- fired_concat. unfold finish. cbn [bind].
  rewrite length_fired_zero. reflexivity.
Qed.

Lemma rules_distinct e : NoDup (map message (rules legacyParse e)).
Proof. apply distinct_NoDup. destruct e; reflexivity. Qed.

Lemma errors_bound e o :
  (List.length (fired (rules legacyParse e) o) <= most_errors e)%nat.
Proof.
  unfold rules. rewrite fired_concat.
  destruct e; cbn [rule_groups user_rules insurance_rules prescription_rules
                   map concat most_errors].
  - change 9%nat with (1 + (1 + (1 + (1 + (1 + (4 + 0))))))%nat.
    repeat (apply length_app_le; [bound_group|]). simpl; lia.
  - change 15%nat with
      (1 + (1 + (1 + (1 + (1 + (1 + (1 + (1 + (1 + (1 + (1 + (1 + (1 + (1 + (1 + 0)))))))))))))))%nat.
    repeat (apply length_app_le; [bound_group|]). simpl; lia.
  - change 16%nat with
      (1 + (1 + (1 + (1 + (1 + (1 + (1 + (1 + (1 + (2 + (1 + (1 + (1 + (1 + (1 + 0)))))))))))))))%nat.
    repeat (apply length_app_le; [bound_group|]). simpl; lia.
Qed.

Lemma presence_rule_listed f :
  In (presence_rule f) (rules legacyParse (field_entity f)).
Proof. destruct f; simpl; auto 30. Qed.

Lemma range_rule_listed f :
  In (range_rule f) (rules legacyParse (numeric_entity f)).
Proof. destruct f; simpl; auto 30. Qed.

Lemma out_of_range_number floor n :
  out_of_range floor (VNum n) = num_lt n (Fin floor 0).
Proof.
  unfold out_of_range, not_number_or_below. cbn [typeof String.eqb negb].
  change (if negb ("number" =? "number")%string then Ok true
          else js_lt (VNum n) (int floor)) with (js_lt (VNum n) (int floor)).
  unfold int. rewrite js_lt_num. reflexivity.
Qed.

(** X2.  On a well-shaped record each validator returns, and its result is
    the one its rule table gives: the errors are the messages of the rules
    that apply to the record, in the order of the table, and the record is
    valid exactly when no rule applies. *)
Theorem validators_follow_their_rules (e : entity) (o : value) :
  shape e o = true ->
  validate legacyParse e o =
  Ok {| isValid := forallb (fun r => negb (applies r o)) (rules legacyParse e);
        errors := fired (rules legacyParse e) o |}.
Proof. exact (validate_rules e o). Qed.

(** X3.  On a well-shaped record no message is reported twice, and the
    number of errors is bounded: at most 9 for a user, 15 for an insurance
    and 16 for a prescription. *)
Theorem errors_are_distinct_and_bounded (e : entity) (o : value) :
  shape e o = true ->
  exists r, validate legacyParse e o = Ok r /\
            NoDup (errors r) /\
            (List.length (errors r) <= most_errors e)%nat.
Proof.
  intros H. rewrite (validate_rules e o H).
  eexists; split; [reflexivity|]. cbn [errors]. split.
  - apply fired_NoDup, rules_distinct.
  - apply errors_bound.
Qed.

(** X4.  On a well-shaped record the presence message of a required field
    is reported exactly when the test of the field holds: the value is
    falsy (so [0], [false] and [NaN] count as missing, like the empty
    string); for a free-text field, falsy or blank after trimming; for a
    count, [undefined] or [null]; for a part of the address, moreover only
    when there is an address.  When it is reported, no format or range
    message about the same field is. *)
Theorem presence_error_exactly_when_missing (f : required_field) (o : value) :
  shape (field_entity f) o = true ->
  exists r, validate legacyParse (field_entity f) o = Ok r /\
            (In (presence_message f) (errors r) <-> presence_test f o = true) /\
            (presence_test f o = true ->
             forall m, In m (format_messages f) -> ~ In m (errors r)).
Proof.
  intros H. rewrite (validate_rules _ o H).
  eexists; split; [reflexivity|]. cbn [errors]. split.
  - replace (presence_message f) with (message (presence_rule f))
      by (destruct f; reflexivity).
    replace (presence_test f o) with (applies (presence_rule f) o)
      by (destruct f; reflexivity).
    apply fired_In; [apply rules_distinct | apply presence_rule_listed].
  - intros Hp m Hm Hin.
    apply fired_In_inv in Hin as (r & Hr & Em & Ha).
    destruct f; cbn [format_messages In] in Hm; try contradiction;
      cbn [field_entity rules rule_groups concat user_rules insurance_rules
           prescription_rules app In] in Hr;
      repeat (destruct Hm as [<- | Hm]; [|]); try contradiction;
      repeat (destruct Hr as [<- | Hr]; [try discriminate Em|]); try contradiction;
      cbn in Ha, Hp; test_atoms; discriminate.
Qed.

(** X5.  On a well-shaped record in which a numeric field holds a number,
    the range message of the field is reported exactly when the number is
    below the floor of the field (1 for the quantity and the days supply, 0
    for the others).  [NaN] and [Infinity] are below nothing, and pass. *)
Theorem range_error_exactly_when_below (f : numeric_field) (o : value) (n : number) :
  shape (numeric_entity f) o = true ->
  field o (numeric_key f) = VNum n ->
  exists r, validate legacyParse (numeric_entity f) o = Ok r /\
            (In (range_message f) (errors r) <->
             num_lt n (Fin (numeric_floor f) 0) = true) /\
            (n = NaN \/ n = Inf false -> ~ In (range_message f) (errors r)).
Proof.
  intros H F. rewrite (validate_rules _ o H).
  eexists; split; [reflexivity|]. cbn [errors].
  assert (E : In (range_message f) (fired (rules legacyParse (numeric_entity f)) o)
              <-> num_lt n (Fin (numeric_floor f) 0) = true).
  { replace (range_message f) with (message (range_rule f))
      by (destruct f; reflexivity).
    rewrite (fired_In _ o (range_rule f)
               (rules_distinct _) (range_rule_listed f)).
    destruct f; cbn [range_rule applies bad_amount bad_count numeric_key
                     numeric_floor] in *;
      unfold absent; rewrite F, out_of_range_number; reflexivity. }
  split; [exact E|].
  intros [-> | ->] Hin; apply E in Hin; discriminate Hin.
Qed.

End RuleFacts.

(** ** Reading a match back *)

Lemma lang_Cls_inv p w : lang (Cls p) w -> exists c, w = [c] /\ p c = true.
Proof. intros H. inversion H; subst. eauto. Qed.

Lemma lang_Chr_inv c w : lang (Chr c) w -> w = [c].
Proof.
  intros H. apply lang_Cls_inv in H as (x & -> & E).
  apply Ascii.eqb_eq in E. subst. reflexivity.
Qed.

Lemma lang_Eps_inv w : lang Eps w -> w = [].
Proof. intros H. inversion H. reflexivity. Qed.

Lemma lang_Alt_inv r1 r2 w : lang (Alt r1 r2) w -> lang r1 w \/ lang r2 w.
Proof. intros H. inversion H; subst; auto. Qed.

Lemma lang_Opt_inv r w : lang (Opt r) w -> w = [] \/ lang r w.
Proof.
  intros H. apply lang_Alt_inv in H as [H | H]; [auto|].
  left. apply lang_Eps_inv. assumption.
Qed.

Lemma lang_Rep_inv p n w :
  lang (Rep n (Cls p)) w -> List.length w = n /\ forallb p w = true.
Proof.
  revert w. induction n as [| n IH]; intros w H; simpl in H.
  - apply lang_Eps_inv in H as ->. split; reflexivity.
  - apply lang_Seq_inv in H as (u & v & -> & Hu & Hv).
    apply lang_Cls_inv in Hu as (c & -> & Hc).
    destruct (IH _ Hv) as [Hl Hp]. simpl. rewrite Hc, Hl, Hp. split; reflexivity.
Qed.

Lemma lang_Rep_Opt_inv p n w :
  lang (Rep n (Opt (Cls p))) w -> (List.length w <= n)%nat /\ forallb p w = true.
Proof.
  revert w. induction n as [| n IH]; intros w H; simpl in H.
  - apply lang_Eps_inv in H as ->. split; [simpl; lia | reflexivity].
  - apply lang_Seq_inv in H as (u & v & -> & Hu & Hv).
    destruct (IH _ Hv) as [Hl Hp].
    apply lang_Opt_inv in Hu as [-> | Hu].
    + simpl. split; [lia | assumption].
    + apply lang_Cls_inv in Hu as (c & -> & Hc). simpl. rewrite Hc, Hp.
      split; [lia | reflexivity].
Qed.

Lemma lang_Range_inv p lo hi w :
  (lo <= hi)%nat -> lang (Range lo hi (Cls p)) w ->
  (lo <= List.length w <= hi)%nat /\ forallb p w = true.
Proof.
  intros Hle H. unfold Range in H.
  apply lang_Seq_inv in H as (u & v & -> & Hu & Hv).
  apply lang_Rep_inv in Hu as [Hlu Hpu].
  apply lang_Rep_Opt_inv in Hv as [Hlv Hpv].
  rewrite length_app, forallb_app, Hpu, Hpv. split; [lia | reflexivity].
Qed.

Lemma lang_Star_Cls_inv p w : lang (Star (Cls p)) w -> forallb p w = true.
Proof.
  intros H. remember (Star (Cls p)) as r eqn:Er. induction H; try discriminate.
  - reflexivity.
  - injection Er as ->. apply lang_Cls_inv in H as (c & -> & Hc).
    simpl. rewrite Hc. auto.
Qed.

Lemma lang_Plus_Cls_inv p w :
  lang (Plus (Cls p)) w -> w <> [] /\ forallb p w = true.
Proof.
  intros H. unfold Plus in H. apply lang_Seq_inv in H as (u & v & -> & Hu & Hv).
  apply lang_Cls_inv in Hu as (c & -> & Hc). apply lang_Star_Cls_inv in Hv.
  simpl. rewrite Hc, Hv. split; [discriminate | reflexivity].
Qed.

Lemma test_true_lang re s : test re (VStr s) = Ok true <-> lang re (chars s).
Proof.
  rewrite test_string, <- accepts_lang.
  split; [intros E; injection E; auto | intros ->; reflexivity].
Qed.

Lemma digits_of_lang n w : lang (Rep n digit) w -> all_digits n w.
Proof. intros H. apply lang_Rep_inv in H. exact H. Qed.

Lemma run_of_lang w : lang (Plus not_space_at) w -> is_run w.
Proof. intros H. apply lang_Plus_Cls_inv in H. exact H. Qed.

Lemma date_fields_of_match s :
  lang dateRegex (chars s) -> exists y m d, date_fields s = Some (y, m, d).
Proof.
  unfold dateRegex. intros H.
  apply lang_Seq_inv in H as (yy & r1 & E1 & Hy & H).
  apply lang_Seq_inv in H as (h1 & r2 & E2 & Hh1 & H).
  apply lang_Seq_inv in H as (mm & r3 & E3 & Hm & H).
  apply lang_Seq_inv in H as (h2 & dd & E4 & Hh2 & Hd).
  apply lang_Chr_inv in Hh1 as ->. apply lang_Chr_inv in Hh2 as ->.
  apply lang_Rep_inv in Hy as [Ly Py].
  apply lang_Rep_inv in Hm as [Lm Pm].
  apply lang_Rep_inv in Hd as [Ld Pd].
  subst.
  destruct yy as [| y1 [| y2 [| y3 [| y4 [| ? ?]]]]]; try discriminate Ly.
  destruct mm as [| m1 [| m2 [| ? ?]]]; try discriminate Lm.
  destruct dd as [| d1 [| d2 [| ? ?]]]; try discriminate Ld.
  unfold date_fields. rewrite E1. cbn [app Ascii.eqb Bool.eqb andb].
  cbn [forallb] in *.
  repeat match goal with H : _ && _ = true |- _ => apply andb_true_iff in H as [? H] end.
  repeat match goal with H : is_digit _ = true |- _ => rewrite H; clear H end.
  cbn [andb]. eauto.
Qed.

(** X6.  [isValidEmail] accepts a string exactly when it is a run of
    characters, [@], a run, a dot and a run, where a run is not empty and
    holds neither white space nor [@]. *)
Theorem isValidEmail_accepts_exactly_the_format (s : string) :
  isValidEmail (VStr s) = Ok true <-> email_format s.
Proof.
  split; [|intros H; apply email_format_valid; assumption].
  unfold isValidEmail. rewrite test_true_lang. unfold emailRegex. intros H.
  apply lang_Seq_inv in H as (a & r1 & E1 & Ha & H).
  apply lang_Seq_inv in H as (at' & r2 & E2 & Hat & H).
  apply lang_Seq_inv in H as (b & r3 & E3 & Hb & H).
  apply lang_Seq_inv in H as (dot & c & E4 & Hdot & Hc).
  apply lang_Chr_inv in Hat as ->. apply lang_Chr_inv in Hdot as ->.
  subst. exists a, b, c. split; [exact E1|].
  split; [|split]; apply run_of_lang; assumption.
Qed.

(** X7.  [isValidPhoneNumber] accepts a string exactly when it is an
    optional [+], an optional [1] and then 10 to 14 digits; no space, dash,
    dot or parenthesis is accepted. *)
Theorem isValidPhoneNumber_accepts_exactly_the_format (s : string) :
  isValidPhoneNumber (VStr s) = Ok true <-> phone_format s.
Proof.
  split; [|intros H; apply phone_format_valid; assumption].
  unfold isValidPhoneNumber. rewrite test_true_lang. unfold phoneRegex. intros H.
  apply lang_Seq_inv in H as (plus & r1 & E1 & Hp & H).
  apply lang_Seq_inv in H as (one & ds & E2 & Ho & Hd).
  apply lang_Range_inv in Hd as [Hl Hd]; [|lia].
  subst. exists plus, one, ds. split; [assumption|].
  split; [apply lang_Opt_inv in Hp as [-> | Hp];
          [auto | right; apply lang_Chr_inv; assumption]|].
  split; [apply lang_Opt_inv in Ho as [-> | Ho];
          [auto | right; apply lang_Chr_inv; assumption]|].
  split; assumption.
Qed.

(** X8.  The checkers of digit groups accept exactly their formats: a ZIP
    code is five digits, or five digits, a dash and four digits; an RxBIN is
    six digits; an NDC is five, four and two digits separated by dashes; an
    NPI is ten digits. *)
Theorem digit_group_checkers_accept_exactly_their_formats (s : string) :
  (isValidZipCode (VStr s) = Ok true <-> zip_format s) /\
  (isValidRxBIN (VStr s) = Ok true <-> digits_format 6 s) /\
  (isValidNDC (VStr s) = Ok true <-> ndc_format s) /\
  (isValidNPI (VStr s) = Ok true <-> digits_format 10 s).
Proof.
  split; [|split; [|split]].
  - split; [|intros H; apply zip_format_valid; assumption].
    unfold isValidZipCode. rewrite test_true_lang. unfold zipRegex. intros H.
    apply lang_Seq_inv in H as (a & r & E & Ha & H).
    apply digits_of_lang in Ha.
    apply lang_Opt_inv in H as [-> | H].
    + left. rewrite E, app_nil_r. assumption.
    + apply lang_Seq_inv in H as (h & b & -> & Hh & Hb).
      apply lang_Chr_inv in Hh as ->. apply digits_of_lang in Hb.
      right. exists a, b. split; [exact E | split; assumption].
  - unfold isValidRxBIN. rewrite test_true_lang. unfold rxBINRegex, digits_format.
    split; [apply digits_of_lang | apply lang_digits].
  - split; [|intros H; apply ndc_format_valid; assumption].
    unfold isValidNDC. rewrite test_true_lang. unfold ndcRegex. intros H.
    apply lang_Seq_inv in H as (a & r1 & E1 & Ha & H).
    apply lang_Seq_inv in H as (h1 & r2 & E2 & Hh1 & H).
    apply lang_Seq_inv in H as (b & r3 & E3 & Hb & H).
    apply lang_Seq_inv in H as (h2 & c & E4 & Hh2 & Hc).
    apply lang_Chr_inv in Hh1 as ->. apply lang_Chr_inv in Hh2 as ->.
    subst. exists a, b, c. split; [exact E1|].
    split; [|split]; apply digits_of_lang; assumption.
  - unfold isValidNPI. rewrite test_true_lang. unfold npiRegex, digits_format.
    split; [apply digits_of_lang | apply lang_digits].
Qed.

Section DateVerdict.

Variable legacyParse : string -> time_value.

(** X9.  On a string, [isValidDate] returns the verdict [date_verdict]:
    [true] for every string of the pattern [dddd-dd-dd] whose month is
    01..12 and whose day is 01..31, whatever the length of the month;
    [false] for every string that is not of the pattern; and what the
    engine's fallback parser makes of the string in the remaining case, a
    month or a day outside these ranges. *)
Theorem isValidDate_verdict_on_strings (s : string) :
  isValidDate legacyParse (VStr s) = Ok (date_verdict legacyParse s).
Proof.
  unfold isValidDate, date_verdict. rewrite test_string. cbn [bind].
  destruct (accepts dateRegex (chars s)) eqn:A.
  - apply accepts_lang, date_fields_of_match in A as (y & m & d & F).
    cbn [negb]. unfold new_Date. cbn [ToPrimitive bind]. unfold Date_parse.
    rewrite F. destruct ((1 <=? m) && (m <=? 12) && (1 <=? d) && (d <=? 31));
      reflexivity.
  - cbn [negb]. destruct (date_fields s) as [[[y m] d] |] eqn:F; [|reflexivity].
    apply date_fields_matches in F. rewrite test_string in F. congruence.
Qed.

End DateVerdict.

(** ** The period in which an insurance is active *)

Lemma block_inv stmts l :
  block stmts = Ok l ->
  exists outs, Forall2 runs_to stmts outs /\ l = concat outs.
Proof.
  revert l. induction stmts as [| s stmts IH]; intros l H; simpl in H.
  - injection H as <-. exists []. split; [constructor | reflexivity].
  - destruct s as [a | e]; cbn [bind] in H; [|discriminate].
    destruct (block stmts) as [b | e]; cbn [bind] in H; [|discriminate].
    injection H as <-. destruct (IH b eq_refl) as (outs & Ho & ->).
    exists (a :: outs). split; [constructor; [reflexivity | assumption] | reflexivity].
Qed.

Lemma concat_nil (outs : list (list string)) :
  concat outs = [] -> Forall (fun l => l = []) outs.
Proof.
  induction outs as [| l outs IH]; simpl; intros H; constructor.
  - destruct l; [reflexivity | discriminate].
  - apply IH. destruct l; [assumption | discriminate].
Qed.

Lemma field_of_get o k v : get o k = Ok v -> field o k = v.
Proof. unfold field. intros ->. reflexivity. Qed.

Lemma get_has_properties o k v : get o k = Ok v -> has_properties o = true.
Proof. destruct o; simpl; intros H; try reflexivity; discriminate. Qed.

Section Active.

Variable legacyParse : string -> time_value.

Lemma isValidDate_true v :
  isValidDate legacyParse v = Ok true ->
  exists t, new_Date legacyParse v = Ok (Some t).
Proof.
  unfold isValidDate. destruct (test dateRegex v) as [m | e]; cbn [bind]; [|discriminate].
  destruct m; cbn [negb]; [|discriminate].
  destruct (new_Date legacyParse v) as [[t |] | e]; cbn [bind date_is_valid];
    try discriminate.
  eauto.
Qed.

Lemma isInsuranceActive_period o eff term :
  has_properties o = true ->
  new_Date legacyParse (field o "effectiveDate") = Ok (Some eff) ->
  match term with
  | Some t => truthy (field o "terminationDate") = true /\
              new_Date legacyParse (field o "terminationDate") = Ok (Some t)
  | None => truthy (field o "terminationDate") = false
  end ->
  forall now,
    isInsuranceActive legacyParse now o =
    Ok (in_period eff term now && negb (is_false (field o "isActive"))).
Proof.
  intros Ho He Ht now. unfold isInsuranceActive, in_period.
  rewrite (get_field _ _ Ho). cbn [bind]. rewrite He. cbn [bind date_gt date_lt].
  destruct (Z.ltb_spec now eff) as [L | L].
  - replace (eff <=? now) with false by (symmetry; apply Z.leb_gt; lia). reflexivity.
  - replace (eff <=? now) with true by (symmetry; apply Z.leb_le; lia).
    rewrite (get_field _ _ Ho). cbn [bind andb].
    destruct term as [t |].
    + destruct Ht as [T Et]. rewrite T, Et. cbn [bind date_lt].
      destruct (Z.ltb_spec t now) as [L' | L'].
      * replace (now <=? t) with false by (symmetry; apply Z.leb_gt; lia). reflexivity.
      * replace (now <=? t) with true by (symmetry; apply Z.leb_le; lia).
        cbn [bind]. rewrite (get_field _ _ Ho). reflexivity.
    + rewrite Ht. cbn [bind]. rewrite (get_field _ _ Ho). reflexivity.
Qed.

(** X10.  An insurance that [validateInsurance] finds valid has a period of
    activity that is not empty: its effective date denotes an instant
    [eff]; its termination date, when there is one, denotes an instant
    after [eff]; and [isInsuranceActive] reports it active exactly at the
    instants from [eff] to the termination instant, both included, unless
    its [isActive] flag is [false]. *)
Theorem valid_insurance_has_a_coverage_period (o : value) (r : ValidationResult) :
  validateInsurance legacyParse o = Ok r ->
  isValid r = true ->
  exists (eff : Z) (term : option Z),
    new_Date legacyParse (field o "effectiveDate") = Ok (Some eff) /\
    match term with
    | Some t => new_Date legacyParse (field o "terminationDate") = Ok (Some t) /\
                eff < t
    | None => truthy (field o "terminationDate") = false
    end /\
    (forall now,
       isInsuranceActive legacyParse now o =
       Ok (in_period eff term now && negb (is_false (field o "isActive")))) /\
    in_period eff term eff = true.
Proof.
  intros Hv Hvalid. rewrite validateInsurance_statements in Hv. unfold finish in Hv.
  destruct (block (insurance_statements legacyParse o)) as [errs | e] eqn:B;
    cbn [bind] in Hv; [|discriminate].
  injection Hv as <-. cbn [isValid] in Hvalid.
  destruct errs; [|discriminate]. clear Hvalid.
  apply block_inv in B as (outs & Ho & Hc). symmetry in Hc. apply concat_nil in Hc.
  unfold insurance_statements in Ho. split_outcomes.
  repeat match goal with H : Forall _ (_ :: _) |- _ =>
    let E := fresh "E" in inversion H as [| ? ? E ?]; subst; clear H end.
  match goal with R : runs_to (ins_effectiveDate _ _) _ |- _ => rename R into Re end.
  match goal with R : runs_to (ins_terminationDate _ _) _ |- _ => rename R into Rt end.
  match goal with R : runs_to (ins_dateOrder _ _) _ |- _ => rename R into Rd end.
  unfold runs_to, ins_effectiveDate in Re.
  destruct (get o "effectiveDate") as [ve | ?] eqn:Ge; cbn [bind] in Re; [|discriminate].
  pose proof (get_has_properties _ _ _ Ge) as Hp.
  pose proof (field_of_get _ _ _ Ge) as Fe.
  destruct (truthy ve) eqn:Te; cbn [negb] in Re; [|discriminate].
  destruct (isValidDate legacyParse ve) as [[|] | ?] eqn:Ve; cbn [bind negb] in Re;
    try discriminate.
  destruct (isValidDate_true _ Ve) as [eff Eeff].
  unfold runs_to, ins_terminationDate in Rt.
  destruct (get o "terminationDate") as [vt | ?] eqn:Gt; cbn [bind] in Rt; [|discriminate].
  pose proof (field_of_get _ _ _ Gt) as Ft.
  unfold runs_to, ins_dateOrder in Rd. rewrite Ge, Gt in Rd. cbn [bind] in Rd.
  rewrite Te in Rd. cbn [andb] in Rd.
  exists eff.
  destruct (truthy vt) eqn:Tt.
  - destruct (isValidDate legacyParse vt) as [[|] | ?] eqn:Vt; cbn [bind negb] in Rt;
      try discriminate.
    destruct (isValidDate_true _ Vt) as [term Eterm].
    rewrite Eeff, Eterm in Rd. cbn [bind date_le] in Rd.
    destruct (Z.leb_spec term eff) as [L | L]; [discriminate|].
    exists (Some term).
    split; [rewrite Fe; assumption|].
    split; [split; [rewrite Ft; assumption | assumption]|]. split.
    + intros now.
      apply (isInsuranceActive_period o eff (Some term) Hp);
        [rewrite Fe; assumption | rewrite Ft; split; assumption].
    + unfold in_period. rewrite Z.leb_refl. apply Z.leb_le. lia.
  - exists None.
    split; [rewrite Fe; assumption|].
    split; [rewrite Ft; assumption|]. split.
    + intros now.
      apply (isInsuranceActive_period o eff None Hp);
        [rewrite Fe; assumption | rewrite Ft; assumption].
    + unfold in_period. rewrite Z.leb_refl. reflexivity.
Qed.

(** X11.  The instants at which [isInsuranceActive] reports a record
    active form an interval: a record active at two instants is active at
    every instant between them. *)
Theorem active_instants_form_an_interval (o : value) (t1 t2 t3 : Z) :
  t1 <= t2 <= t3 ->
  isInsuranceActive legacyParse t1 o = Ok true ->
  isInsuranceActive legacyParse t3 o = Ok true ->
  isInsuranceActive legacyParse t2 o = Ok true.
Proof.
  intros Hle H1 H3. unfold isInsuranceActive in *.
  destruct (get o "effectiveDate") as [ve | ?]; cbn [bind] in *; [|discriminate].
  destruct (new_Date legacyParse ve) as [eff | ?]; cbn [bind] in *; [|discriminate].
  assert (Eeff : date_gt eff (Some t2) = false).
  { destruct eff as [e |]; [|reflexivity]. cbn [date_gt date_lt] in *.
    destruct (Z.ltb_spec t1 e); [discriminate|]. apply Z.ltb_ge. lia. }
  rewrite Eeff.
  destruct (date_gt eff (Some t1)); [discriminate|].
  destruct (date_gt eff (Some t3)); [discriminate|].
  destruct (get o "terminationDate") as [vt | ?]; cbn [bind] in *; [|discriminate].
  destruct (truthy vt).
  - destruct (new_Date legacyParse vt) as [term | ?]; cbn [bind] in *; [|discriminate].
    assert (Eterm : date_lt term (Some t2) = false).
    { destruct term as [t |]; [|reflexivity]. cbn [date_lt] in *.
      destruct (Z.ltb_spec t t3); [discriminate|]. apply Z.ltb_ge. lia. }
    rewrite Eterm.
    destruct (date_lt term (Some t1)); [discriminate|]. exact H1.
  - cbn [bind] in *. exact H1.
Qed.

(** X12.  A date that does not parse never makes an insurance inactive:
    when the effective date is missing or invalid, and the termination date
    is missing or invalid too, [isInsuranceActive] reports the record active
    at every instant, unless its [isActive] flag is [false]. *)
Theorem unparseable_dates_never_deactivate (o : value) :
  has_properties o = true ->
  new_Date legacyParse (field o "effectiveDate") = Ok None ->
  truthy (field o "terminationDate") = false \/
  new_Date legacyParse (field o "terminationDate") = Ok None ->
  forall now,
    isInsuranceActive legacyParse now o = Ok (negb (is_false (field o "isActive"))).
Proof.
  intros Ho He Ht now. unfold isInsuranceActive.
  rewrite (get_field _ _ Ho). cbn [bind]. rewrite He. cbn [bind date_gt date_lt].
  rewrite (get_field _ _ Ho). cbn [bind].
  destruct Ht as [T | Et].
  - rewrite T. cbn [bind]. rewrite (get_field _ _ Ho). reflexivity.
  - destruct (truthy (field o "terminationDate")).
    + rewrite Et. cbn [bind date_lt]. rewrite (get_field _ _ Ho). reflexivity.
    + cbn [bind]. rewrite (get_field _ _ Ho). reflexivity.
Qed.

End Active.

(** * Properties of utils/common.js *)

(** ** sanitizeInput *)

Lemma trim_start_split s :
  exists a, s = a ++ trim_start s /\ all_space a = true.
Proof.
  induction s as [| c s (a & E & Ha)]; simpl.
  - exists "". split; reflexivity.
  - destruct (is_space c) eqn:Hc.
    + exists (String c a). split; [simpl; f_equal; exact E|].
      unfold all_space in *. simpl. rewrite Hc. exact Ha.
    + exists "". split; reflexivity.
Qed.

Lemma trim_start_clean s : starts_clean (trim_start s) = true.
Proof.
  induction s as [| c s IH]; simpl; [reflexivity|].
  destruct (is_space c) eqn:Hc; [assumption|]. simpl. rewrite Hc. reflexivity.
Qed.

Lemma trim_start_of_clean s : starts_clean s = true -> trim_start s = s.
Proof.
  destruct s as [| c s]; simpl; [reflexivity|].
  destruct (is_space c); [discriminate | reflexivity].
Qed.

Lemma trim_end_cons c s :
  trim_end (String c s) =
  match trim_end s with
  | EmptyString => if is_space c then EmptyString else String c EmptyString
  | rest => String c rest
  end.
Proof. reflexivity. Qed.

Lemma trim_end_split s :
  exists b, s = trim_end s ++ b /\ all_space b = true.
Proof.
  induction s as [| c s (b & E & Hb)].
  - exists "". split; reflexivity.
  - rewrite trim_end_cons. destruct (trim_end s) as [| x r] eqn:T.
    + destruct (is_space c) eqn:Hc.
      * exists (String c b). simpl in E. split; [simpl; f_equal; exact E|].
        unfold all_space in *. simpl. rewrite Hc. exact Hb.
      * exists b. simpl in *. split; [f_equal; exact E | exact Hb].
    + exists b. split; [simpl; f_equal; exact E | exact Hb].
Qed.

Lemma trim_end_clean s : ends_clean (trim_end s) = true.
Proof.
  induction s as [| c s IH]; [reflexivity|].
  rewrite trim_end_cons. destruct (trim_end s) as [| x r].
  - destruct (is_space c) eqn:Hc; simpl; [reflexivity | rewrite Hc; reflexivity].
  - exact IH.
Qed.

Lemma trim_end_of_clean s : ends_clean s = true -> trim_end s = s.
Proof.
  induction s as [| c s IH]; [reflexivity|]. intros H.
  rewrite trim_end_cons. destruct s as [| x r].
  - simpl in *. destruct (is_space c); [discriminate | reflexivity].
  - rewrite IH by exact H. reflexivity.
Qed.

Lemma trim_end_starts_clean s :
  starts_clean s = true -> starts_clean (trim_end s) = true.
Proof.
  destruct s as [| c s]; [reflexivity|]. intros H.
  rewrite trim_end_cons. destruct (trim_end s).
  - destruct (is_space c); [reflexivity | exact H].
  - exact H.
Qed.

Lemma trim_clean s : starts_clean (trim s) = true /\ ends_clean (trim s) = true.
Proof.
  unfold trim. split.
  - apply trim_end_starts_clean, trim_start_clean.
  - apply trim_end_clean.
Qed.

Lemma trim_of_clean s :
  starts_clean s = true -> ends_clean s = true -> trim s = s.
Proof.
  intros Hs He. unfold trim. rewrite (trim_start_of_clean _ Hs).
  apply trim_end_of_clean. exact He.
Qed.

Lemma trim_split s :
  exists a b, s = a ++ trim s ++ b /\ all_space a = true /\ all_space b = true.
Proof.
  destruct (trim_start_split s) as (a & Ea & Ha).
  destruct (trim_end_split (trim_start s)) as (b & Eb & Hb).
  exists a, b. unfold trim. rewrite <- Eb. auto.
Qed.

Lemma sanitizeInput_value v :
  sanitizeInput v = Ok (match v with VStr s => VStr (trim s) | _ => v end).
Proof. destruct v; reflexivity. Qed.

(** X13.  [sanitizeInput] returns for every input and is idempotent.  A
    value that is not a string comes back as it is.  A string comes back
    without the white space at its two ends and otherwise unchanged: the
    input is the output between two runs of white space, and the output
    neither starts nor ends with white space. *)
Theorem sanitizeInput_strips_surrounding_white_space (input : value) :
  exists out,
    sanitizeInput input = Ok out /\
    sanitizeInput out = Ok out /\
    (typeof input <> "string" -> out = input) /\
    (forall s, input = VStr s ->
       exists a t b,
         out = VStr t /\ s = a ++ t ++ b /\
         all_space a = true /\ all_space b = true /\
         starts_clean t = true /\ ends_clean t = true).
Proof.
  rewrite sanitizeInput_value. eexists. split; [reflexivity|].
  split; [|split].
  - destruct input; try reflexivity. rewrite sanitizeInput_value.
    destruct (trim_clean s) as [Hs He]. rewrite (trim_of_clean _ Hs He). reflexivity.
  - destruct input; try reflexivity. intros H. contradiction H. reflexivity.
  - intros s ->. destruct (trim_split s) as (a & b & E & Ha & Hb).
    destruct (trim_clean s) as [Hs He].
    exists a, (trim s), b. repeat split; assumption.
Qed.

(** ** generateUUID *)

Lemma random_nibble_range d : unit_interval d -> 0 <= random_nibble d < 16.
Proof.
  unfold unit_interval, random_nibble, ToInt32. intros [H0 H1].
  assert (Hq : 0 <= Z.quot (num d * 16) (den d) < 16).
  { rewrite Z.quot_div_nonneg by lia.
    split; [apply Z.div_pos; lia | apply Z.div_lt_upper_bound; lia]. }
  rewrite Z.mod_small by (change (2 ^ 31) with 2147483648;
                          change (2 ^ 32) with 4294967296; lia).
  lia.
Qed.

Lemma nibble_cases v : 0 <= v < 16 ->
  v = 0 \/ v = 1 \/ v = 2 \/ v = 3 \/ v = 4 \/ v = 5 \/ v = 6 \/ v = 7 \/
  v = 8 \/ v = 9 \/ v = 10 \/ v = 11 \/ v = 12 \/ v = 13 \/ v = 14 \/ v = 15.
Proof. lia. Qed.

Lemma replacement_x d :
  unit_interval d ->
  exists c, uuid_replacement "x" d = String c "" /\ is_hex c = true.
Proof.
  intros H. apply random_nibble_range, nibble_cases in H.
  unfold uuid_replacement. cbn [Ascii.eqb Bool.eqb]. cbv zeta.
  repeat (destruct H as [E | H]; [rewrite E; eexists; split; reflexivity|]).
  rewrite H. eexists; split; reflexivity.
Qed.

Lemma replacement_y d :
  unit_interval d ->
  exists c, uuid_replacement "y" d = String c "" /\ is_variant c = true.
Proof.
  intros H. apply random_nibble_range, nibble_cases in H.
  unfold uuid_replacement. cbn [Ascii.eqb Bool.eqb]. cbv zeta.
  repeat (destruct H as [E | H]; [rewrite E; eexists; split; reflexivity|]).
  rewrite H. eexists; split; reflexivity.
Qed.

Section RandomFacts.

Variable random : nat -> draw.

Hypothesis random_range : forall i, unit_interval (random i).

(** X14.  Whatever [Math.random()] returns, [generateUUID] makes exactly
    31 draws and returns a string of 36 characters in the textual form of a
    version 4 identifier: lower-case hexadecimal digits in groups of 8, 4,
    4, 4 and 12 separated by dashes, the third group starting with [4] and
    the fourth with one of [8], [9], [a], [b]. *)
Theorem generateUUID_yields_version_4_format (calls : nat) :
  exists s,
    generateUUID random calls = (s, (calls + 31)%nat) /\
    String.length s = 36%nat /\
    accepts uuid4Regex (chars s) = true.
Proof using random_range.
  unfold generateUUID.
  cbn [replace_xy Ascii.eqb Bool.eqb orb].
  repeat match goal with
  | |- context [uuid_replacement "x" (random ?k)] =>
      let c := fresh "c" in let E := fresh "E" in let Hc := fresh "Hc" in
      destruct (replacement_x (random k) (random_range k)) as (c & E & Hc);
      rewrite E; clear E
  end.
  match goal with
  | |- context [uuid_replacement "y" (random ?k)] =>
      let c := fresh "c" in let E := fresh "E" in let Hc := fresh "Hc" in
      destruct (replacement_y (random k) (random_range k)) as (c & E & Hc);
      rewrite E; clear E
  end.
  cbn [append]. eexists. split; [f_equal; lia|]. split; [reflexivity|].
  apply accepts_lang.
  cbn [chars list_ascii_of_string]. unfold uuid4Regex.
  repeat match goal with
  | |- lang (Seq (Rep ?n _) _) ?w =>
      rewrite <- (firstn_skipn n w); cbn [firstn skipn];
      apply L_Seq;
      [apply lang_Rep; [reflexivity|]; cbn [forallb];
       repeat match goal with H : is_hex _ = true |- _ => rewrite H; clear H end;
       reflexivity|]
  | |- lang (Seq (Chr ?c) _) (?x :: ?w) =>
      change (x :: w) with ([x] ++ w)%list; apply L_Seq; [apply lang_Chr|]
  | |- lang (Seq (Cls _) _) (?x :: ?w) =>
      change (x :: w) with ([x] ++ w)%list; apply L_Seq; [constructor; assumption|]
  end.
  apply lang_Rep; [reflexivity|]. cbn [forallb].
  repeat match goal with H : is_hex _ = true |- _ => rewrite H; clear H end.
  reflexivity.
Qed.

End RandomFacts.

(** ** getCurrentDate and getCurrentDateTime *)

Ltac months_unfold :=
  cbv [DaysInMonth DaysBeforeMonth Z.eqb Z.leb Z.compare Pos.eqb Pos.compare
       Pos.compare_cont orb] in *.

Lemma year_of_day_spec d :
  DayFromYear (year_of_day d) <= d < DayFromYear (year_of_day d + 1).
Proof.
  unfold year_of_day.
  set (y := 1970 + 400 * d / 146097).
  assert (Hy : DayFromYear (y - 1) <= d < DayFromYear (y + 2)).
  { subst y. unfold DayFromYear. Z.div_mod_to_equations. lia. }
  destruct (Z.ltb_spec d (DayFromYear y)).
  - replace (y - 1 + 1) with y by lia. lia.
  - destruct (Z.leb_spec (DayFromYear (y + 1)) d).
    + replace (y + 1 + 1) with (y + 2) by lia. lia.
    + lia.
Qed.

Lemma DayFromYear_mono y1 y2 : y1 <= y2 -> DayFromYear y1 <= DayFromYear y2.
Proof.
  intros H. pose proof (DayFromYear_after y1 (y2 - y1) ltac:(lia)) as Hs.
  replace (y1 + (y2 - y1)) with y2 in Hs by lia. lia.
Qed.

Lemma DayFromYear_lt_inv y1 y2 : DayFromYear y1 < DayFromYear y2 -> y1 < y2.
Proof.
  intros H. destruct (Z.lt_ge_cases y1 y2) as [L | L]; [assumption|].
  apply DayFromYear_mono in L. lia.
Qed.

Lemma year_in_range t : year0 <= t < year10000 -> 0 <= YearFromTime t <= 9999.
Proof.
  intros Ht. unfold YearFromTime.
  pose proof (year_of_day_spec (utcDay t)) as [Hlo Hhi].
  assert (Hd : DayFromYear 0 <= utcDay t < DayFromYear 10000).
  { unfold utcDay, msPerDay, year0, year10000 in *.
    change (DayFromYear 0) with (-719528). change (DayFromYear 10000) with 2932897.
    Z.div_mod_to_equations. lia. }
  assert (H1 : 0 < year_of_day (utcDay t) + 1) by (apply DayFromYear_lt_inv; lia).
  assert (H2 : year_of_day (utcDay t) < 10000) by (apply DayFromYear_lt_inv; lia).
  lia.
Qed.

Lemma day_within_year t :
  0 <= DayWithinYear t <= 364 + (if is_leap (YearFromTime t) then 1 else 0).
Proof.
  unfold DayWithinYear, YearFromTime.
  pose proof (year_of_day_spec (utcDay t)) as [Hlo Hhi].
  rewrite year_length in Hhi. destruct (is_leap (year_of_day (utcDay t))); lia.
Qed.

Lemma month_of_day_spec y n :
  0 <= n <= 364 + (if is_leap y then 1 else 0) ->
  1 <= month_of_day y n <= 12 /\
  1 <= n - DaysBeforeMonth y (month_of_day y n) + 1
    <= DaysInMonth y (month_of_day y n).
Proof.
  intros Hn. unfold month_of_day.
  repeat match goal with
  | |- context [if ?a <? ?b then _ else _] => destruct (Z.ltb_spec a b)
  end;
  months_unfold; destruct (is_leap y); lia.
Qed.

Lemma digit_char_digit k :
  0 <= k < 10 ->
  is_digit (digit_char k) = true /\ digit_value (digit_char k) = k.
Proof.
  intros H.
  assert (C : k = 0 \/ k = 1 \/ k = 2 \/ k = 3 \/ k = 4 \/ k = 5 \/ k = 6 \/
              k = 7 \/ k = 8 \/ k = 9) by lia.
  repeat (destruct C as [-> | C]; [split; reflexivity|]). subst. split; reflexivity.
Qed.

Lemma digit_not_T c : is_digit c = true -> Ascii.eqb c "T" = false.
Proof.
  intros H. destruct (Ascii.eqb_spec c "T") as [-> |]; [discriminate H | reflexivity].
Qed.

Lemma last_digit n : 0 <= n mod 10 < 10.
Proof. apply Z.mod_pos_bound. lia. Qed.

Lemma getCurrentDate_date_part now :
  year0 <= now < year10000 -> getCurrentDate now = date_part now.
Proof.
  intros H. apply year_in_range in H.
  unfold getCurrentDate, toISOString, date_part.
  replace ((0 <=? YearFromTime now) && (YearFromTime now <=? 9999)) with true
    by (symmetry; apply andb_true_iff; split; apply Z.leb_le; lia).
  cbn [padded append].
  repeat match goal with
  | |- context [digit_char (?n mod 10)] =>
      let c := fresh "c" in let D := fresh "D" in let V := fresh "V" in
      destruct (digit_char_digit (n mod 10) (last_digit n)) as [D V];
      set (c := digit_char (n mod 10)) in *
  end.
  cbn [before].
  repeat match goal with D : is_digit ?c = true |- _ =>
    rewrite (digit_not_T c D); clear D end.
  reflexivity.
Qed.

Lemma date_part_fields t :
  year0 <= t < year10000 ->
  date_fields (date_part t) = Some (YearFromTime t, MonthFromTime t, DateFromTime t).
Proof.
  intros H. pose proof (year_in_range t H) as Hy.
  pose proof (day_within_year t) as Hn.
  pose proof (month_of_day_spec _ _ Hn) as [Hm Hd].
  fold (MonthFromTime t) in Hm, Hd. fold (DateFromTime t) in Hd.
  pose proof (DaysInMonth_le_31 (YearFromTime t) (MonthFromTime t)) as H31.
  unfold date_part, date_fields. cbn [padded append chars list_ascii_of_string].
  cbn [Ascii.eqb Bool.eqb andb forallb].
  unfold number_of. cbn [radix_value].
  repeat match goal with
  | |- context [digit_char (?n mod 10)] =>
      let D := fresh "D" in let V := fresh "V" in
      destruct (digit_char_digit (n mod 10) (last_digit n)) as [D V];
      rewrite ?D, ?V;
      replace (n mod 10 <? 10) with true by (symmetry; apply Z.ltb_lt, last_digit);
      clear D V
  end.
  cbn [andb]. f_equal. f_equal; [f_equal|]; Z.div_mod_to_equations; lia.
Qed.

Lemma date_part_calendar t :
  year0 <= t < year10000 ->
  date_fields (date_part t) = Some (YearFromTime t, MonthFromTime t, DateFromTime t) /\
  1 <= MonthFromTime t <= 12 /\
  1 <= DateFromTime t <= DaysInMonth (YearFromTime t) (MonthFromTime t) /\
  MakeDay (YearFromTime t) (MonthFromTime t) (DateFromTime t) = utcDay t.
Proof.
  intros H. split; [apply date_part_fields; assumption|].
  pose proof (day_within_year t) as Hn.
  pose proof (month_of_day_spec _ _ Hn) as [Hm Hd].
  fold (MonthFromTime t) in Hm, Hd. fold (DateFromTime t) in Hd.
  split; [assumption|]. split; [assumption|].
  unfold MakeDay, DateFromTime, DayWithinYear. lia.
Qed.

Lemma toISOString_date_part t :
  year0 <= t < year10000 ->
  exists time,
    toISOString t = date_part t ++ "T" ++ time /\ String.length time = 13%nat.
Proof.
  intros H. apply year_in_range in H. unfold toISOString, date_part.
  replace ((0 <=? YearFromTime t) && (YearFromTime t <=? 9999)) with true
    by (symmetry; apply andb_true_iff; split; apply Z.leb_le; lia).
  eexists. split.
  - cbn [padded append]. reflexivity.
  - reflexivity.
Qed.

Lemma TimeClip_int z :
  Z.abs z <= 8640000000000000 -> TimeClip (Fin z 0) = Some z.
Proof.
  intros H. unfold TimeClip. cbn [Z.leb Z.compare Z.sub Z.opp Z.pow Z.pow_pos Pos.iter].
  rewrite Z.mul_1_r.
  replace (Z.abs z <=? 8640000000000000) with true by (symmetry; apply Z.leb_le; lia).
  reflexivity.
Qed.

Lemma startOfLocalDay_fixed tz now :
  - msPerDay < tz < msPerDay -> Z.abs now <= 8000000000000000 ->
  startOfLocalDay (fixedOffset tz) now = Some (utcDay (now + tz) * msPerDay - tz).
Proof.
  intros Htz Hnow. unfold startOfLocalDay, UTC, LocalTime, fixedOffset.
  apply TimeClip_int. unfold utcDay, msPerDay in *. Z.div_mod_to_equations. lia.
Qed.

Section Today.

Variable legacyParse : string -> time_value.

(** X15.  At every instant of the years 0 to 9999, [getCurrentDate]
    returns a string of 10 characters that [isValidDate] accepts and that
    [new Date] reads back as the start of the current UTC day; it is the
    part of [getCurrentDateTime] before the [T], which is followed by 13
    more characters. *)
Theorem getCurrentDate_is_the_valid_date_of_today (now : Z) :
  year0 <= now < year10000 ->
  isValidDate legacyParse (VStr (getCurrentDate now)) = Ok true /\
  new_Date legacyParse (VStr (getCurrentDate now)) = Ok (Some (utcDay now * msPerDay)) /\
  String.length (getCurrentDate now) = 10%nat /\
  exists time,
    getCurrentDateTime now = getCurrentDate now ++ "T" ++ time /\
    String.length time = 13%nat.
Proof.
  intros H. rewrite (getCurrentDate_date_part now H).
  destruct (date_part_calendar now H) as (F & Hm & Hd & Hday).
  split; [|split; [|split]].
  - apply calendar_date_valid. exists (YearFromTime now), (MonthFromTime now),
      (DateFromTime now). auto.
  - unfold new_Date. cbn [ToPrimitive bind].
    rewrite (calendar_date_parse legacyParse _ _ _ _ F Hm Hd), Hday. reflexivity.
  - reflexivity.
  - apply toISOString_date_part. assumption.
Qed.

Lemma date_only_parse s y m d :
  date_fields s = Some (y, m, d) -> 1 <= m <= 12 -> 1 <= d <= 31 ->
  new_Date legacyParse (VStr s) = Ok (Some (MakeDay y m d * msPerDay)).
Proof.
  intros F Hm Hd. unfold new_Date. cbn [ToPrimitive bind]. unfold Date_parse.
  rewrite F.
  replace ((1 <=? m) && (m <=? 12) && (1 <=? d) && (d <=? 31)) with true;
    [reflexivity|].
  symmetry. repeat (apply andb_true_iff; split); apply Z.leb_le; lia.
Qed.

Lemma past_future_fixed (tz now : Z) (s : string) (y m d : Z) :
  - msPerDay < tz < msPerDay ->
  Z.abs now <= 8000000000000000 ->
  date_fields s = Some (y, m, d) -> 1 <= m <= 12 -> 1 <= d <= 31 ->
  isPastDate legacyParse (fixedOffset tz) now (VStr s) =
    Ok (if tz <? 0 then MakeDay y m d <=? utcDay (now + tz)
        else MakeDay y m d <? utcDay (now + tz)) /\
  isFutureDate legacyParse (fixedOffset tz) now (VStr s) =
    Ok (if 0 <? tz then utcDay (now + tz) <=? MakeDay y m d
        else utcDay (now + tz) <? MakeDay y m d).
Proof.
  intros Htz Hnow F Hm Hd.
  unfold isPastDate, isFutureDate.
  rewrite (date_only_parse _ _ _ _ F Hm Hd), (startOfLocalDay_fixed _ _ Htz Hnow).
  cbn [bind date_lt date_gt].
  set (day := MakeDay y m d). set (today := utcDay (now + tz)).
  unfold msPerDay in *. split; f_equal.
  - destruct (Z.ltb_spec tz 0).
    + destruct (Z.leb_spec day today),
        (Z.ltb_spec (day * 86400000) (today * 86400000 - tz));
        try reflexivity; lia.
    + destruct (Z.ltb_spec day today),
        (Z.ltb_spec (day * 86400000) (today * 86400000 - tz));
        try reflexivity; lia.
  - destruct (Z.ltb_spec 0 tz).
    + destruct (Z.leb_spec today day),
        (Z.ltb_spec (today * 86400000 - tz) (day * 86400000));
        try reflexivity; lia.
    + destruct (Z.ltb_spec today day),
        (Z.ltb_spec (today * 86400000 - tz) (day * 86400000));
        try reflexivity; lia.
Qed.

(** X16.  In a time zone with a fixed offset [tz] from UTC, with [day] the
    day number of a date-only string and [today] the day number of the local
    date: east of UTC and in UTC the date is past exactly when
    [day < today], west of UTC exactly when [day <= today]; west of UTC and
    in UTC it is future exactly when [today < day], east of UTC exactly when
    [today <= day].  The string is read as midnight UTC and compared with
    the local midnight, so the current local date counts as past west of
    UTC and as future east of it. *)
Theorem past_and_future_in_a_fixed_zone
    (tz now : Z) (s : string) (y m d : Z) :
  - msPerDay < tz < msPerDay ->
  Z.abs now <= 8000000000000000 ->
  date_fields s = Some (y, m, d) -> 1 <= m <= 12 -> 1 <= d <= 31 ->
  let day := MakeDay y m d in
  let today := utcDay (now + tz) in
  isPastDate legacyParse (fixedOffset tz) now (VStr s) =
    Ok (if tz <? 0 then day <=? today else day <? today) /\
  isFutureDate legacyParse (fixedOffset tz) now (VStr s) =
    Ok (if 0 <? tz then today <=? day else today <? day).
Proof.
  intros Htz Hnow F Hm Hd. exact (past_future_fixed tz now s y m d Htz Hnow F Hm Hd).
Qed.

(** X17.  The date that [getCurrentDate] returns, handed to [isPastDate]
    and [isFutureDate] at the same instant: in UTC it is neither past nor
    future; west of UTC it is past, and east of UTC it is future, as long as
    the local calendar day is the UTC calendar day. *)
Theorem today_is_past_west_of_utc (tz now : Z) :
  - msPerDay < tz < msPerDay ->
  year0 <= now < year10000 ->
  let today := VStr (getCurrentDate now) in
  (tz = 0 ->
   isPastDate legacyParse (fixedOffset tz) now today = Ok false /\
   isFutureDate legacyParse (fixedOffset tz) now today = Ok false) /\
  (tz < 0 -> utcDay (now + tz) = utcDay now ->
   isPastDate legacyParse (fixedOffset tz) now today = Ok true) /\
  (0 < tz -> utcDay (now + tz) = utcDay now ->
   isFutureDate legacyParse (fixedOffset tz) now today = Ok true).
Proof.
  intros Htz Hnow today. subst today.
  rewrite (getCurrentDate_date_part now Hnow).
  destruct (date_part_calendar now Hnow) as (F & Hm & Hd & Hday).
  pose proof (DaysInMonth_le_31 (YearFromTime now) (MonthFromTime now)) as H31.
  assert (Habs : Z.abs now <= 8000000000000000)
    by (unfold year0, year10000 in Hnow; lia).
  destruct (past_future_fixed tz now _ _ _ _ Htz Habs F Hm ltac:(lia)) as [Hp Hf].
  rewrite Hday in Hp, Hf. rewrite Hp, Hf.
  split; [|split].
  - intros ->. rewrite Z.add_0_r. cbn [Z.ltb Z.compare].
    rewrite Z.ltb_irrefl. split; reflexivity.
  - intros Hneg ->.
    replace (tz <? 0) with true by (symmetry; apply Z.ltb_lt; lia).
    rewrite Z.leb_refl. reflexivity.
  - intros Hpos ->.
    replace (0 <? tz) with true by (symmetry; apply Z.ltb_lt; lia).
    rewrite Z.leb_refl. reflexivity.
Qed.

End Today.

(** ** The properties above, on records *)

Lemma unread_fields_witness :
  validate noLegacyFormats Insurance
    (VObj [("isActive", VBool false); ("groupNumber", int 7); ("userId", VStr "u1")]) =
  validate noLegacyFormats Insurance (VObj [("userId", VStr "u1")]).
Proof.
  apply (validators_read_only_their_fields noLegacyFormats Insurance).
  intros k Hk. simpl in Hk.
  repeat (destruct Hk as [<- | Hk]; [reflexivity|]). contradiction.
Defined.

Lemma rule_table_witness :
  validate noLegacyFormats User
    (VObj [("email", VStr "nobody"); ("firstName", VStr "  ")]) =
  Ok {| isValid :=
          forallb (fun r => negb (applies r
                     (VObj [("email", VStr "nobody"); ("firstName", VStr "  ")])))
            (rules noLegacyFormats User);
        errors := fired (rules noLegacyFormats User)
                    (VObj [("email", VStr "nobody"); ("firstName", VStr "  ")]) |}.
Proof.
  apply (validators_follow_their_rules noLegacyFormats User). reflexivity.
Defined.

(** The errors of that record. *)
Example rule_table_errors :
  fired (rules noLegacyFormats User)
    (VObj [("email", VStr "nobody"); ("firstName", VStr "  ")]) =
  [ "Invalid email format"; "First name is required"; "Last name is required";
    "Date of birth is required"; "Phone number is required"; "Address is required" ].
Proof. reflexivity. Qed.

Lemma distinct_errors_witness :
  exists r,
    validate noLegacyFormats Prescription
      (VObj [("refillsAllowed", int 2); ("refillsRemaining", int (-1))]) = Ok r /\
    NoDup (errors r) /\ (List.length (errors r) <= 16)%nat.
Proof.
  apply (errors_are_distinct_and_bounded noLegacyFormats Prescription). reflexivity.
Defined.

(** The bound of [validateUser] is reached. *)
Example nine_errors :
  exists r,
    validateUser noLegacyFormats
      (VObj [ ("email", VStr "x"); ("dateOfBirth", VStr "x");
              ("phoneNumber", VStr "x");
              ("address", VObj [("state", VStr "x"); ("zipCode", VStr "x")]) ]) =
    Ok r /\ List.length (errors r) = 9%nat.
Proof. eexists. split; reflexivity. Qed.

Lemma zero_user_id_witness :
  exists r,
    validate noLegacyFormats Insurance (VObj [("userId", int 0)]) = Ok r /\
    (In "User ID is required" (errors r) <->
     presence_test InsUserId (VObj [("userId", int 0)]) = true) /\
    (presence_test InsUserId (VObj [("userId", int 0)]) = true ->
     forall m, In m [] -> ~ In m (errors r)).
Proof.
  apply (presence_error_exactly_when_missing noLegacyFormats InsUserId). reflexivity.
Defined.

Lemma nan_quantity_witness :
  exists r,
    validate noLegacyFormats Prescription (VObj [("quantity", VNum NaN)]) = Ok r /\
    (In "Quantity must be a positive number" (errors r) <->
     num_lt NaN (Fin 1 0) = true) /\
    (NaN = NaN \/ NaN = Inf false ->
     ~ In "Quantity must be a positive number" (errors r)).
Proof.
  apply (range_error_exactly_when_below noLegacyFormats Quantity); reflexivity.
Defined.

Lemma coverage_period_witness :
  exists (eff : Z) (term : option Z),
    new_Date noLegacyFormats (field insurance2024 "effectiveDate") = Ok (Some eff) /\
    match term with
    | Some t =>
        new_Date noLegacyFormats (field insurance2024 "terminationDate") = Ok (Some t) /\
        eff < t
    | None => truthy (field insurance2024 "terminationDate") = false
    end /\
    (forall now,
       isInsuranceActive noLegacyFormats now insurance2024 =
       Ok (in_period eff term now && negb (is_false (field insurance2024 "isActive")))) /\
    in_period eff term eff = true.
Proof.
  apply (valid_insurance_has_a_coverage_period noLegacyFormats insurance2024
           {| isValid := true; errors := [] |}); reflexivity.
Defined.

Lemma interval_witness :
  isInsuranceActive noLegacyFormats noon_2024_06_15 insurance2024 = Ok true.
Proof.
  apply (active_instants_form_an_interval noLegacyFormats insurance2024
           1704067200000 noon_2024_06_15 1735603200000);
    [unfold noon_2024_06_15; lia | reflexivity | reflexivity].
Defined.

Lemma empty_insurance_witness :
  isInsuranceActive noLegacyFormats noon_2024_06_15 (VObj []) = Ok true.
Proof.
  apply (unparseable_dates_never_deactivate noLegacyFormats (VObj []));
    [reflexivity | reflexivity | left; reflexivity].
Defined.

Lemma generateUUID_witness :
  exists s,
    generateUUID alwaysHalf 0 = (s, 31%nat) /\
    String.length s = 36%nat /\
    accepts uuid4Regex (chars s) = true.
Proof.
  apply (generateUUID_yields_version_4_format alwaysHalf).
  intros i. unfold unit_interval, alwaysHalf. simpl. lia.
Defined.

Example generateUUID_of_halves :
  generateUUID alwaysHalf 0 = ("88888888-8888-4888-8888-888888888888", 31%nat).
Proof. reflexivity. Qed.

Lemma getCurrentDate_witness :
  isValidDate noLegacyFormats (VStr (getCurrentDate noon_2024_06_15)) = Ok true /\
  new_Date noLegacyFormats (VStr (getCurrentDate noon_2024_06_15)) =
    Ok (Some (utcDay noon_2024_06_15 * msPerDay)) /\
  String.length (getCurrentDate noon_2024_06_15) = 10%nat /\
  exists time,
    getCurrentDateTime noon_2024_06_15 =
      getCurrentDate noon_2024_06_15 ++ "T" ++ time /\
    String.length time = 13%nat.
Proof.
  apply (getCurrentDate_is_the_valid_date_of_today noLegacyFormats noon_2024_06_15).
  unfold year0, year10000, noon_2024_06_15. lia.
Defined.

Example getCurrentDateTime_at_noon :
  getCurrentDate noon_2024_06_15 = "2024-06-15" /\
  getCurrentDateTime noon_2024_06_15 = "2024-06-15T12:00:00.000Z".
Proof. split; reflexivity. Qed.

Lemma fixed_zone_witness :
  let day := MakeDay 2024 6 15 in
  let today := utcDay (noon_2024_06_15 + fiveHoursWest) in
  isPastDate noLegacyFormats (fixedOffset fiveHoursWest) noon_2024_06_15
    (VStr "2024-06-15") =
    Ok (if fiveHoursWest <? 0 then day <=? today else day <? today) /\
  isFutureDate noLegacyFormats (fixedOffset fiveHoursWest) noon_2024_06_15
    (VStr "2024-06-15") =
    Ok (if 0 <? fiveHoursWest then today <=? day else today <? day).
Proof.
  apply (past_and_future_in_a_fixed_zone noLegacyFormats fiveHoursWest
           noon_2024_06_15 "2024-06-15" 2024 6 15);
    try reflexivity; unfold msPerDay, fiveHoursWest, noon_2024_06_15; lia.
Defined.

Lemma today_west_witness :
  let today := VStr (getCurrentDate noon_2024_06_15) in
  (fiveHoursWest = 0 ->
   isPastDate noLegacyFormats (fixedOffset fiveHoursWest) noon_2024_06_15 today =
     Ok false /\
   isFutureDate noLegacyFormats (fixedOffset fiveHoursWest) noon_2024_06_15 today =
     Ok false) /\
  (fiveHoursWest < 0 ->
   utcDay (noon_2024_06_15 + fiveHoursWest) = utcDay noon_2024_06_15 ->
   isPastDate noLegacyFormats (fixedOffset fiveHoursWest) noon_2024_06_15 today =
     Ok true) /\
  (0 < fiveHoursWest ->
   utcDay (noon_2024_06_15 + fiveHoursWest) = utcDay noon_2024_06_15 ->
   isFutureDate noLegacyFormats (fixedOffset fiveHoursWest) noon_2024_06_15 today =
     Ok true).
Proof.
  apply (today_is_past_west_of_utc noLegacyFormats fiveHoursWest noon_2024_06_15);
    unfold msPerDay, fiveHoursWest, year0, year10000, noon_2024_06_15; lia.
Defined.

(** Seven in the morning in a zone five hours west of UTC: the date of the
    day is already reported past. *)
Example today_is_past_at_noon_utc :
  isPastDate noLegacyFormats (fixedOffset fiveHoursWest) noon_2024_06_15
    (VStr "2024-06-15") = Ok true.
Proof. reflexivity. Qed.
